(** * FlooProtocol: the client connection of floo/common/protocols/floo_proto.py

    A shallow embedding of class [FlooProtocol]: the object's attributes are a
    record, the module-level state it touches ([G.JOINED_WORKSPACE], the timer
    service behind [utils.set_timeout]) and the calls it makes to its
    collaborators are a [World], and every method is a function in a small
    state-and-exception monad over that world.  A Python exception leaves the
    mutations made before it in place, so a raising computation still returns
    the world it reached. *)

From Stdlib Require Import ZArith List String Ascii Strings.Byte Bool Lia Arith.
Import ListNotations.
Local Open Scope Z_scope.

Set Implicit Arguments.
Set Warnings "-register-all".
Set Warnings "-notation-overridden".

(** ** Python values *)

Definition bytes := list byte.

(** What [json.loads] returns and [json.dumps] accepts (numbers are kept to
    the integers; no claim depends on a float payload). *)
Inductive json : Type :=
| JNull
| JBool (b : bool)
| JNum (z : Z)
| JStr (s : string)
| JArr (l : list json)
| JObj (kvs : list (string * json)).

(** Python truth value: [None], [False], [0], [''], [[]] and [{}] are false. *)
Definition truthy (v : json) : bool :=
  match v with
  | JNull => false
  | JBool b => b
  | JNum z => negb (z =? 0)
  | JStr s => negb (String.eqb s EmptyString)
  | JArr l => match l with [] => false | _ => true end
  | JObj kvs => match kvs with [] => false | _ => true end
  end.

Fixpoint dict_get (k : string) (kvs : list (string * json)) : json :=
  match kvs with
  | [] => JNull
  | (k', v) :: rest => if String.eqb k k' then v else dict_get k rest
  end.

(** [name == 'room_info'] *)
Definition is_room_info (name : json) : bool :=
  match name with
  | JStr s => String.eqb s "room_info"
  | _ => false
  end.

Inductive exn : Type :=
| AttributeError
| IndexError
| SocketError
| SSLError
| TypeError
| ZeroDivisionError
| SubscriberError.

Inductive Res (A : Type) : Type :=
| Val (a : A)
| Exc (e : exn).
Arguments Val {A} a.
Arguments Exc {A} e.

(** ** The collaborators

    Everything [floo_proto.py] imports and does not define.  The JSON primitive
    and the UTF-8 codec are opaque functions; a subscriber is known only by
    whether it raises on an event; [ssl], [G.DEFAULT_PORT] and [G.TICK_TIME]
    are module-level constants. *)
Record Collaborators : Type := {
  decode_ignore : bytes -> string;         (* bytes.decode('utf-8', 'ignore') *)
  json_loads : string -> option json;      (* None: json.loads raised *)
  json_dumps : json -> string;
  utf8_encode : string -> bytes;           (* str.encode('utf-8') *)
  data_subscriber_raises : json -> json -> bool;
  connect_subscriber_raises : bool;
  ssl : bool;                              (* false: the import failed *)
  DEFAULT_PORT : Z;
  TICK_TIME : Z
}.

(** ** The object *)

(** A socket object: its descriptor, and whether [ssl.wrap_socket] wrapped it. *)
Record socket : Type := { sock_fileno : Z; sock_tls : bool }.

(** The attributes.  The first fourteen are the ones [__init__] binds.  The
    methods also assign [reconnect_delay], [retries] and [_empty_selects], which
    [__init__] does not bind and which are different attributes from
    [_reconnect_delay], [_retries] and [_empty_reads]: they are [None] until
    assigned.  [_listen] is read by [read] and bound nowhere in the file; it is
    whatever the base class provides, [None] standing for an unbound name. *)
Record FlooProtocol : Type := {
  host : string;
  port : Z;
  secure : bool;
  connected : bool;
  _listener : bool;
  _needs_handshake : bool;
  _sock : option socket;
  _q : list string;
  _buf : bytes;
  _reconnect_delay : Z;
  _retries : Z;
  _empty_reads : Z;
  _reconnect_timeout : option Z;
  _cert_path : string;
  reconnect_delay : option Z;
  retries : option Z;
  _empty_selects : option Z;
  _listen : option bool
}.

Definition NEWLINE : byte := x0a.
Definition MAX_RETRIES : Z := 20.
Definition INITIAL_RECONNECT_DELAY : Z := 500.

(** [FlooProtocol(host, port, secure)]; [base_listen] is the inherited
    [_listen], [cert_path] is [G.BASE_DIR] with the file name joined on. *)
Definition __init__ (h : string) (p : Z) (sec : bool)
    (base_listen : option bool) (cert_path : string) : FlooProtocol :=
  {| host := h; port := p; secure := sec; connected := false;
     _listener := false; _needs_handshake := sec; _sock := None;
     _q := []; _buf := [];
     _reconnect_delay := INITIAL_RECONNECT_DELAY; _retries := MAX_RETRIES;
     _empty_reads := 0; _reconnect_timeout := None; _cert_path := cert_path;
     reconnect_delay := None; retries := None; _empty_selects := None;
     _listen := base_listen |}.

Definition set_port (v : Z) (o : FlooProtocol) : FlooProtocol :=
  {| host := host o; port := v; secure := secure o; connected := connected o;
     _listener := _listener o; _needs_handshake := _needs_handshake o;
     _sock := _sock o; _q := _q o; _buf := _buf o;
     _reconnect_delay := _reconnect_delay o; _retries := _retries o;
     _empty_reads := _empty_reads o; _reconnect_timeout := _reconnect_timeout o;
     _cert_path := _cert_path o; reconnect_delay := reconnect_delay o;
     retries := retries o; _empty_selects := _empty_selects o;
     _listen := _listen o |}.

Definition set_secure (v : bool) (o : FlooProtocol) : FlooProtocol :=
  {| host := host o; port := port o; secure := v; connected := connected o;
     _listener := _listener o; _needs_handshake := _needs_handshake o;
     _sock := _sock o; _q := _q o; _buf := _buf o;
     _reconnect_delay := _reconnect_delay o; _retries := _retries o;
     _empty_reads := _empty_reads o; _reconnect_timeout := _reconnect_timeout o;
     _cert_path := _cert_path o; reconnect_delay := reconnect_delay o;
     retries := retries o; _empty_selects := _empty_selects o;
     _listen := _listen o |}.

Definition set_connected (v : bool) (o : FlooProtocol) : FlooProtocol :=
  {| host := host o; port := port o; secure := secure o; connected := v;
     _listener := _listener o; _needs_handshake := _needs_handshake o;
     _sock := _sock o; _q := _q o; _buf := _buf o;
     _reconnect_delay := _reconnect_delay o; _retries := _retries o;
     _empty_reads := _empty_reads o; _reconnect_timeout := _reconnect_timeout o;
     _cert_path := _cert_path o; reconnect_delay := reconnect_delay o;
     retries := retries o; _empty_selects := _empty_selects o;
     _listen := _listen o |}.

Definition set__needs_handshake (v : bool) (o : FlooProtocol) : FlooProtocol :=
  {| host := host o; port := port o; secure := secure o; connected := connected o;
     _listener := _listener o; _needs_handshake := v;
     _sock := _sock o; _q := _q o; _buf := _buf o;
     _reconnect_delay := _reconnect_delay o; _retries := _retries o;
     _empty_reads := _empty_reads o; _reconnect_timeout := _reconnect_timeout o;
     _cert_path := _cert_path o; reconnect_delay := reconnect_delay o;
     retries := retries o; _empty_selects := _empty_selects o;
     _listen := _listen o |}.

Definition set__sock (v : option socket) (o : FlooProtocol) : FlooProtocol :=
  {| host := host o; port := port o; secure := secure o; connected := connected o;
     _listener := _listener o; _needs_handshake := _needs_handshake o;
     _sock := v; _q := _q o; _buf := _buf o;
     _reconnect_delay := _reconnect_delay o; _retries := _retries o;
     _empty_reads := _empty_reads o; _reconnect_timeout := _reconnect_timeout o;
     _cert_path := _cert_path o; reconnect_delay := reconnect_delay o;
     retries := retries o; _empty_selects := _empty_selects o;
     _listen := _listen o |}.

Definition set__q (v : list string) (o : FlooProtocol) : FlooProtocol :=
  {| host := host o; port := port o; secure := secure o; connected := connected o;
     _listener := _listener o; _needs_handshake := _needs_handshake o;
     _sock := _sock o; _q := v; _buf := _buf o;
     _reconnect_delay := _reconnect_delay o; _retries := _retries o;
     _empty_reads := _empty_reads o; _reconnect_timeout := _reconnect_timeout o;
     _cert_path := _cert_path o; reconnect_delay := reconnect_delay o;
     retries := retries o; _empty_selects := _empty_selects o;
     _listen := _listen o |}.

Definition set__buf (v : bytes) (o : FlooProtocol) : FlooProtocol :=
  {| host := host o; port := port o; secure := secure o; connected := connected o;
     _listener := _listener o; _needs_handshake := _needs_handshake o;
     _sock := _sock o; _q := _q o; _buf := v;
     _reconnect_delay := _reconnect_delay o; _retries := _retries o;
     _empty_reads := _empty_reads o; _reconnect_timeout := _reconnect_timeout o;
     _cert_path := _cert_path o; reconnect_delay := reconnect_delay o;
     retries := retries o; _empty_selects := _empty_selects o;
     _listen := _listen o |}.

Definition set__reconnect_delay (v : Z) (o : FlooProtocol) : FlooProtocol :=
  {| host := host o; port := port o; secure := secure o; connected := connected o;
     _listener := _listener o; _needs_handshake := _needs_handshake o;
     _sock := _sock o; _q := _q o; _buf := _buf o;
     _reconnect_delay := v; _retries := _retries o;
     _empty_reads := _empty_reads o; _reconnect_timeout := _reconnect_timeout o;
     _cert_path := _cert_path o; reconnect_delay := reconnect_delay o;
     retries := retries o; _empty_selects := _empty_selects o;
     _listen := _listen o |}.

Definition set__retries (v : Z) (o : FlooProtocol) : FlooProtocol :=
  {| host := host o; port := port o; secure := secure o; connected := connected o;
     _listener := _listener o; _needs_handshake := _needs_handshake o;
     _sock := _sock o; _q := _q o; _buf := _buf o;
     _reconnect_delay := _reconnect_delay o; _retries := v;
     _empty_reads := _empty_reads o; _reconnect_timeout := _reconnect_timeout o;
     _cert_path := _cert_path o; reconnect_delay := reconnect_delay o;
     retries := retries o; _empty_selects := _empty_selects o;
     _listen := _listen o |}.

Definition set__empty_reads (v : Z) (o : FlooProtocol) : FlooProtocol :=
  {| host := host o; port := port o; secure := secure o; connected := connected o;
     _listener := _listener o; _needs_handshake := _needs_handshake o;
     _sock := _sock o; _q := _q o; _buf := _buf o;
     _reconnect_delay := _reconnect_delay o; _retries := _retries o;
     _empty_reads := v; _reconnect_timeout := _reconnect_timeout o;
     _cert_path := _cert_path o; reconnect_delay := reconnect_delay o;
     retries := retries o; _empty_selects := _empty_selects o;
     _listen := _listen o |}.

Definition set__reconnect_timeout (v : option Z) (o : FlooProtocol) : FlooProtocol :=
  {| host := host o; port := port o; secure := secure o; connected := connected o;
     _listener := _listener o; _needs_handshake := _needs_handshake o;
     _sock := _sock o; _q := _q o; _buf := _buf o;
     _reconnect_delay := _reconnect_delay o; _retries := _retries o;
     _empty_reads := _empty_reads o; _reconnect_timeout := v;
     _cert_path := _cert_path o; reconnect_delay := reconnect_delay o;
     retries := retries o; _empty_selects := _empty_selects o;
     _listen := _listen o |}.

Definition set_reconnect_delay (v : option Z) (o : FlooProtocol) : FlooProtocol :=
  {| host := host o; port := port o; secure := secure o; connected := connected o;
     _listener := _listener o; _needs_handshake := _needs_handshake o;
     _sock := _sock o; _q := _q o; _buf := _buf o;
     _reconnect_delay := _reconnect_delay o; _retries := _retries o;
     _empty_reads := _empty_reads o; _reconnect_timeout := _reconnect_timeout o;
     _cert_path := _cert_path o; reconnect_delay := v;
     retries := retries o; _empty_selects := _empty_selects o;
     _listen := _listen o |}.

Definition set_retries (v : option Z) (o : FlooProtocol) : FlooProtocol :=
  {| host := host o; port := port o; secure := secure o; connected := connected o;
     _listener := _listener o; _needs_handshake := _needs_handshake o;
     _sock := _sock o; _q := _q o; _buf := _buf o;
     _reconnect_delay := _reconnect_delay o; _retries := _retries o;
     _empty_reads := _empty_reads o; _reconnect_timeout := _reconnect_timeout o;
     _cert_path := _cert_path o; reconnect_delay := reconnect_delay o;
     retries := v; _empty_selects := _empty_selects o;
     _listen := _listen o |}.

Definition set__empty_selects (v : option Z) (o : FlooProtocol) : FlooProtocol :=
  {| host := host o; port := port o; secure := secure o; connected := connected o;
     _listener := _listener o; _needs_handshake := _needs_handshake o;
     _sock := _sock o; _q := _q o; _buf := _buf o;
     _reconnect_delay := _reconnect_delay o; _retries := _retries o;
     _empty_reads := _empty_reads o; _reconnect_timeout := _reconnect_timeout o;
     _cert_path := _cert_path o; reconnect_delay := reconnect_delay o;
     retries := retries o; _empty_selects := v;
     _listen := _listen o |}.

(** ** The world around the object *)

(** What a timer runs when it fires: [self.connect] (armed by [reconnect]) or
    [self._connect] with its attempt count (armed by [_connect]). *)
Inductive callback : Type :=
| Cb_connect
| Cb__connect (attempts : Z).

Record timer : Type := { t_id : Z; t_callback : callback; t_delay : Z }.

(** User-facing notices ([editor.error_message], [editor.status_message]). *)
Inductive notice : Type :=
| Connecting (h : string) (p : Z)
| Giving_up
| Join_error.

(** The calls made to collaborators, oldest first.  Log lines ([msg.log],
    [msg.debug], [msg.error], [sock_debug], [print]) are left out: the sink
    never alters control flow. *)
Inductive effect : Type :=
| Emit_connect
| Emit_data (name data : json)
| Error_message (n : notice)
| Status_message (n : notice)
| Sendall (fd : Z) (b : bytes)
| Reactor_select
| Cert_written.

Record World : Type := {
  self : FlooProtocol;
  JOINED_WORKSPACE : bool;      (* G.JOINED_WORKSPACE *)
  timers : list timer;          (* pending, in arming order *)
  next_timeout_id : Z;
  effects : list effect
}.

Definition with_self (o : FlooProtocol) (w : World) : World :=
  {| self := o; JOINED_WORKSPACE := JOINED_WORKSPACE w; timers := timers w;
     next_timeout_id := next_timeout_id w; effects := effects w |}.

Definition with_JOINED_WORKSPACE (b : bool) (w : World) : World :=
  {| self := self w; JOINED_WORKSPACE := b; timers := timers w;
     next_timeout_id := next_timeout_id w; effects := effects w |}.

Definition with_timers (ts : list timer) (w : World) : World :=
  {| self := self w; JOINED_WORKSPACE := JOINED_WORKSPACE w; timers := ts;
     next_timeout_id := next_timeout_id w; effects := effects w |}.

Definition with_next_timeout_id (n : Z) (w : World) : World :=
  {| self := self w; JOINED_WORKSPACE := JOINED_WORKSPACE w; timers := timers w;
     next_timeout_id := n; effects := effects w |}.

Definition with_effects (es : list effect) (w : World) : World :=
  {| self := self w; JOINED_WORKSPACE := JOINED_WORKSPACE w; timers := timers w;
     next_timeout_id := next_timeout_id w; effects := es |}.

(** ** The monad *)

Definition M (A : Type) : Type := World -> Res A * World.

Definition ret {A} (a : A) : M A := fun w => (Val a, w).

Definition raise {A} (e : exn) : M A := fun w => (Exc e, w).

Definition bind {A B} (c : M A) (k : A -> M B) : M B :=
  fun w => match c w with
           | (Val a, w') => k a w'
           | (Exc e, w') => (Exc e, w')
           end.

(** [try: c  except Exception: h] *)
Definition try_except {A} (c : M A) (h : exn -> M A) : M A :=
  fun w => match c w with
           | (Val a, w') => (Val a, w')
           | (Exc e, w') => h e w'
           end.

Declare Scope py_scope.
Delimit Scope py_scope with py.
Notation "x <- c ;; k" := (bind c (fun x => k))
  (at level 61, c at next level, right associativity) : py_scope.
Notation "c ;; k" := (bind c (fun _ => k))
  (at level 61, right associativity) : py_scope.
Local Open Scope py_scope.

Definition get_self : M FlooProtocol := fun w => (Val (self w), w).

Definition assign (f : FlooProtocol -> FlooProtocol) : M unit :=
  fun w => (Val tt, with_self (f (self w)) w).

Definition perform (e : effect) : M unit :=
  fun w => (Val tt, with_effects (effects w ++ [e]) w).

(** Modelled from the spec: the timer service [utils.set_timeout] and
    [utils.cancel_timeout], which live outside this file.  The spec gives the
    contract [schedule(callback, delay_ms, ...args) -> handle] and
    [cancel(handle)]; handles are taken to be integers handed out in
    increasing order. *)
Definition set_timeout (cb : callback) (delay : Z) : M Z :=
  fun w =>
    let h := next_timeout_id w in
    (Val h,
     with_next_timeout_id (h + 1)
       (with_timers (timers w ++ [{| t_id := h; t_callback := cb; t_delay := delay |}]) w)).

Definition cancel_timeout (h : option Z) : M unit :=
  fun w =>
    match h with
    | None => (Val tt, w)
    | Some i => (Val tt, with_timers (filter (fun t => negb (t_id t =? i)) (timers w)) w)
    end.

(** Truth value of a timer handle as [if self._reconnect_timeout:] tests it. *)
Definition handle_truthy (h : option Z) : bool :=
  match h with
  | None => false
  | Some i => negb (i =? 0)
  end.

(** [int(1.5 * d)]: the product is exact in binary64 for every delay the
    object can hold, and [int] truncates towards zero. *)
Definition int_1_5 (d : Z) : Z := Z.quot (3 * d) 2.

(** [before, sep, after = buf.partition(sep)]; the middle component tells
    whether the separator was found, and without it [before] is all of [buf]. *)
Fixpoint partition (sep : byte) (buf : bytes) : bytes * bool * bytes :=
  match buf with
  | [] => ([], false, [])
  | x :: rest =>
      if Byte.eqb x sep then ([], true, rest)
      else let '(before, found, after) := partition sep rest in
           (x :: before, found, after)
  end.

Definition LF : string := String (ascii_of_byte NEWLINE) EmptyString.

(** ** What the operating system and the peer answer

    A method that talks to the socket takes the answers as arguments. *)

(** [self._sock.connect(...)]: no error, [iscon_errno], an errno in
    [connect_errno], or any other [socket.error]. *)
Inductive connect_result : Type :=
| Connect_ok
| Connect_isconn
| Connect_in_progress
| Connect_error.

(** [self._sock.do_handshake()] on a wrapped socket. *)
Inductive handshake_result : Type :=
| Handshake_done
| Handshake_SSLError
| Handshake_error.

(** [self._sock.recv(65536)]: bytes (none when the peer has closed), or a
    [socket.error] / [TypeError]. *)
Inductive recv_result : Type :=
| Recv (d : bytes)
| Recv_error.

Section Protocol.

Context (env : Collaborators).

(** ** Teardown and backoff *)

(** [cleanup]: both socket calls sit in [try/except Exception: pass], so
    whatever they do leaves no mark here. *)
Definition cleanup : M unit :=
  fun w =>
    (Val tt,
     with_self (set_connected false (set__sock None (set__buf [] (self w))))
       (with_JOINED_WORKSPACE false w)).

Definition reconnect : M unit :=
  o <- get_self ;;
  if handle_truthy (_reconnect_timeout o) then ret tt
  else
    cleanup ;;
    assign (fun o => set__reconnect_delay
                       (Z.min 10000 (int_1_5 (_reconnect_delay o))) o) ;;
    o <- get_self ;;
    (if _retries o >? 0 then
       h <- set_timeout Cb_connect (_reconnect_delay o) ;;
       assign (set__reconnect_timeout (Some h))
     else if _retries o =? 0 then
       perform (Error_message Giving_up)
     else ret tt) ;;
    assign (fun o => set__retries (_retries o - 1) o).

(** [utils.cancel_timeout(self._reconnect_timeout)] then
    [self._reconnect_timeout = None], the two statements [stop] and [connect]
    share. *)
Definition cancel_reconnect_timeout : M unit :=
  o <- get_self ;;
  cancel_timeout (_reconnect_timeout o) ;;
  assign (set__reconnect_timeout None).

Definition stop : M unit :=
  assign (set_retries (Some (-1))) ;;
  cancel_reconnect_timeout ;;
  cleanup.

(** Modelled from the spec: [self._reconnect], which [_connect] calls and
    which this file binds nowhere (the method it defines is [reconnect]).  The
    spec sends both failure paths of [_connect] to [reconnect()]. *)
Definition _reconnect : M unit := reconnect.

(** ** Inbound framing *)

(** [self.emit("data", name, data)] *)
Definition emit_data (name data : json) : M unit :=
  perform (Emit_data name data) ;;
  if data_subscriber_raises env name data then raise SubscriberError else ret tt.

(** [msg.debug("got data " + name)]: the concatenation needs a string. *)
Definition debug_got_data (name : json) : M unit :=
  match name with
  | JStr _ => ret tt
  | _ => raise TypeError
  end.

(** [data.get('name')]: only a dict has [get]. *)
Definition get_name (data : json) : M json :=
  match data with
  | JObj kvs => ret (dict_get "name" kvs)
  | _ => raise AttributeError
  end.

(** The body of the [while] of [_handle] once a separator was found. *)
Definition handle_line (before after : bytes) : M unit :=
  match json_loads env (decode_ignore env before) with
  | None => assign (set__buf after)
  | Some data =>
      name <- get_name data ;;
      try_except
        (emit_data name data ;; debug_got_data name)
        (fun _ =>
           if is_room_info name then
             perform (Error_message Join_error) ;; stop
           else ret tt) ;;
      assign (set__buf after)
  end.

(** The [while True] of [_handle]; [None] is a loop that has not returned
    within [fuel] passes. *)
Fixpoint _handle_loop (fuel : nat) (w : World) : option (Res unit * World) :=
  match fuel with
  | O => None
  | S fuel' =>
      match partition NEWLINE (_buf (self w)) with
      | (_, false, _) => Some (Val tt, w)
      | (before, true, after) =>
          match handle_line before after w with
          | (Val _, w') => _handle_loop fuel' w'
          | (Exc e, w') => Some (Exc e, w')
          end
      end
  end.

Definition _handle (data : bytes) (w : World) : option (Res unit * World) :=
  let w1 := with_self (set__buf (_buf (self w) ++ data) (self w)) w in
  _handle_loop (S (List.length (_buf (self w1)))) w1.

(** ** Connecting *)

Definition listen : M unit :=
  assign (set__q []) ;;
  perform Reactor_select.

Definition _connect (attempts : Z) (r : connect_result) : M unit :=
  if attempts >? 500 then _reconnect
  else
    o <- get_self ;;
    match _sock o with
    | None => ret tt
    | Some s =>
        match r with
        | Connect_in_progress =>
            _ <- set_timeout (Cb__connect (attempts + 1)) 20 ;; ret tt
        | Connect_error => _reconnect
        | Connect_ok | Connect_isconn =>
            (if secure o then
               if ssl env then
                 assign (set__sock (Some {| sock_fileno := sock_fileno s;
                                            sock_tls := true |}))
               else raise AttributeError
             else ret tt) ;;
            assign (set__q []) ;;
            assign (set_reconnect_delay (Some INITIAL_RECONNECT_DELAY)) ;;
            assign (set_retries (Some MAX_RETRIES)) ;;
            perform Emit_connect ;;
            (if connect_subscriber_raises env then raise SubscriberError
             else ret tt) ;;
            assign (set_connected true) ;;
            perform Reactor_select
        end
    end.

(** [connect]; [fd] is the descriptor of the socket [socket.socket] returns. *)
Definition connect (fd : Z) (r : connect_result) : M unit :=
  cancel_reconnect_timeout ;;
  cleanup ;;
  assign (set__empty_selects (Some 0)) ;;
  assign (set__sock (Some {| sock_fileno := fd; sock_tls := false |})) ;;
  o <- get_self ;;
  (if secure o then
     if ssl env then perform Cert_written
     else
       assign (set_secure false) ;;
       if port o =? DEFAULT_PORT env then assign (set_port 3148) else ret tt
   else ret tt) ;;
  o <- get_self ;;
  perform (Status_message (Connecting (host o) (port o))) ;;
  _connect 0 r.

(** ** The readiness adapter *)

Definition __len__ (o : FlooProtocol) : Z := Z.of_nat (List.length (_q o)).

Definition fileno (o : FlooProtocol) : Res Z :=
  match _sock o with
  | Some s => Val (sock_fileno s)
  | None => Exc AttributeError
  end.

(** [fd_set] appends to the three lists it is handed; they come back in the
    order (readable, writeable, errorable). *)
Definition fd_set (o : FlooProtocol) (readable writeable errorable : list Z)
    : Res unit * (list Z * list Z * list Z) :=
  if negb (connected o) && negb (_listener o) then
    (Val tt, (readable, writeable, errorable))
  else
    match fileno o with
    | Exc e => (Exc e, (readable, writeable, errorable))
    | Val fd =>
        let errorable := errorable ++ [fd] in
        let readable := if _listener o then readable ++ [fd] else readable in
        if _needs_handshake o then
          (Val tt, (readable, writeable ++ [fd], errorable))
        else
          let writeable :=
            if __len__ o >? 0 then writeable ++ [fd] else writeable in
          (Val tt, (readable ++ [fd], writeable, errorable))
    end.

(** [self._sock.do_handshake()]: [None] has no such attribute, and neither
    has a socket that was never wrapped. *)
Definition do_handshake (r : handshake_result) : M unit :=
  o <- get_self ;;
  match _sock o with
  | None => raise AttributeError
  | Some s =>
      if sock_tls s then
        match r with
        | Handshake_done => ret tt
        | Handshake_SSLError => raise SSLError
        | Handshake_error => raise SocketError
        end
      else raise AttributeError
  end.

(** [self._sock.sendall(b)]; [ok] is whether the peer takes the bytes. *)
Definition sendall (b : bytes) (ok : bool) : M unit :=
  o <- get_self ;;
  match _sock o with
  | None => raise AttributeError
  | Some s =>
      if ok then perform (Sendall (sock_fileno s) b) else raise SocketError
  end.

(** The [while True] of [write], over the queue it pops from; [k] counts the
    [sendall] calls of this callback.  An empty queue makes [popleft] raise
    the [IndexError] that ends the loop. *)
Fixpoint drain (q : list string) (sends : nat -> bool) (k : nat) : M unit :=
  match q with
  | [] => ret tt
  | item :: rest =>
      assign (set__q rest) ;;
      sendall (utf8_encode env item) (sends k) ;;
      drain rest sends (S k)
  end.

Definition write (hs : handshake_result) (sends : nat -> bool) : M unit :=
  o <- get_self ;;
  if _needs_handshake o then
    finished <- try_except
              (do_handshake hs ;; ret true)
              (fun e =>
                 if ssl env then
                   match e with
                   | SSLError => ret false
                   | _ => reconnect ;; ret false
                   end
                 else raise AttributeError) ;;
    if finished then assign (set__needs_handshake false) else ret tt
  else
    drain (_q o) sends 0.

(** The [while True] of [read] on a live socket: what [buf] holds when the
    loop breaks.  When the answers run out the socket has nothing more to
    give, which a non-blocking [recv] reports as a [socket.error]. *)
Fixpoint recv_all (recvs : list recv_result) (buf : bytes) : bytes :=
  match recvs with
  | [] => buf
  | Recv_error :: _ => buf
  | Recv [] :: _ => buf
  | Recv d :: rest => recv_all rest (buf ++ d)
  end.

(** [self._sock.accept()] *)
Definition accept (ok : bool) : M unit :=
  o <- get_self ;;
  match _sock o with
  | None => raise AttributeError
  | Some _ => if ok then ret tt else raise SocketError
  end.

(** What [read] does after the [recv] loop found nothing. *)
Definition empty_read : M unit :=
  assign (fun o => set__empty_reads (_empty_reads o + 1) o) ;;
  o <- get_self ;;
  if TICK_TIME env =? 0 then raise ZeroDivisionError
  else if _empty_reads o >? 2000 / TICK_TIME env then reconnect
  else ret tt.

Definition read (accept_ok : bool) (recvs : list recv_result) (w : World)
    : option (Res unit * World) :=
  match _listen (self w) with
  | None => Some (Exc AttributeError, w)
  | Some l =>
      match (if l then accept accept_ok else ret tt) w with
      | (Exc e, w1) => Some (Exc e, w1)
      | (Val _, w1) =>
          match _sock (self w1) with
          | None => Some (reconnect w1)
          | Some _ =>
              match recv_all recvs [] with
              | [] => Some (empty_read w1)
              | buf =>
                  _handle buf (with_self (set__empty_reads 0 (self w1)) w1)
              end
          end
      end
  end.

(** ** Outbound framing *)

(** [put]; the value is [None] where the method returns nothing. *)
Definition put (item : json) : M (option Z) :=
  if negb (truthy item) then ret None
  else
    match item with
    | JObj _ =>
        assign (fun o => set__q (_q o ++ [json_dumps env item ++ LF]%string) o) ;;
        o <- get_self ;;
        ret (Some (Z.of_nat (List.length (_q o))))
    | _ => raise AttributeError
    end.

End Protocol.

(** ** A concrete set of collaborators

    Used to run the methods on explicit inputs.  Text is ASCII, so the codec is
    the identity on codes.  [demo_loads] is [json.loads] on the texts the
    examples feed it and rejects every other text; [demo_dumps] prints an
    object of strings and integers the way [json.dumps] does. *)

Definition DQ : string := String "034"%char EmptyString.

Definition quoted (s : string) : string := (DQ ++ s ++ DQ)%string.

Definition demo_decode (b : bytes) : string :=
  string_of_list_ascii (map ascii_of_byte b).

Definition demo_encode (s : string) : bytes :=
  map byte_of_ascii (list_ascii_of_string s).

Definition ping : json := JObj [("name"%string, JStr "ping")].

Definition patch : json :=
  JObj [("name"%string, JStr "patch"); ("data"%string, JStr "x")].

(** [{"name":"ping"}] *)
Definition ping_text : string :=
  ("{" ++ quoted "name" ++ ":" ++ quoted "ping" ++ "}")%string.

(** [{"name":"patch","data":"x"}] *)
Definition patch_text : string :=
  ("{" ++ quoted "name" ++ ":" ++ quoted "patch" ++ ","
       ++ quoted "data" ++ ":" ++ quoted "x" ++ "}")%string.

Definition demo_loads (s : string) : option json :=
  if String.eqb s ping_text then Some ping
  else if String.eqb s patch_text then Some patch
  else if String.eqb s "5" then Some (JNum 5)
  else None.

Definition dumps_scalar (v : json) : string :=
  match v with
  | JStr s => quoted s
  | JNum 5 => "5"
  | JBool true => "true"
  | JBool false => "false"
  | _ => "null"
  end.

Definition demo_dumps (v : json) : string :=
  match v with
  | JObj kvs =>
      ("{" ++ String.concat ", "
                (map (fun kv => quoted (fst kv) ++ ": " ++ dumps_scalar (snd kv)) kvs)
           ++ "}")%string
  | _ => dumps_scalar v
  end.

Definition demo_env : Collaborators :=
  {| decode_ignore := demo_decode;
     json_loads := demo_loads;
     json_dumps := demo_dumps;
     utf8_encode := demo_encode;
     data_subscriber_raises := fun _ _ => false;
     connect_subscriber_raises := false;
     ssl := true;
     DEFAULT_PORT := 3448;
     TICK_TIME := 1 |}.

(** A fresh object in a fresh world; the first timer handle is [first_id]. *)
Definition new_world (o : FlooProtocol) (first_id : Z) : World :=
  {| self := o; JOINED_WORKSPACE := true; timers := [];
     next_timeout_id := first_id; effects := [] |}.

Definition demo_object (sec : bool) : FlooProtocol :=
  __init__ "floobits.com" 3448 sec (Some false) "startssl-ca.pem".

Definition demo_world (sec : bool) : World := new_world (demo_object sec) 1.

(** ** Runs of the object *)

Section Runs.

Context (env : Collaborators).

(** Modelled from the spec: the timer service running a due timer, which
    lives outside this file.  The handle leaves the pending set and the
    callback runs; a handle that is not pending does nothing. *)
Definition fire (h fd : Z) (r : connect_result) : M unit :=
  fun w =>
    match find (fun t => t_id t =? h) (timers w) with
    | None => (Val tt, w)
    | Some t =>
        let w1 := with_timers (filter (fun t => negb (t_id t =? h)) (timers w)) w in
        match t_callback t with
        | Cb_connect => connect env fd r w1
        | Cb__connect attempts => _connect env attempts r w1
        end
    end.

(** One entry from outside into the object: a method call by the owner or by
    the readiness loop, or a timer coming due. *)
Inductive op : Type :=
| Call_connect (fd : Z) (r : connect_result)
| Call_stop
| Call_reconnect
| Call_cleanup
| Call_listen
| Call_put (item : json)
| Call_write (hs : handshake_result) (sends : nat -> bool)
| Call_read (accept_ok : bool) (recvs : list recv_result)
| Timer_fires (h fd : Z) (r : connect_result).

(** The world an entry leaves behind, whether it returned or raised. *)
Definition run_op (o : op) (w : World) : option World :=
  match o with
  | Call_connect fd r => Some (snd (connect env fd r w))
  | Call_stop => Some (snd (stop w))
  | Call_reconnect => Some (snd (reconnect w))
  | Call_cleanup => Some (snd (cleanup w))
  | Call_listen => Some (snd (listen w))
  | Call_put item => Some (snd (put env item w))
  | Call_write hs sends => Some (snd (write env hs sends w))
  | Call_read accept_ok recvs => option_map snd (read env accept_ok recvs w)
  | Timer_fires h fd r => Some (snd (fire h fd r w))
  end.

(** A world right after construction: a fresh object and no timer pending.
    Nothing is said of the handles the timer service will hand out. *)
Definition initial (w : World) : Prop :=
  (exists h p sec bl cp, self w = __init__ h p sec bl cp) /\
  timers w = [].

Inductive reachable : World -> Prop :=
| reach_initial w : initial w -> reachable w
| reach_step w o w' : reachable w -> run_op o w = Some w' -> reachable w'.

End Runs.

Definition is_reconnect_timer (t : timer) : bool :=
  match t_callback t with
  | Cb_connect => true
  | Cb__connect _ => false
  end.

(** The reconnect timers that are outstanding. *)
Definition pending_reconnects (w : World) : list timer :=
  filter is_reconnect_timer (timers w).

(** At most one reconnect timer is pending, the object holds its handle, and
    the handle tests true; the delay stays between its initial value and the
    cap. *)
Record inv (w : World) : Prop := {
  inv_delay : 500 <= _reconnect_delay (self w) <= 10000;
  inv_next : 0 < next_timeout_id w;
  inv_pending :
    match pending_reconnects w with
    | [] => True
    | [t] => _reconnect_timeout (self w) = Some (t_id t) /\ t_id t <> 0
    | _ => False
    end
}.

(** The delay stays between its initial value and the cap. *)
Definition bounded_delay (w : World) : Prop :=
  500 <= _reconnect_delay (self w) <= 10000.

(** *** Backoff *)

(** The spec's [round(1.5 × d)]: the nearest integer, a tie going to the even
    neighbour as Python 3 rounds (away from zero, as Python 2 rounds, gives the
    same value at the delays below). *)
Definition spec_round_1_5 (d : Z) : Z :=
  let n := 3 * d in
  if Z.even n then n / 2
  else if Z.even (n / 2) then n / 2 else n / 2 + 1.

(** The delay the code's policy moves to from delay [d]. *)
Definition backoff (d : Z) : Z := Z.min 10000 (int_1_5 d).

Definition is_giving_up (e : effect) : bool :=
  match e with
  | Error_message Giving_up => true
  | _ => false
  end.

(** How often the terminal notice has been shown. *)
Definition giving_up_count (w : World) : nat :=
  List.length (filter is_giving_up (effects w)).

(** One retry: [reconnect] is called, and if it armed a timer the timer comes
    due and runs [connect], whose OS-level connect succeeds. *)
Definition retry_round (env : Collaborators) (fd : Z) (w : World) : World :=
  let w1 := snd (reconnect w) in
  match _reconnect_timeout (self w1) with
  | Some h => snd (fire env h fd Connect_ok w1)
  | None => w1
  end.

(** *** Framing *)

(** A buffer cut at every separator: the complete lines and what follows the
    last separator. *)
Fixpoint split_lines (buf : bytes) : list bytes * bytes :=
  match buf with
  | [] => ([], [])
  | x :: rest =>
      let (ls, partial) := split_lines rest in
      if Byte.eqb x NEWLINE then ([] :: ls, partial)
      else match ls with
           | [] => ([], x :: partial)
           | l :: ls' => ((x :: l) :: ls', partial)
           end
  end.

(** Lines each followed by the separator, then a partial line. *)
Definition join_lines (ls : list bytes) (partial : bytes) : bytes :=
  List.concat (map (fun l => l ++ [NEWLINE]) ls) ++ partial.

Definition no_newline (b : bytes) : Prop := ~ In NEWLINE b.

Definition is_emit_data (e : effect) : bool :=
  match e with
  | Emit_data _ _ => true
  | _ => false
  end.

(** The [data] events dispatched so far, oldest first. *)
Definition data_events (w : World) : list effect :=
  filter is_emit_data (effects w).

(** The event a line is due: one for a line that parses to a record, none
    for a line that does not parse. *)
Definition line_event (env : Collaborators) (l : bytes) : list effect :=
  match json_loads env (decode_ignore env l) with
  | Some (JObj kvs) => [Emit_data (dict_get "name" kvs) (JObj kvs)]
  | _ => []
  end.

(** A line that parses to something other than an object. *)
Definition parses_to_non_object (env : Collaborators) (l : bytes) : bool :=
  match json_loads env (decode_ignore env l) with
  | Some (JObj _) => false
  | Some _ => true
  | None => false
  end.

(** *** Outbound queue *)

(** The frame [put] queues for an item. *)
Definition frame (env : Collaborators) (item : json) : string :=
  (json_dumps env item ++ LF)%string.

Definition is_message (item : json) : Prop :=
  exists kvs, item = JObj kvs /\ kvs <> [].

(** [put] called on each item in turn. *)
Fixpoint puts (env : Collaborators) (items : list json) (w : World) : World :=
  match items with
  | [] => w
  | item :: rest => puts env rest (snd (put env item w))
  end.

(** The bytes handed to [sendall] so far, oldest first. *)
Definition sent (w : World) : list bytes :=
  flat_map (fun e => match e with Sendall _ b => [b] | _ => [] end) (effects w).

Definition always_sent : nat -> bool := fun _ => true.

(** *** Empty reads *)

(** [n] read callbacks in a row, each finding nothing to read. *)
Fixpoint empty_reads_run (env : Collaborators) (n : nat) (w : World) : option World :=
  match n with
  | O => Some w
  | S n' =>
      match empty_reads_run env n' w with
      | Some w1 => option_map snd (read env true [] w1)
      | None => None
      end
  end.

(** A connection that [connect] has just established. *)
Definition established (env : Collaborators) (sec : bool) : World :=
  snd (connect env 7 Connect_ok (demo_world sec)).

(** *** Worlds the statements below are tried on *)

(** A fresh plaintext connection after two retries: the delay stands at 1125. *)
Definition world_after_two_retries : World :=
  Nat.iter 2 (retry_round demo_env 7) (demo_world false).

(** A fresh plaintext connection after twenty retries. *)
Definition world_after_twenty_retries : World :=
  Nat.iter 20 (retry_round demo_env 7) (demo_world false).

(** A fresh plaintext connection whose first [reconnect] has armed its timer. *)
Definition world_waiting_to_reconnect : World :=
  snd (reconnect (demo_world false)).

(** A plaintext connection through one full cycle: established, one read
    that finds nothing, [reconnect], and the timer it armed coming due with an
    OS-level connect that succeeds. *)
Definition world_after_reconnect_cycle : option World :=
  match read demo_env true [] (established demo_env false) with
  | Some (_, w1) =>
      let w2 := snd (reconnect w1) in
      match _reconnect_timeout (self w2) with
      | Some h => Some (snd (fire demo_env h 8 Connect_ok w2))
      | None => None
      end
  | None => None
  end.

(** A fresh secure connection that was stopped. *)
Definition stopped_world : World := snd (stop (demo_world true)).

(** An established plaintext connection with one frame queued, stopped. *)
Definition stopped_world_with_frame : World :=
  snd (stop (snd (put demo_env ping (established demo_env false)))).

(** The bytes of [5], a newline, [{"name":"ping"}] and a newline. *)
Definition number_then_ping : bytes :=
  demo_encode ("5" ++ LF ++ ping_text ++ LF).

(** *** Proof vocabulary *)

(** What [inv] looks at. *)
Definition timing (w : World) : Z * option Z * list timer * Z :=
  (_reconnect_delay (self w), _reconnect_timeout (self w), timers w,
   next_timeout_id w).

(** A computation that leaves an observation [v] of the world as it found
    it, returning or raising. *)
Definition keeps {A B} (v : World -> B) (c : M A) : Prop :=
  forall w, v (snd (c w)) = v w.

(** A computation that leaves the timing state alone. *)
Definition frames {A} (c : M A) : Prop := keeps timing c.

(** The counters the backoff policy and the idle check run on. *)
Definition backoff_state (w : World) : Z * Z * Z :=
  (_reconnect_delay (self w), _retries (self w), _empty_reads (self w)).

(** An OS-level connect that succeeds at once. *)
Definition succeeds (r : connect_result) : Prop :=
  r = Connect_ok \/ r = Connect_isconn.

(** The timer service. *)
Definition clock (w : World) : list timer * Z :=
  (timers w, next_timeout_id w).

(** A computation that keeps the invariant, returning or raising. *)
Definition preserves {A} (c : M A) : Prop :=
  forall w, inv w -> inv (snd (c w)).

(** Nothing is scheduled to reconnect, and every pending handle is older than
    the next one the timer service hands out. *)
Definition quiet (w : World) : Prop :=
  _reconnect_timeout (self w) = None /\
  Forall (fun t => t_id t < next_timeout_id w) (timers w).

(** What a [reconnect] that passes its guard makes of world [w]. *)
Record reconnected (w w' : World) : Prop := {
  rc_delay : _reconnect_delay (self w') = backoff (_reconnect_delay (self w));
  rc_retries : _retries (self w') = _retries (self w) - 1;
  rc_empty_reads : _empty_reads (self w') = _empty_reads (self w);
  rc_timeout :
    _reconnect_timeout (self w') =
      if _retries (self w) >? 0 then Some (next_timeout_id w)
      else _reconnect_timeout (self w);
  rc_timers :
    timers w' =
      timers w ++
        (if _retries (self w) >? 0 then
           [{| t_id := next_timeout_id w; t_callback := Cb_connect;
               t_delay := backoff (_reconnect_delay (self w)) |}]
         else []);
  rc_next :
    next_timeout_id w' =
      if _retries (self w) >? 0 then next_timeout_id w + 1
      else next_timeout_id w;
  rc_effects :
    effects w' =
      effects w ++
        (if _retries (self w) =? 0 then [Error_message Giving_up] else []);
  rc_sock : _sock (self w') = None;
  rc_connected : connected (self w') = false;
  rc_buf : _buf (self w') = [];
  rc_joined : JOINED_WORKSPACE w' = false;
  rc_q : _q (self w') = _q (self w)
}.

(** *** Runs of several entries *)

(** A computation whose first and last worlds stand in relation [R], whether
    it returns or raises. *)
Definition relates {A} (R : World -> World -> Prop) (c : M A) : Prop :=
  forall w, R w (snd (c w)).

(** Entries one after another; [None] when one of them does not return. *)
Fixpoint run_ops (env : Collaborators) (os : list op) (w : World) : option World :=
  match os with
  | [] => Some w
  | o :: rest =>
      match run_op env o w with
      | Some w1 => run_ops env rest w1
      | None => None
      end
  end.

(** Where a string found in the queue during the run [os] from world [w]
    can come from: it was in the queue of [w], or it is the frame [put] makes
    of a message handed to it in the run. *)
Definition queued_in (env : Collaborators) (os : list op) (w : World)
    (f : string) : Prop :=
  In f (_q (self w)) \/
  exists item, In (Call_put item) os /\ is_message item /\ f = frame env item.

(** The queue holds strings of [P] only, and everything handed to [sendall]
    since world [w0] was the encoding of one of them. *)
Definition wire (env : Collaborators) (P : string -> Prop) (w0 w : World)
    : Prop :=
  Forall P (_q (self w)) /\
  exists fs, sent w = sent w0 ++ map (utf8_encode env) fs /\ Forall P fs.

(** The object never listens, and while it is marked established it holds a
    socket. *)
Definition open_when_connected (w : World) : Prop :=
  _listener (self w) = false /\
  (connected (self w) = true -> _sock (self w) <> None).

(** A computation that keeps property [P] of the world, returning or
    raising. *)
Definition maintains {A} (P : World -> Prop) (c : M A) : Prop :=
  relates (fun w w' => P w -> P w') c.

(** The TLS handshake is not, or no longer, pending. *)
Definition handshake_done (w : World) : Prop :=
  _needs_handshake (self w) = false.

(** Answers of the socket that end the [recv] loop of [read]: none left, an
    empty read, or an error. *)
Definition ends_read (rest : list recv_result) : Prop :=
  match rest with
  | [] => True
  | Recv [] :: _ => True
  | Recv_error :: _ => True
  | Recv (_ :: _) :: _ => False
  end.

(** *** More collaborators and worlds to try statements on *)

(** The collaborators of [demo_env] in a runtime without the [ssl] module. *)
Definition no_ssl_env : Collaborators :=
  {| decode_ignore := demo_decode;
     json_loads := demo_loads;
     json_dumps := demo_dumps;
     utf8_encode := demo_encode;
     data_subscriber_raises := fun _ _ => false;
     connect_subscriber_raises := false;
     ssl := false;
     DEFAULT_PORT := 3448;
     TICK_TIME := 1 |}.

Definition room_info : json := JObj [("name"%string, JStr "room_info")].

(** [{"name":"room_info"}] *)
Definition room_info_text : string :=
  ("{" ++ quoted "name" ++ ":" ++ quoted "room_info" ++ "}")%string.

(** Collaborators whose [data] subscriber raises on every event. *)
Definition raising_env : Collaborators :=
  {| decode_ignore := demo_decode;
     json_loads :=
       fun s => if String.eqb s room_info_text then Some room_info
                else demo_loads s;
     json_dumps := demo_dumps;
     utf8_encode := demo_encode;
     data_subscriber_raises := fun _ _ => true;
     connect_subscriber_raises := false;
     ssl := true;
     DEFAULT_PORT := 3448;
     TICK_TIME := 1 |}.

(** Connect, queue two messages, and let the write callback send them. *)
Definition send_two : list op :=
  [Call_connect 7 Connect_ok; Call_put patch; Call_put ping;
   Call_write Handshake_done always_sent].

(** Lose the connection and get it back. *)
Definition lose_and_regain : list op :=
  [Call_reconnect; Timer_fires 1 8 Connect_ok].

(** The world a run ends in ([w] itself if the run does not return). *)
Definition world_after (env : Collaborators) (os : list op) (w : World) : World :=
  match run_ops env os w with
  | Some w' => w'
  | None => w
  end.

(** An oddly cut stream: a malformed line, a [ping], and the start of a
    record, arriving as a first chunk that ends inside the [ping]. *)
Definition first_chunk : bytes :=
  demo_encode ("oops" ++ LF ++ "{" ++ quoted "name").

Definition second_chunk : bytes :=
  demo_encode (":" ++ quoted "ping" ++ "}" ++ LF ++ "{" ++ quoted "name").

(** A fresh plaintext connection on a timer service whose first handle is 0,
    after its first [reconnect]. *)
Definition world_holding_handle_0 : World :=
  snd (reconnect (new_world (demo_object false) 0)).

(** Three messages queued on an established plaintext connection. *)
Definition three_queued : World :=
  puts demo_env [patch; ping; room_info] (established demo_env false).

(** A peer that takes every [sendall] of a write callback but the second. *)
Definition second_send_fails : nat -> bool := fun k => negb (Nat.eqb k 1).

Definition world_after_failed_write : World :=
  snd (write demo_env Handshake_done second_send_fails three_queued).

Definition world_after_next_write : World :=
  snd (write demo_env Handshake_done always_sent world_after_failed_write).

(** A fresh plaintext connection whose inbound buffer holds the two chunks:
    two complete lines and the start of a third. *)
Definition world_with_buffered_lines : World :=
  with_self (set__buf (first_chunk ++ second_chunk) (demo_object false))
    (demo_world false).

(** * Properties *)

Section Properties.

Context (env : Collaborators).

Ltac run :=
  unfold reconnect, stop, cancel_reconnect_timeout, cleanup, _reconnect,
    set_timeout, cancel_timeout,
    perform, assign, get_self, try_except, bind, ret, raise in *;
  cbn in *.

(** ** The guard of [reconnect] *)

Lemma reconnect_pending (w : World) :
  handle_truthy (_reconnect_timeout (self w)) = true ->
  reconnect w = (Val tt, w).
Proof. intros H. run. rewrite H. reflexivity. Qed.

(** ** What every entry maintains *)

Section Relates.

Variable R : World -> World -> Prop.
Hypothesis R_refl : forall w, R w w.
Hypothesis R_trans : forall a b c, R a b -> R b c -> R a c.

Lemma relates_ret {A} (a : A) : relates R (ret a).
Proof. intros w. apply R_refl. Qed.

Lemma relates_raise {A} (e : exn) : relates R (@raise A e).
Proof. intros w. apply R_refl. Qed.

Lemma relates_get_self : relates R get_self.
Proof. intros w. apply R_refl. Qed.

Lemma relates_bind {A B} (c : M A) (k : A -> M B) :
  relates R c -> (forall a, relates R (k a)) -> relates R (bind c k).
Proof.
  intros Hc Hk w. unfold bind. specialize (Hc w).
  destruct (c w) as [[a|e] w1]; cbn in *.
  - eapply R_trans; [exact Hc | apply Hk].
  - exact Hc.
Qed.

Lemma relates_try_except {A} (c : M A) (h : exn -> M A) :
  relates R c -> (forall e, relates R (h e)) -> relates R (try_except c h).
Proof.
  intros Hc Hh w. unfold try_except. specialize (Hc w).
  destruct (c w) as [[a|e] w1]; cbn in *.
  - exact Hc.
  - eapply R_trans; [exact Hc | apply Hh].
Qed.

(** What the entries and the loops need of the methods they call. *)
Hypothesis G_handle_line : forall b a, relates R (handle_line env b a).
Hypothesis G_set_buf :
  forall w v, R w (with_self (set__buf v (self w)) w).
Hypothesis G_set_empty_reads :
  forall w v, R w (with_self (set__empty_reads v (self w)) w).
Hypothesis G_drop_timers :
  forall w f, R w (with_timers (filter f (timers w)) w).
Hypothesis G_reconnect : relates R reconnect.
Hypothesis G_accept : forall ok, relates R (accept ok).
Hypothesis G_connect : forall fd r, relates R (connect env fd r).
Hypothesis G__connect : forall n r, relates R (_connect env n r).
Hypothesis G_stop : relates R stop.
Hypothesis G_cleanup : relates R cleanup.
Hypothesis G_listen : relates R listen.
Hypothesis G_put : forall item, relates R (put env item).
Hypothesis G_write : forall hs sends, relates R (write env hs sends).

Lemma relates__handle_loop (fuel : nat) (w : World) (r : Res unit * World) :
  _handle_loop env fuel w = Some r -> R w (snd r).
Proof.
  revert w. induction fuel as [|fuel IH]; intros w H; cbn in H.
  - discriminate.
  - destruct (partition NEWLINE (_buf (self w))) as [[before found] after].
    destruct found.
    + pose proof (G_handle_line before after w) as H1.
      destruct (handle_line env before after w) as [[u|e] w1]; cbn in *.
      * eapply R_trans; [exact H1 | apply IH; exact H].
      * injection H as <-. exact H1.
    + injection H as <-. apply R_refl.
Qed.

Lemma relates__handle (data : bytes) (w : World) (r : Res unit * World) :
  _handle env data w = Some r -> R w (snd r).
Proof.
  unfold _handle. intros H. eapply R_trans; [apply G_set_buf|].
  eapply relates__handle_loop. exact H.
Qed.

Lemma relates_empty_read : relates R (empty_read env).
Proof.
  unfold empty_read. apply relates_bind.
  - intros w. apply G_set_empty_reads.
  - intros _. apply relates_bind; [apply relates_get_self|]. intros o.
    destruct (TICK_TIME env =? 0); [apply relates_raise|].
    destruct (_empty_reads o >? 2000 / TICK_TIME env);
      [apply G_reconnect | apply relates_ret].
Qed.

Lemma relates_read (accept_ok : bool) (recvs : list recv_result) (w : World)
    (r : Res unit * World) :
  read env accept_ok recvs w = Some r -> R w (snd r).
Proof.
  unfold read. intros H.
  destruct (_listen (self w)) as [l|]; [|injection H as <-; apply R_refl].
  assert (P : relates R (if l then accept accept_ok else ret tt)).
  { destruct l; [apply G_accept | apply relates_ret]. }
  specialize (P w).
  destruct ((if l then accept accept_ok else ret tt) w) as [[u|e] w1];
    cbn in P; [|injection H as <-; exact P].
  eapply R_trans; [exact P|].
  destruct (_sock (self w1)).
  - destruct (recv_all recvs []) eqn:E.
    + injection H as <-. apply relates_empty_read.
    + eapply R_trans; [apply G_set_empty_reads|].
      eapply relates__handle. exact H.
  - injection H as <-. apply G_reconnect.
Qed.

Lemma relates_fire (h fd : Z) (r : connect_result) : relates R (fire env h fd r).
Proof.
  intros w. unfold fire.
  destruct (find (fun t => t_id t =? h) (timers w)) as [t|]; [|apply R_refl].
  eapply R_trans; [apply G_drop_timers|].
  destruct (t_callback t); [apply G_connect | apply G__connect].
Qed.

Lemma relates_run_op (o : op) (w w' : World) :
  run_op env o w = Some w' -> R w w'.
Proof.
  intros H. destruct o; cbn in H;
    try (injection H as <-;
         first [ apply G_connect | apply G_stop | apply G_reconnect
               | apply G_cleanup | apply G_listen | apply G_put
               | apply G_write | apply relates_fire ]).
  destruct (read env accept_ok recvs w) as [r|] eqn:E; [|discriminate].
  injection H as <-. eapply relates_read. exact E.
Qed.

Lemma relates_run_ops (os : list op) (w w' : World) :
  run_ops env os w = Some w' -> R w w'.
Proof.
  revert w. induction os as [|o os IH]; intros w H; cbn in H.
  - injection H as <-. apply R_refl.
  - destruct (run_op env o w) as [w1|] eqn:E; [|discriminate].
    eapply R_trans; [eapply relates_run_op; exact E | apply IH; exact H].
Qed.

End Relates.


Section Maintains.

Variable P : World -> Prop.

Lemma maintains_ret {A} (a : A) : maintains P (ret a).
Proof. intros w H. exact H. Qed.

Lemma maintains_raise {A} (e : exn) : maintains P (@raise A e).
Proof. intros w H. exact H. Qed.

Lemma maintains_get_self : maintains P get_self.
Proof. intros w H. exact H. Qed.

Lemma maintains_bind {A B} (c : M A) (k : A -> M B) :
  maintains P c -> (forall a, maintains P (k a)) -> maintains P (bind c k).
Proof. apply relates_bind. auto. Qed.

Lemma maintains_try_except {A} (c : M A) (h : exn -> M A) :
  maintains P c -> (forall e, maintains P (h e)) ->
  maintains P (try_except c h).
Proof. apply relates_try_except. auto. Qed.

End Maintains.

(** Splits a computation into its steps; [leaf] closes a step that changes
    the world. *)
Ltac maintain_step leaf :=
  cbv beta iota;
  lazymatch goal with
  | |- maintains _ (ret _) => apply maintains_ret
  | |- maintains _ (raise _) => apply maintains_raise
  | |- maintains _ get_self => apply maintains_get_self
  | |- maintains _ (bind _ _) => apply maintains_bind; [| intros ?]
  | |- maintains _ (try_except _ _) => apply maintains_try_except; [| intros ?]
  | |- maintains _ (if ?b then _ else _) => destruct b
  | |- maintains _ (match ?x with _ => _ end) => destruct x
  | |- maintains _ _ => solve [leaf]
  end.

Ltac maintain leaf := repeat (maintain_step leaf).

(** ** The invariant *)

Lemma inv_timing (w w' : World) : timing w' = timing w -> inv w -> inv w'.
Proof.
  unfold timing. intros E [Hd Hn Hp]. injection E as E1 E2 E3 E4.
  constructor.
  - rewrite E1. exact Hd.
  - rewrite E4. exact Hn.
  - unfold pending_reconnects in *. rewrite E3, E2. exact Hp.
Qed.

Lemma frames_preserves {A} (c : M A) : frames c -> preserves c.
Proof. intros F w I. eapply inv_timing; [apply F | exact I]. Qed.

Lemma frames_ret {A} (a : A) : frames (ret a).
Proof. intros w. reflexivity. Qed.

Lemma frames_raise {A} (e : exn) : frames (@raise A e).
Proof. intros w. reflexivity. Qed.

Lemma frames_perform (e : effect) : frames (perform e).
Proof. intros w. reflexivity. Qed.

Lemma frames_get_self : frames get_self.
Proof. intros w. reflexivity. Qed.

Lemma frames_assign (f : FlooProtocol -> FlooProtocol) :
  (forall o, _reconnect_delay (f o) = _reconnect_delay o /\
             _reconnect_timeout (f o) = _reconnect_timeout o) ->
  frames (assign f).
Proof.
  intros H w. unfold timing, assign. cbn.
  destruct (H (self w)) as [-> ->]. reflexivity.
Qed.

Lemma frames_bind {A B} (c : M A) (k : A -> M B) :
  frames c -> (forall a, frames (k a)) -> frames (bind c k).
Proof.
  intros Fc Fk w. unfold bind. specialize (Fc w).
  destruct (c w) as [[a|e] w1]; cbn in *.
  - rewrite Fk. exact Fc.
  - exact Fc.
Qed.

Lemma frames_try_except {A} (c : M A) (h : exn -> M A) :
  frames c -> (forall e, frames (h e)) -> frames (try_except c h).
Proof.
  intros Fc Fh w. unfold try_except. specialize (Fc w).
  destruct (c w) as [[a|e] w1]; cbn in *.
  - exact Fc.
  - rewrite Fh. exact Fc.
Qed.

Lemma preserves_bind {A B} (c : M A) (k : A -> M B) :
  preserves c -> (forall a, preserves (k a)) -> preserves (bind c k).
Proof.
  intros Pc Pk w I. unfold bind. specialize (Pc w I).
  destruct (c w) as [[a|e] w1]; cbn in *.
  - apply Pk. exact Pc.
  - exact Pc.
Qed.

Lemma preserves_try_except {A} (c : M A) (h : exn -> M A) :
  preserves c -> (forall e, preserves (h e)) -> preserves (try_except c h).
Proof.
  intros Pc Ph w I. unfold try_except. specialize (Pc w I).
  destruct (c w) as [[a|e] w1]; cbn in *.
  - exact Pc.
  - apply Ph. exact Pc.
Qed.

Ltac frame_step :=
  cbv beta;
  lazymatch goal with
  | |- frames (ret _) => apply frames_ret
  | |- frames (raise _) => apply frames_raise
  | |- frames (perform _) => apply frames_perform
  | |- frames get_self => apply frames_get_self
  | |- frames (assign _) => apply frames_assign; intros ?; split; reflexivity
  | |- frames cleanup => intros ?; reflexivity
  | |- frames (bind _ _) => apply frames_bind; [| intros ?]
  | |- frames (try_except _ _) => apply frames_try_except; [| intros ?]
  | |- frames (if ?b then _ else _) => destruct b
  | |- frames (match ?x with _ => _ end) => destruct x
  end.

Ltac frame := repeat frame_step.

Lemma frames_cleanup : frames cleanup.
Proof. intros w. reflexivity. Qed.

Lemma frames_listen : frames listen.
Proof. unfold listen. frame. Qed.

Lemma frames_emit_data (name data : json) : frames (emit_data env name data).
Proof. unfold emit_data. frame. Qed.

Lemma frames_debug_got_data (name : json) : frames (debug_got_data name).
Proof. unfold debug_got_data. frame. Qed.

Lemma frames_get_name (data : json) : frames (get_name data).
Proof. unfold get_name. frame. Qed.

Lemma frames_do_handshake (r : handshake_result) : frames (do_handshake r).
Proof. unfold do_handshake. frame. Qed.

Lemma frames_sendall (b : bytes) (ok : bool) : frames (sendall b ok).
Proof. unfold sendall. frame. Qed.

Lemma frames_accept (ok : bool) : frames (accept ok).
Proof. unfold accept. frame. Qed.

Lemma frames_put (item : json) : frames (put env item).
Proof. unfold put. frame. Qed.

Lemma frames_drain (q : list string) (sends : nat -> bool) (k : nat) :
  frames (drain env q sends k).
Proof.
  revert k. induction q as [|item rest IH]; intros k; cbn.
  - frame.
  - frame. apply frames_sendall. apply IH.
Qed.


Lemma filter_swap {A} (f g : A -> bool) (l : list A) :
  filter f (filter g l) = filter g (filter f l).
Proof.
  induction l as [|x l IH]; cbn; [reflexivity|].
  destruct (g x) eqn:G, (f x) eqn:F; cbn; rewrite ?G, ?F, IH; reflexivity.
Qed.

Lemma int_1_5_floor (d : Z) : 0 <= d -> int_1_5 d = 3 * d / 2.
Proof. intros H. unfold int_1_5. apply Z.quot_div_nonneg; lia. Qed.

Lemma backoff_bounds (d : Z) :
  0 <= d <= 10000 -> d <= backoff d <= 10000.
Proof.
  intros H. unfold backoff. rewrite int_1_5_floor by lia.
  assert (d <= 3 * d / 2) by (apply Z.div_le_lower_bound; lia). lia.
Qed.

Lemma inv_handle_falsy (w : World) :
  inv w -> handle_truthy (_reconnect_timeout (self w)) = false ->
  pending_reconnects w = [].
Proof.
  intros [_ _ Hp] F. destruct (pending_reconnects w) as [|t [|t' l]]; auto.
  - destruct Hp as [E N]. rewrite E in F. cbn in F.
    apply negb_false_iff, Z.eqb_eq in F. contradiction.
  - contradiction.
Qed.

Lemma preserves_reconnect : preserves reconnect.
Proof.
  intros w I. destruct (handle_truthy (_reconnect_timeout (self w))) eqn:T.
  - rewrite reconnect_pending by exact T. exact I.
  - pose proof (inv_handle_falsy I T) as P. destruct I as [Hd Hn _].
    pose proof (backoff_bounds (d := _reconnect_delay (self w))) as B.
    unfold backoff in B. unfold pending_reconnects in P.
    run. rewrite T.
    destruct (_retries (self w) >? 0); [|destruct (_retries (self w) =? 0)];
      constructor; cbn; try lia;
      unfold pending_reconnects; cbn; rewrite ?filter_app, ?P; cbn; auto.
    split; [reflexivity | lia].
Qed.

Lemma preserves_cancel_reconnect_timeout : preserves cancel_reconnect_timeout.
Proof.
  intros w [Hd Hn Hp]. run. unfold pending_reconnects in *.
  assert (P : filter is_reconnect_timer
                (match _reconnect_timeout (self w) with
                 | Some h => filter (fun t => negb (t_id t =? h)) (timers w)
                 | None => timers w
                 end) = []).
  { destruct (_reconnect_timeout (self w)) as [h|] eqn:E.
    - rewrite filter_swap.
      destruct (filter is_reconnect_timer (timers w)) as [|t [|t' l]];
        [reflexivity | | contradiction].
      destruct Hp as [Ht _]. injection Ht as ->. cbn.
      rewrite Z.eqb_refl. reflexivity.
    - destruct (filter is_reconnect_timer (timers w)) as [|t [|t' l]];
        [reflexivity | | contradiction].
      destruct Hp as [Ht _]. discriminate. }
  destruct (_reconnect_timeout (self w)); cbn;
    (constructor; cbn; auto; unfold pending_reconnects; cbn; rewrite P; auto).
Qed.

Lemma preserves_set_timeout__connect (attempts delay : Z) :
  preserves (set_timeout (Cb__connect attempts) delay).
Proof.
  intros w [Hd Hn Hp]. run. constructor; cbn; auto; try lia.
  unfold pending_reconnects in *. cbn. rewrite filter_app. cbn.
  rewrite app_nil_r. exact Hp.
Qed.

Ltac pres_step :=
  cbv beta;
  lazymatch goal with
  | |- preserves (bind _ _) => apply preserves_bind; [| intros ?]
  | |- preserves (try_except _ _) => apply preserves_try_except; [| intros ?]
  | |- preserves reconnect => apply preserves_reconnect
  | |- preserves _reconnect => apply preserves_reconnect
  | |- preserves cancel_reconnect_timeout =>
      apply preserves_cancel_reconnect_timeout
  | |- preserves (set_timeout (Cb__connect _) _) =>
      apply preserves_set_timeout__connect
  | |- preserves (if ?b then _ else _) => destruct b
  | |- preserves (match ?x with _ => _ end) => destruct x
  | |- preserves (get_name _) => apply frames_preserves, frames_get_name
  | |- preserves (emit_data _ _ _) => apply frames_preserves, frames_emit_data
  | |- preserves (debug_got_data _) =>
      apply frames_preserves, frames_debug_got_data
  | |- preserves (do_handshake _) => apply frames_preserves, frames_do_handshake
  | |- preserves (drain _ _ _ _) => apply frames_preserves, frames_drain
  | |- preserves (accept _) => apply frames_preserves, frames_accept
  | |- preserves _ => solve [apply frames_preserves; frame]
  end.

Ltac pres := repeat pres_step.

Lemma preserves_stop : preserves stop.
Proof. unfold stop. pres. Qed.

Lemma preserves__connect (attempts : Z) (r : connect_result) :
  preserves (_connect env attempts r).
Proof. unfold _connect. pres. Qed.

Lemma preserves_connect (fd : Z) (r : connect_result) :
  preserves (connect env fd r).
Proof. unfold connect. pres. apply preserves__connect. Qed.

Lemma preserves_handle_line (before after : bytes) :
  preserves (handle_line env before after).
Proof.
  unfold handle_line. pres. apply preserves_stop.
Qed.

Lemma inv__handle_loop (fuel : nat) (w : World) (r : Res unit * World) :
  inv w -> _handle_loop env fuel w = Some r -> inv (snd r).
Proof.
  revert w. induction fuel as [|fuel IH]; intros w I H; cbn in H.
  - discriminate.
  - destruct (partition NEWLINE (_buf (self w))) as [[before found] after].
    destruct found.
    + pose proof (preserves_handle_line before after I) as I1.
      destruct (handle_line env before after w) as [[u|e] w1]; cbn in *.
      * eapply IH; eauto.
      * injection H as <-. exact I1.
    + injection H as <-. exact I.
Qed.

Lemma inv__handle (data : bytes) (w : World) (r : Res unit * World) :
  inv w -> _handle env data w = Some r -> inv (snd r).
Proof.
  unfold _handle. intros I H. eapply inv__handle_loop; [|exact H].
  eapply inv_timing; [|exact I]. reflexivity.
Qed.

Lemma preserves_write (hs : handshake_result) (sends : nat -> bool) :
  preserves (write env hs sends).
Proof.
  unfold write. pres.
Qed.

Lemma preserves_empty_read : preserves (empty_read env).
Proof. unfold empty_read. pres. Qed.

Lemma inv_read (accept_ok : bool) (recvs : list recv_result) (w : World)
    (r : Res unit * World) :
  inv w -> read env accept_ok recvs w = Some r -> inv (snd r).
Proof.
  unfold read. intros I H.
  destruct (_listen (self w)) as [l|]; [|injection H as <-; exact I].
  assert (P : preserves (if l then accept accept_ok else ret tt)).
  { pres. }
  specialize (P w I).
  destruct ((if l then accept accept_ok else ret tt) w) as [[u|e] w1];
    cbn in P; [|injection H as <-; exact P].
  destruct (_sock (self w1)).
  - destruct (recv_all recvs []) eqn:R.
    + injection H as <-. apply preserves_empty_read. exact P.
    + eapply inv__handle; [|exact H].
      eapply inv_timing; [|exact P]. reflexivity.
  - injection H as <-. apply preserves_reconnect. exact P.
Qed.

Lemma inv_filter_timers (f : timer -> bool) (w : World) :
  inv w -> inv (with_timers (filter f (timers w)) w).
Proof.
  intros [Hd Hn Hp]. constructor; cbn; auto.
  unfold pending_reconnects in *. cbn. rewrite filter_swap.
  destruct (filter is_reconnect_timer (timers w)) as [|t [|t' l]];
    [exact I | | contradiction].
  cbn. destruct (f t); [exact Hp | exact I].
Qed.

Lemma preserves_fire (h fd : Z) (r : connect_result) :
  preserves (fire env h fd r).
Proof.
  intros w I. unfold fire.
  destruct (find (fun t => t_id t =? h) (timers w)) as [t|]; [|exact I].
  pose proof (inv_filter_timers (fun t => negb (t_id t =? h)) I) as I1.
  destruct (t_callback t).
  - apply preserves_connect. exact I1.
  - apply preserves__connect. exact I1.
Qed.

Lemma initial_inv (w : World) :
  initial w -> 0 < next_timeout_id w -> inv w.
Proof.
  intros [(h & p & sec & bl & cp & E) T] N. constructor.
  - rewrite E. cbn. unfold INITIAL_RECONNECT_DELAY. lia.
  - exact N.
  - unfold pending_reconnects. rewrite T. exact I.
Qed.

Lemma run_op_inv (o : op) (w w' : World) :
  inv w -> run_op env o w = Some w' -> inv w'.
Proof.
  intros I H. destruct o; cbn in H.
  - injection H as <-. apply preserves_connect. exact I.
  - injection H as <-. apply preserves_stop. exact I.
  - injection H as <-. apply preserves_reconnect. exact I.
  - injection H as <-. eapply inv_timing; [|exact I]. reflexivity.
  - injection H as <-. apply (frames_preserves frames_listen). exact I.
  - injection H as <-. apply (frames_preserves (frames_put item)). exact I.
  - injection H as <-. apply preserves_write. exact I.
  - destruct (read env accept_ok recvs w) as [r|] eqn:R; [|discriminate].
    injection H as <-. eapply inv_read; eauto.
  - injection H as <-. apply preserves_fire. exact I.
Qed.

Lemma run_ops_inv (os : list op) (w w' : World) :
  inv w -> run_ops env os w = Some w' -> inv w'.
Proof.
  revert w. induction os as [|o os IH]; intros w I H; cbn in H.
  - injection H as <-. exact I.
  - destruct (run_op env o w) as [w1|] eqn:E; [|discriminate].
    eapply IH; [|exact H]. eapply run_op_inv; eauto.
Qed.

(** *** The delay, whatever the handles *)

Ltac delay_leaf :=
  let w := fresh "w" in
  let H := fresh "H" in
  intros w H; unfold bounded_delay, cancel_timeout, set_timeout in *; cbn;
  try match goal with |- context [match ?h with Some _ => _ | None => _ end] =>
        destruct h end;
  cbn;
  first [ exact H
        | pose proof (@backoff_bounds (_reconnect_delay (self w))) as B;
          unfold backoff in B; lia ].

Lemma maintains_delay_reconnect : maintains bounded_delay reconnect.
Proof. unfold reconnect. maintain delay_leaf. Qed.

Lemma maintains_delay_stop : maintains bounded_delay stop.
Proof. unfold stop, cancel_reconnect_timeout. maintain delay_leaf. Qed.

Lemma maintains_delay_handle_line (before after : bytes) :
  maintains bounded_delay (handle_line env before after).
Proof.
  unfold handle_line, get_name, emit_data, debug_got_data.
  maintain delay_leaf. apply maintains_delay_stop.
Qed.

Lemma maintains_delay__connect (attempts : Z) (r : connect_result) :
  maintains bounded_delay (_connect env attempts r).
Proof.
  unfold _connect, _reconnect. maintain delay_leaf.
  all: apply maintains_delay_reconnect.
Qed.

Lemma maintains_delay_connect (fd : Z) (r : connect_result) :
  maintains bounded_delay (connect env fd r).
Proof.
  unfold connect, cancel_reconnect_timeout. maintain delay_leaf.
  apply maintains_delay__connect.
Qed.

Lemma maintains_delay_drain (q : list string) (sends : nat -> bool) (k : nat) :
  maintains bounded_delay (drain env q sends k).
Proof.
  revert k. induction q as [|item rest IH]; intros k; cbn [drain].
  - apply maintains_ret.
  - unfold sendall. maintain delay_leaf. apply IH.
Qed.

Lemma maintains_delay_write (hs : handshake_result) (sends : nat -> bool) :
  maintains bounded_delay (write env hs sends).
Proof.
  unfold write, do_handshake. maintain delay_leaf.
  all: first [apply maintains_delay_reconnect | apply maintains_delay_drain].
Qed.

Lemma maintains_delay_put (item : json) : maintains bounded_delay (put env item).
Proof. unfold put. maintain delay_leaf. Qed.

Lemma maintains_delay_listen : maintains bounded_delay listen.
Proof. unfold listen. maintain delay_leaf. Qed.

Lemma maintains_delay_accept (ok : bool) : maintains bounded_delay (accept ok).
Proof. unfold accept. maintain delay_leaf. Qed.

Lemma run_op_bounded_delay (o : op) (w w' : World) :
  run_op env o w = Some w' -> bounded_delay w -> bounded_delay w'.
Proof.
  apply (@relates_run_op (fun w w' => bounded_delay w -> bounded_delay w')).
  - auto.
  - auto.
  - apply maintains_delay_handle_line.
  - intros w0 v H. exact H.
  - intros w0 v H. exact H.
  - intros w0 f H. exact H.
  - apply maintains_delay_reconnect.
  - apply maintains_delay_accept.
  - apply maintains_delay_connect.
  - apply maintains_delay__connect.
  - apply maintains_delay_stop.
  - delay_leaf.
  - apply maintains_delay_listen.
  - apply maintains_delay_put.
  - apply maintains_delay_write.
Qed.

Lemma reachable_bounded_delay (w : World) :
  reachable env w -> bounded_delay w.
Proof.
  induction 1 as [w H | w o w' _ IH H].
  - destruct H as [(h & p & sec & bl & cp & E) _].
    unfold bounded_delay. rewrite E. cbn. unfold INITIAL_RECONNECT_DELAY. lia.
  - eapply run_op_bounded_delay; eauto.
Qed.

(** ** Observations a computation keeps *)

Lemma keeps_ret {A B} (v : World -> B) (a : A) : keeps v (ret a).
Proof. intros w. reflexivity. Qed.

Lemma keeps_raise {A B} (v : World -> B) (e : exn) : keeps v (@raise A e).
Proof. intros w. reflexivity. Qed.

Lemma keeps_get_self {B} (v : World -> B) : keeps v get_self.
Proof. intros w. reflexivity. Qed.

Lemma keeps_assign {B} (v : World -> B) (f : FlooProtocol -> FlooProtocol) :
  (forall w, v (with_self (f (self w)) w) = v w) -> keeps v (assign f).
Proof. intros H w. apply H. Qed.

Lemma keeps_perform {B} (v : World -> B) (e : effect) :
  (forall w, v (with_effects (effects w ++ [e]) w) = v w) ->
  keeps v (perform e).
Proof. intros H w. apply H. Qed.

Lemma keeps_bind {A B C} (v : World -> C) (c : M A) (k : A -> M B) :
  keeps v c -> (forall a, keeps v (k a)) -> keeps v (bind c k).
Proof.
  intros Kc Kk w. unfold bind. specialize (Kc w).
  destruct (c w) as [[a|e] w1]; cbn in *.
  - rewrite Kk. exact Kc.
  - exact Kc.
Qed.

Lemma keeps_try_except {A B} (v : World -> B) (c : M A) (h : exn -> M A) :
  keeps v c -> (forall e, keeps v (h e)) -> keeps v (try_except c h).
Proof.
  intros Kc Kh w. unfold try_except. specialize (Kc w).
  destruct (c w) as [[a|e] w1]; cbn in *.
  - exact Kc.
  - rewrite Kh. exact Kc.
Qed.

Lemma keeps_cancel_reconnect_timeout {B} (v : World -> B) :
  (forall w ts, v (with_self (set__reconnect_timeout None (self w))
                     (with_timers ts w)) = v w) ->
  (forall w, v (with_self (set__reconnect_timeout None (self w)) w) = v w) ->
  keeps v cancel_reconnect_timeout.
Proof.
  intros H1 H2 w. run. destruct (_reconnect_timeout (self w)); cbn.
  - apply H1.
  - apply H2.
Qed.

Ltac observe :=
  intros ?; try reflexivity;
  unfold giving_up_count, data_events, sent; cbn;
  rewrite ?filter_app, ?flat_map_app; cbn; rewrite ?app_nil_r; reflexivity.

Ltac keep_step :=
  cbv beta iota;
  lazymatch goal with
  | |- keeps _ (ret _) => apply keeps_ret
  | |- keeps _ (raise _) => apply keeps_raise
  | |- keeps _ get_self => apply keeps_get_self
  | |- keeps _ (assign _) => apply keeps_assign; observe
  | |- keeps _ (perform _) => apply keeps_perform; observe
  | |- keeps _ cleanup => solve [observe]
  | |- keeps _ cancel_reconnect_timeout =>
      apply keeps_cancel_reconnect_timeout; [intros ?|]; observe
  | |- keeps _ (bind _ _) => apply keeps_bind; [| intros ?]
  | |- keeps _ (try_except _ _) => apply keeps_try_except; [| intros ?]
  | |- keeps _ (if ?b then _ else _) => destruct b
  | |- keeps _ (match ?x with _ => _ end) => destruct x
  end.

Ltac keep := repeat keep_step.


(** ** [connect] *)

Lemma connect_keeps_backoff_state (fd : Z) (r : connect_result) :
  succeeds r -> keeps backoff_state (connect env fd r).
Proof.
  intros [-> | ->]; unfold connect, _connect;
    change (0 >? 500) with false; keep.
Qed.

Lemma connect_keeps_giving_up_count (fd : Z) (r : connect_result) :
  succeeds r -> keeps giving_up_count (connect env fd r).
Proof.
  intros [-> | ->]; unfold connect, _connect;
    change (0 >? 500) with false; keep.
Qed.

Lemma keeps_after {A B C} (v : World -> C) (c : M A) (k : A -> M B) (w : World) :
  (forall a, keeps v (k a)) -> v (snd (bind c k w)) = v (snd (c w)).
Proof.
  intros K. unfold bind. destruct (c w) as [[a|e] w1]; cbn.
  - apply K.
  - reflexivity.
Qed.

Lemma connect_forgets_timer (fd : Z) (r : connect_result) (w : World) :
  succeeds r -> _reconnect_timeout (self (snd (connect env fd r w))) = None.
Proof.
  intros S. unfold connect.
  rewrite (keeps_after (v := fun w => _reconnect_timeout (self w))).
  - run. destruct (_reconnect_timeout (self w)); reflexivity.
  - intros _. destruct S as [-> | ->]; unfold _connect;
      change (0 >? 500) with false; keep.
Qed.

Lemma connect_clock (fd : Z) (r : connect_result) (w : World) :
  succeeds r ->
  clock (snd (connect env fd r w)) =
    (match _reconnect_timeout (self w) with
     | Some h => filter (fun t => negb (t_id t =? h)) (timers w)
     | None => timers w
     end, next_timeout_id w).
Proof.
  intros S. unfold connect. rewrite (keeps_after (v := clock)).
  - run. destruct (_reconnect_timeout (self w)); reflexivity.
  - intros _. destruct S as [-> | ->]; unfold _connect;
      change (0 >? 500) with false; keep.
Qed.

(** ** [reconnect] past its guard *)

Lemma reconnect_not_pending (w : World) :
  handle_truthy (_reconnect_timeout (self w)) = false ->
  fst (reconnect w) = Val tt /\ reconnected w (snd (reconnect w)).
Proof.
  intros T. unfold backoff. run. rewrite T.
  destruct (_retries (self w) >? 0) eqn:G;
    [assert (Z0 : (_retries (self w) =? 0) = false) by lia; rewrite ?Z0
    | destruct (_retries (self w) =? 0) eqn:Z0];
    (split; [reflexivity|]); constructor; cbn; unfold backoff;
    rewrite ?G, ?Z0, ?app_nil_r; reflexivity.
Qed.

(** ** Retry rounds *)

Lemma find_newest (l : list timer) (n : Z) (cb : callback) (d : Z) :
  Forall (fun t' => t_id t' < n) l ->
  let t := {| t_id := n; t_callback := cb; t_delay := d |} in
  find (fun t' => t_id t' =? n) (l ++ [t]) = Some t /\
  filter (fun t' => negb (t_id t' =? n)) (l ++ [t]) = l.
Proof.
  induction 1 as [|x l Hx _ [IH1 IH2]]; cbn.
  - rewrite Z.eqb_refl. auto.
  - assert (E : (t_id x =? n) = false) by (apply Z.eqb_neq; lia).
    rewrite E. cbn. cbn in IH2. rewrite IH2. auto.
Qed.

Lemma filter_older (l : list timer) (n : Z) :
  Forall (fun t => t_id t < n) l ->
  filter (fun t => negb (t_id t =? n)) l = l.
Proof.
  induction 1 as [|x l Hx _ IH]; cbn; [reflexivity|].
  assert (E : (t_id x =? n) = false) by (apply Z.eqb_neq; lia).
  rewrite E. cbn. rewrite IH. reflexivity.
Qed.

Lemma retry_round_spec (fd : Z) (w : World) :
  quiet w ->
  let w' := retry_round env fd w in
  quiet w' /\
  _retries (self w') = _retries (self w) - 1 /\
  _reconnect_delay (self w') = backoff (_reconnect_delay (self w)) /\
  giving_up_count w' =
    (giving_up_count w + (if (_retries (self w) =? 0)%Z then 1 else 0))%nat.
Proof.
  intros [Q1 Q2]. unfold retry_round.
  assert (T : handle_truthy (_reconnect_timeout (self w)) = false)
    by (rewrite Q1; reflexivity).
  destruct (reconnect_not_pending w T) as [_ R].
  set (w1 := snd (reconnect w)) in *.
  rewrite (rc_timeout R).
  destruct (_retries (self w) >? 0) eqn:G.
  - assert (Z0 : (_retries (self w) =? 0) = false) by lia. rewrite Z0.
    unfold fire. rewrite (rc_timers R), G.
    destruct (@find_newest (timers w) (next_timeout_id w) Cb_connect
                (backoff (_reconnect_delay (self w))) Q2) as [F1 F2].
    rewrite F1, F2. cbn [t_callback].
    set (w2 := with_timers (timers w) w1).
    assert (S : succeeds Connect_ok) by (left; reflexivity).
    pose proof (connect_keeps_backoff_state fd S w2) as KB.
    pose proof (connect_keeps_giving_up_count fd S w2) as KG.
    pose proof (connect_clock fd w2 S) as KC.
    pose proof (connect_forgets_timer fd w2 S) as KT.
    unfold backoff_state, clock in *.
    injection KB as KB1 KB2 KB3. injection KC as KC1 KC2.
    cbn in KC1, KC2.
    rewrite (rc_timeout R), G, filter_older in KC1 by exact Q2.
    rewrite (rc_next R), G in KC2.
    repeat split.
    + exact KT.
    + rewrite KC1, KC2. eapply Forall_impl; [|exact Q2]. cbn. intros; lia.
    + rewrite KB2. cbn. apply (rc_retries R).
    + rewrite KB1. cbn. apply (rc_delay R).
    + rewrite KG. unfold giving_up_count. cbn. rewrite (rc_effects R), Z0.
      rewrite app_nil_r. lia.
  - rewrite Q1. repeat split.
    + rewrite (rc_timeout R), G. exact Q1.
    + rewrite (rc_timers R), (rc_next R), G, app_nil_r. exact Q2.
    + apply (rc_retries R).
    + apply (rc_delay R).
    + unfold giving_up_count. rewrite (rc_effects R).
      destruct (_retries (self w) =? 0); rewrite ?app_nil_r;
        rewrite ?filter_app, ?length_app; cbn; lia.
Qed.

Lemma retry_rounds_spec (fd : Z) (k : nat) (w : World) :
  quiet w ->
  let wk := Nat.iter k (retry_round env fd) w in
  quiet wk /\
  _retries (self wk) = _retries (self w) - Z.of_nat k /\
  _reconnect_delay (self wk) = Nat.iter k backoff (_reconnect_delay (self w)) /\
  giving_up_count wk =
    (giving_up_count w +
     (if ((0 <=? _retries (self w)) && (_retries (self w) <? Z.of_nat k))%Z
      then 1 else 0))%nat.
Proof.
  intros Q. induction k as [|k IH]; cbv zeta in *.
  - cbn. repeat split; try apply Q; try lia.
    destruct (0 <=? _retries (self w)) eqn:A;
      destruct (_retries (self w) <? 0) eqn:B; cbn [andb]; lia.
  - rewrite !Nat.iter_succ. destruct IH as (Qk & Rk & Dk & Gk).
    destruct (retry_round_spec fd Qk) as (Q' & R' & D' & G').
    repeat split; try apply Q'.
    + rewrite R', Rk. lia.
    + rewrite D', Dk. reflexivity.
    + rewrite G', Gk, Rk, Nat2Z.inj_succ. unfold Z.succ.
      generalize (Nat2Z.is_nonneg k). generalize (Z.of_nat k). intros kz Hk.
      destruct (0 <=? _retries (self w)) eqn:A;
        destruct (_retries (self w) <? kz) eqn:B;
        destruct (_retries (self w) <? kz + 1) eqn:C;
        destruct (_retries (self w) - kz =? 0) eqn:D;
        cbn [andb]; lia.
Qed.

Lemma retry_round_timers (fd : Z) (w : World) :
  quiet w -> timers (retry_round env fd w) = timers w.
Proof.
  intros [Q1 Q2]. unfold retry_round.
  assert (T : handle_truthy (_reconnect_timeout (self w)) = false)
    by (rewrite Q1; reflexivity).
  destruct (reconnect_not_pending w T) as [_ R].
  set (w1 := snd (reconnect w)) in *.
  rewrite (rc_timeout R).
  destruct (_retries (self w) >? 0) eqn:G.
  - unfold fire. rewrite (rc_timers R), G.
    destruct (@find_newest (timers w) (next_timeout_id w) Cb_connect
                (backoff (_reconnect_delay (self w))) Q2) as [F1 F2].
    rewrite F1, F2. cbn [t_callback].
    set (w2 := with_timers (timers w) w1).
    assert (S : succeeds Connect_ok) by (left; reflexivity).
    pose proof (connect_clock fd w2 S) as KC.
    unfold clock in KC. injection KC as KC1 _. cbn in KC1.
    rewrite (rc_timeout R), G, filter_older in KC1 by exact Q2.
    exact KC1.
  - rewrite Q1, (rc_timers R), G, app_nil_r. reflexivity.
Qed.

Lemma retry_rounds_timers (fd : Z) (k : nat) (w : World) :
  quiet w -> timers (Nat.iter k (retry_round env fd) w) = timers w.
Proof.
  intros Q. induction k as [|k IH]; [reflexivity|].
  rewrite Nat.iter_succ, retry_round_timers, IH; [reflexivity|].
  apply (retry_rounds_spec fd k Q).
Qed.

Lemma initial_quiet (w : World) :
  initial w ->
  quiet w /\ _retries (self w) = 20 /\ _reconnect_delay (self w) = 500.
Proof.
  intros [(h & p & sec & bl & cp & E) T]. unfold quiet.
  rewrite E, T. cbn. auto.
Qed.

(** ** Teardown *)

(** C10: every [cleanup] resets the process-wide workspace-joined flag, on top
    of clearing the inbound buffer and the socket handle and marking the
    connection not established; so does every [stop], and every [reconnect]
    that passes its guard (one that does not leaves the flag alone). *)
Theorem cleanup_resets_joined_workspace (w : World) :
  (JOINED_WORKSPACE (snd (cleanup w)) = false /\
   _buf (self (snd (cleanup w))) = [] /\
   _sock (self (snd (cleanup w))) = None /\
   connected (self (snd (cleanup w))) = false) /\
  JOINED_WORKSPACE (snd (stop w)) = false /\
  JOINED_WORKSPACE (snd (reconnect w)) =
    (if handle_truthy (_reconnect_timeout (self w)) then JOINED_WORKSPACE w
     else false).
Proof.
  split; [cbn; auto|]. split.
  - run. destruct (_reconnect_timeout (self w)); reflexivity.
  - destruct (handle_truthy (_reconnect_timeout (self w))) eqn:T.
    + rewrite reconnect_pending by exact T. reflexivity.
    + apply reconnect_not_pending in T. apply (rc_joined (proj2 T)).
Qed.

(** ** Backoff *)

Lemma backoff_floor (d : Z) : 0 <= d -> backoff d = Z.min 10000 (3 * d / 2).
Proof. intros H. unfold backoff. rewrite int_1_5_floor by exact H. reflexivity. Qed.

(** C3 (amended): a [reconnect] that passes its guard sets the delay to
    [min(10000, floor(1.5 * old))]: [int] truncates where the claim rounds.
    The new delay is never below the old one and never above 10000; over
    successive retries of a fresh connection the delays run 500, 750, 1125,
    1687, 2530, 3795, 5692, 8538, 10000, 10000; and in every reachable world
    the delay lies between 500 and 10000. *)
Theorem reconnect_delay_backoff :
  (forall w,
     handle_truthy (_reconnect_timeout (self w)) = false ->
     0 <= _reconnect_delay (self w) <= 10000 ->
     _reconnect_delay (self (snd (reconnect w))) =
       Z.min 10000 (3 * _reconnect_delay (self w) / 2) /\
     _reconnect_delay (self w) <= _reconnect_delay (self (snd (reconnect w)))
       <= 10000) /\
  (forall fd w,
     initial w ->
     map (fun k => _reconnect_delay (self (Nat.iter k (retry_round env fd) w)))
         (seq 0 10) =
       [500; 750; 1125; 1687; 2530; 3795; 5692; 8538; 10000; 10000]) /\
  (forall w, reachable env w -> 500 <= _reconnect_delay (self w) <= 10000).
Proof.
  split; [|split].
  - intros w T B. apply reconnect_not_pending in T. destruct T as [_ R].
    rewrite (rc_delay R). split.
    + apply backoff_floor. lia.
    + apply backoff_bounds. exact B.
  - intros fd w I. destruct (initial_quiet I) as (Q & _ & D).
    rewrite (map_ext _ (fun k => Nat.iter k backoff 500)).
    + vm_compute. reflexivity.
    + intros k. destruct (retry_rounds_spec fd k Q) as (_ & _ & E & _).
      rewrite E, D. reflexivity.
  - intros w R. apply (reachable_bounded_delay R).
Qed.

(** ** Retry budget *)

(** C4 (amended): a [reconnect] that passes its guard takes exactly one off
    the retry budget, whatever else it does, arms one reconnect timer exactly
    when it finds the budget above 0, and shows the terminal notice exactly
    when it finds the budget at 0.  From a fresh connection (budget 20) the
    budget after [k] retries is [20 - k], negative from the 21st on; each of
    the first twenty invocations passes the guard, arms a reconnect timer and
    shows no notice; the 21st arms none and shows the notice, once, and it is
    never shown again. *)
Theorem reconnect_retry_budget :
  (forall w,
     handle_truthy (_reconnect_timeout (self w)) = false ->
     _retries (self (snd (reconnect w))) = _retries (self w) - 1 /\
     giving_up_count (snd (reconnect w)) =
       (giving_up_count w + (if (_retries (self w) =? 0)%Z then 1 else 0))%nat /\
     timers (snd (reconnect w)) =
       timers w ++
         (if _retries (self w) >? 0
          then [{| t_id := next_timeout_id w; t_callback := Cb_connect;
                   t_delay := _reconnect_delay (self (snd (reconnect w))) |}]
          else [])) /\
  (forall fd w k,
     initial w ->
     let wk := Nat.iter k (retry_round env fd) w in
     _retries (self wk) = 20 - Z.of_nat k /\
     giving_up_count wk =
       (giving_up_count w + (if (k <=? 20)%nat then 0 else 1))%nat /\
     handle_truthy (_reconnect_timeout (self wk)) = false /\
     pending_reconnects wk = [] /\
     pending_reconnects (snd (reconnect wk)) =
       if (k <? 20)%nat
       then [{| t_id := next_timeout_id wk; t_callback := Cb_connect;
                t_delay := _reconnect_delay (self (snd (reconnect wk))) |}]
       else []).
Proof.
  split.
  - intros w T. apply reconnect_not_pending in T. destruct T as [_ R].
    split; [apply (rc_retries R)|]. split.
    + unfold giving_up_count. rewrite (rc_effects R), filter_app, length_app.
      destruct (_retries (self w) =? 0); reflexivity.
    + rewrite (rc_timers R), (rc_delay R). reflexivity.
  - intros fd w k I. cbv zeta.
    destruct (initial_quiet I) as (Q & R & _).
    destruct (retry_rounds_spec fd k Q) as (Qk & Rk & _ & Gk).
    pose proof (retry_rounds_timers fd k Q) as Tk.
    destruct I as [_ T0]. rewrite T0 in Tk.
    assert (T : handle_truthy
                  (_reconnect_timeout (self (Nat.iter k (retry_round env fd) w)))
                = false) by (rewrite (proj1 Qk); reflexivity).
    destruct (reconnect_not_pending _ T) as [_ Rc].
    split; [rewrite Rk, R; reflexivity|]. split.
    { rewrite Gk, R. f_equal.
      destruct (Nat.leb_spec k 20) as [L|L].
      + replace (20 <? Z.of_nat k) with false by lia. reflexivity.
      + replace (20 <? Z.of_nat k) with true by lia. reflexivity. }
    split; [exact T|]. split; [unfold pending_reconnects; rewrite Tk; reflexivity|].
    unfold pending_reconnects. rewrite (rc_timers Rc), (rc_delay Rc), Tk, Rk, R.
    destruct (Nat.ltb_spec k 20) as [L|L].
    + replace (20 - Z.of_nat k >? 0) with true by lia. reflexivity.
    + replace (20 - Z.of_nat k >? 0) with false by lia. reflexivity.
Qed.

(** ** The reconnect timer *)

(** With handles that test true (a first handle above 0), at most one
    reconnect timer is pending after any run of entries from a fresh world,
    and [reconnect] called while one is pending changes nothing and
    returns. *)
Lemma one_reconnect_timer_with_true_handles (os : list op) (w0 w : World) :
  initial w0 ->
  0 < next_timeout_id w0 ->
  run_ops env os w0 = Some w ->
  (pending_reconnects w <> [] -> reconnect w = (Val tt, w)) /\
  (List.length (pending_reconnects w) <= 1)%nat.
Proof.
  intros I0 N0 H.
  destruct (run_ops_inv os (initial_inv I0 N0) H) as [_ _ Hp].
  destruct (pending_reconnects w) as [|t [|t' l]]; [| |contradiction].
  - split; [congruence | cbn; lia].
  - destruct Hp as [E N]. split; [|cbn; lia].
    intros _. apply reconnect_pending. rewrite E. cbn.
    apply negb_true_iff, Z.eqb_neq. exact N.
Qed.

(** ** Interest sets *)

(** C9 (amended): [fd_set] adds nothing when the connection is neither
    established nor a listener.  Otherwise, with a socket open, it adds the
    descriptor to the error set; to the write set exactly when a TLS handshake
    is pending or the outbound queue is non-empty; and to the read set once
    when listening and once more when no handshake is pending -- during a
    handshake a connection that is not listening does not watch for reads. *)
Theorem fd_set_interest (o : FlooProtocol) (readable writeable errorable : list Z) :
  (connected o = false -> _listener o = false ->
   fd_set o readable writeable errorable =
     (Val tt, (readable, writeable, errorable))) /\
  (forall s,
     _sock o = Some s ->
     connected o = true \/ _listener o = true ->
     fd_set o readable writeable errorable =
       (Val tt,
        (readable ++ (if _listener o then [sock_fileno s] else [])
                  ++ (if _needs_handshake o then [] else [sock_fileno s]),
         writeable ++ (if _needs_handshake o || (0 <? __len__ o)
                       then [sock_fileno s] else []),
         errorable ++ [sock_fileno s]))).
Proof.
  split.
  - intros C L. unfold fd_set. rewrite C, L. reflexivity.
  - intros s S CL. unfold fd_set, fileno. rewrite S.
    assert (G : negb (connected o) && negb (_listener o) = false).
    { destruct CL as [-> | ->]; cbn; auto using andb_false_r. }
    rewrite G.
    replace (__len__ o >? 0) with (0 <? __len__ o) by lia.
    destruct (_listener o), (_needs_handshake o), (0 <? __len__ o); cbn;
      rewrite <- ?app_assoc, ?app_nil_r; reflexivity.
Qed.

(** ** Empty reads *)

(** The world after the counter of empty reads went up by one. *)
Lemma empty_read_spec (w : World) :
  TICK_TIME env <> 0 ->
  empty_read env w =
    let w1 := with_self (set__empty_reads (_empty_reads (self w) + 1) (self w)) w in
    if _empty_reads (self w) + 1 >? 2000 / TICK_TIME env then reconnect w1
    else (Val tt, w1).
Proof.
  intros T. apply Z.eqb_neq in T.
  unfold empty_read, bind, assign, get_self, ret. cbn. rewrite T.
  destruct (_empty_reads (self w) + 1 >? 2000 / TICK_TIME env); reflexivity.
Qed.

Lemma read_nothing (accept_ok : bool) (recvs : list recv_result) (w : World)
    (s : socket) :
  _listen (self w) = Some false ->
  _sock (self w) = Some s ->
  recv_all recvs [] = [] ->
  read env accept_ok recvs w = Some (empty_read env w).
Proof.
  intros L S R. unfold read. rewrite L. unfold ret. rewrite S, R. reflexivity.
Qed.

(** With integers on both sides the idle test does not depend on whether [/]
    floors (Python 2) or divides exactly (Python 3). *)
Lemma idle_threshold_any_division (n t : Z) :
  0 < t -> (n > 2000 / t <-> n * t > 2000).
Proof.
  intros T. pose proof (Z.div_mod 2000 t) as D.
  pose proof (Z.mod_pos_bound 2000 t T) as B. nia.
Qed.

Lemma empty_reads_run_below (k : nat) (w : World) (s : socket) :
  TICK_TIME env = 1 ->
  _listen (self w) = Some false ->
  _sock (self w) = Some s ->
  _empty_reads (self w) = 0 ->
  (k < 2000)%nat ->
  empty_reads_run env (S k) w =
    Some (with_self (set__empty_reads (Z.of_nat (S k)) (self w)) w).
Proof.
  intros HT HL HS HE. induction k as [|k IH]; intros K.
  - cbn [empty_reads_run]. rewrite (read_nothing _ _ _ HL HS) by reflexivity.
    rewrite empty_read_spec by (rewrite HT; discriminate).
    rewrite HT, HE. reflexivity.
  - change (empty_reads_run env (S (S k)) w)
      with (match empty_reads_run env (S k) w with
            | Some w1 => option_map snd (read env true [] w1)
            | None => None
            end).
    rewrite IH by lia.
    rewrite (@read_nothing true [] _ s) by (try reflexivity; cbn; assumption).
    rewrite empty_read_spec by (rewrite HT; discriminate).
    rewrite HT. cbn [self with_self _empty_reads set__empty_reads].
    change (2000 / 1) with 2000.
    assert (G : (Z.of_nat (S k) + 1 >? 2000) = false)
      by (rewrite Z.gtb_ltb; apply Z.ltb_ge; lia).
    rewrite G.
    replace (Z.of_nat (S k) + 1) with (Z.of_nat (S (S k))) by lia.
    reflexivity.
Qed.

Lemma empty_reads_run_2001 (w : World) (s : socket) :
  TICK_TIME env = 1 ->
  _listen (self w) = Some false ->
  _sock (self w) = Some s ->
  _empty_reads (self w) = 0 ->
  empty_reads_run env 2001 w =
    Some (snd (reconnect (with_self (set__empty_reads 2001 (self w)) w))).
Proof.
  intros HT HL HS HE.
  change (empty_reads_run env 2001 w)
    with (match empty_reads_run env 2000 w with
          | Some w1 => option_map snd (read env true [] w1)
          | None => None
          end).
  rewrite (@empty_reads_run_below 1999 w s) by (assumption || lia).
  rewrite (@read_nothing true [] _ s) by (try reflexivity; cbn; assumption).
  rewrite empty_read_spec by (rewrite HT; discriminate).
  rewrite HT. reflexivity.
Qed.

Lemma reconnect_keeps_empty_reads (w : World) :
  _empty_reads (self (snd (reconnect w))) = _empty_reads (self w).
Proof.
  destruct (handle_truthy (_reconnect_timeout (self w))) eqn:T.
  - rewrite reconnect_pending by exact T. reflexivity.
  - apply reconnect_not_pending in T. apply (rc_empty_reads (proj2 T)).
Qed.

(** C8: a read callback on a live socket that reads zero bytes takes the
    counter of consecutive empty reads up by one, and calls [reconnect]
    exactly when the new count exceeds [2000 / TICK_TIME].  With a tick time
    of 1 and the counter at 0, each of the first 2000 empty reads only counts,
    and the 2001st calls [reconnect]. *)
Theorem read_counts_empty_reads :
  (forall accept_ok recvs w s,
     _listen (self w) = Some false ->
     _sock (self w) = Some s ->
     recv_all recvs [] = [] ->
     TICK_TIME env <> 0 ->
     let w1 :=
       with_self (set__empty_reads (_empty_reads (self w) + 1) (self w)) w in
     read env accept_ok recvs w =
       Some (if _empty_reads (self w) + 1 >? 2000 / TICK_TIME env
             then reconnect w1 else (Val tt, w1)) /\
     option_map (fun r => _empty_reads (self (snd r)))
       (read env accept_ok recvs w) = Some (_empty_reads (self w) + 1)) /\
  (forall w s k,
     TICK_TIME env = 1 ->
     _listen (self w) = Some false ->
     _sock (self w) = Some s ->
     _empty_reads (self w) = 0 ->
     (k < 2000)%nat ->
     empty_reads_run env (S k) w =
       Some (with_self (set__empty_reads (Z.of_nat (S k)) (self w)) w)) /\
  (forall w s,
     TICK_TIME env = 1 ->
     _listen (self w) = Some false ->
     _sock (self w) = Some s ->
     _empty_reads (self w) = 0 ->
     empty_reads_run env 2001 w =
       Some (snd (reconnect (with_self (set__empty_reads 2001 (self w)) w)))).
Proof.
  split; [|split].
  - intros accept_ok recvs w s HL HS HR HT. cbv zeta.
    rewrite (read_nothing _ _ _ HL HS HR), (empty_read_spec _ HT). cbv zeta.
    split; [reflexivity|]. cbn [option_map]. f_equal.
    destruct (_empty_reads (self w) + 1 >? 2000 / TICK_TIME env).
    + rewrite reconnect_keeps_empty_reads. reflexivity.
    + reflexivity.
  - intros w s k. apply empty_reads_run_below.
  - intros w s. apply empty_reads_run_2001.
Qed.

(** ** Outbound queue *)

Lemma put_message (item : json) (w : World) :
  is_message item ->
  put env item w =
    (Val (Some (Z.of_nat (List.length (_q (self w) ++ [frame env item])))),
     with_self (set__q (_q (self w) ++ [frame env item]) (self w)) w).
Proof.
  intros (kvs & -> & N). unfold put. destruct kvs as [|kv kvs]; [contradiction|].
  reflexivity.
Qed.

Lemma puts_spec (items : list json) (w : World) :
  Forall is_message items ->
  _q (self (puts env items w)) = _q (self w) ++ map (frame env) items /\
  _sock (self (puts env items w)) = _sock (self w) /\
  _needs_handshake (self (puts env items w)) = _needs_handshake (self w) /\
  effects (puts env items w) = effects w.
Proof.
  intros F. revert w. induction F as [|item items Hi _ IH]; intros w.
  - cbn. rewrite app_nil_r. auto.
  - cbn [puts]. rewrite (put_message w Hi). cbn [snd].
    destruct (IH (with_self (set__q (_q (self w) ++ [frame env item]) (self w)) w))
      as (Q & S & N & E).
    rewrite Q, S, N, E. cbn. rewrite <- app_assoc. auto.
Qed.

Lemma sent_snoc (w w' : World) (e : effect) :
  effects w' = effects w ++ [e] ->
  sent w' = sent w ++ match e with Sendall _ b => [b] | _ => [] end.
Proof.
  intros E. unfold sent. rewrite E, flat_map_app. cbn.
  rewrite app_nil_r. reflexivity.
Qed.

Lemma drain_cons (item : string) (rest : list string) (sends : nat -> bool)
    (k : nat) (w : World) (s : socket) :
  _sock (self w) = Some s ->
  drain env (item :: rest) sends k w =
    if sends k then
      drain env rest sends (S k)
        (with_effects
           (effects w ++ [Sendall (sock_fileno s) (utf8_encode env item)])
           (with_self (set__q rest (self w)) w))
    else (Exc SocketError, with_self (set__q rest (self w)) w).
Proof.
  intros HS. cbn [drain].
  unfold bind, assign, sendall, get_self, perform, raise. cbn. rewrite HS.
  destruct (sends k); reflexivity.
Qed.

Lemma drain_all (q : list string) (k : nat) (w : World) (s : socket) :
  _sock (self w) = Some s ->
  _q (self w) = q ->
  fst (drain env q always_sent k w) = Val tt /\
  sent (snd (drain env q always_sent k w)) =
    sent w ++ map (utf8_encode env) q /\
  _q (self (snd (drain env q always_sent k w))) = [].
Proof.
  revert k w. induction q as [|item rest IH]; intros k w HS HQ.
  - cbn. rewrite app_nil_r. auto.
  - rewrite (drain_cons _ _ _ _ _ HS).
    change (always_sent k) with true. cbv iota.
    destruct (IH (S k)
                (with_effects
                   (effects w ++ [Sendall (sock_fileno s) (utf8_encode env item)])
                   (with_self (set__q rest (self w)) w)) HS eq_refl)
      as (A & E & Q).
    rewrite A, E, Q.
    rewrite (@sent_snoc w _ (Sendall (sock_fileno s) (utf8_encode env item)))
      by reflexivity.
    cbn. rewrite <- app_assoc. auto.
Qed.

(** [write] stops at the first [sendall] that raises: every frame before it
    was sent, in order, the frame it was given is gone, and the frames behind
    it are still queued. *)
Lemma drain_until_failure (q : list string) (sends : nat -> bool) (k : nat)
    (w : World) (s : socket) :
  _sock (self w) = Some s ->
  _q (self w) = q ->
  exists n,
    (forall i, (i < n)%nat -> sends (k + i)%nat = true) /\
    sent (snd (drain env q sends k w)) =
      sent w ++ map (utf8_encode env) (firstn n q) /\
    ((n = List.length q /\
      fst (drain env q sends k w) = Val tt /\
      _q (self (snd (drain env q sends k w))) = []) \/
     ((n < List.length q)%nat /\
      sends (k + n)%nat = false /\
      fst (drain env q sends k w) = Exc SocketError /\
      _q (self (snd (drain env q sends k w))) = skipn (S n) q)).
Proof.
  revert k w. induction q as [|item rest IH]; intros k w HS HQ.
  - exists 0%nat. cbn. rewrite app_nil_r. split; [intros i L; lia|]. auto.
  - rewrite (drain_cons _ _ _ _ _ HS). destruct (sends k) eqn:Sk.
    + destruct (IH (S k)
                  (with_effects
                     (effects w ++ [Sendall (sock_fileno s) (utf8_encode env item)])
                     (with_self (set__q rest (self w)) w)) HS eq_refl)
        as (n & A & E & C).
      exists (S n). rewrite E.
      rewrite (@sent_snoc w _ (Sendall (sock_fileno s) (utf8_encode env item)))
        by reflexivity.
      cbn [firstn map List.length skipn]. rewrite <- app_assoc.
      split; [|split; [reflexivity|]].
      * intros [|i] L; [rewrite Nat.add_0_r; exact Sk|].
        replace (k + S i)%nat with (S k + i)%nat by lia. apply A. lia.
      * replace (k + S n)%nat with (S k + n)%nat by lia.
        destruct C as [(B & D & F) | (B & D & F & G)]; [left | right].
        -- split; [lia | auto].
        -- split; [lia | auto].
    + exists 0%nat. cbn [firstn map List.length skipn snd fst].
      rewrite app_nil_r, Nat.add_0_r.
      split; [intros i L; lia|]. split; [reflexivity|]. right.
      split; [lia|]. auto.
Qed.

(** C6 (amended): messages handed to [put] one after another are appended to
    the tail of the queue as their serialization followed by the separator,
    and the write callback of an open connection past its handshake pops the
    queue from the head and hands each frame to [sendall], in that same
    order.  It stops at the first [sendall] that raises: the frames before it
    were sent, in order; the frame that [sendall] was given has left the queue
    and is not sent; the frames behind it stay queued, in order; and [write]
    raises.  When no [sendall] raises every frame is sent and the queue ends
    empty. *)
Theorem put_write_fifo (items : list json) (w : World) (s : socket) :
  Forall is_message items ->
  _needs_handshake (self w) = false ->
  _sock (self w) = Some s ->
  let q := _q (self w) ++ map (frame env) items in
  let w1 := puts env items w in
  _q (self w1) = q /\
  (forall hs sends,
     exists n,
       (forall i, (i < n)%nat -> sends i = true) /\
       sent (snd (write env hs sends w1)) =
         sent w ++ map (utf8_encode env) (firstn n q) /\
       ((n = List.length q /\
         fst (write env hs sends w1) = Val tt /\
         _q (self (snd (write env hs sends w1))) = []) \/
        ((n < List.length q)%nat /\
         sends n = false /\
         fst (write env hs sends w1) = Exc SocketError /\
         _q (self (snd (write env hs sends w1))) = skipn (S n) q))) /\
  (forall hs sends,
     (forall i, (i < List.length q)%nat -> sends i = true) ->
     fst (write env hs sends w1) = Val tt /\
     sent (snd (write env hs sends w1)) = sent w ++ map (utf8_encode env) q /\
     _q (self (snd (write env hs sends w1))) = []).
Proof.
  intros F N HS. cbv zeta. destruct (puts_spec w F) as (Q & S1 & N1 & E1).
  rewrite HS in S1. rewrite N in N1.
  assert (E2 : sent (puts env items w) = sent w) by (unfold sent; rewrite E1; reflexivity).
  assert (W : forall hs sends,
             write env hs sends (puts env items w) =
             drain env (_q (self (puts env items w))) sends 0 (puts env items w)).
  { intros hs sends. unfold write, bind at 1, get_self. cbn. rewrite N1.
    reflexivity. }
  assert (D : forall hs sends,
             exists n,
               (forall i, (i < n)%nat -> sends i = true) /\
               sent (snd (write env hs sends (puts env items w))) =
                 sent w ++
                   map (utf8_encode env)
                     (firstn n (_q (self w) ++ map (frame env) items)) /\
               ((n = List.length (_q (self w) ++ map (frame env) items) /\
                 fst (write env hs sends (puts env items w)) = Val tt /\
                 _q (self (snd (write env hs sends (puts env items w)))) = []) \/
                ((n < List.length (_q (self w) ++ map (frame env) items))%nat /\
                 sends n = false /\
                 fst (write env hs sends (puts env items w)) = Exc SocketError /\
                 _q (self (snd (write env hs sends (puts env items w)))) =
                   skipn (S n) (_q (self w) ++ map (frame env) items)))).
  { intros hs sends. rewrite W, <- Q, <- E2.
    destruct (drain_until_failure sends 0 _ S1 eq_refl) as (n & A & E & C).
    exists n. cbn [Nat.add] in A, C. auto. }
  split; [exact Q|]. split; [exact D|].
  intros hs sends A. destruct (D hs sends) as (n & _ & E & C).
  destruct C as [(B & V & L) | (B & X & _)].
  - rewrite B, firstn_all in E. auto.
  - rewrite (A n B) in X. discriminate.
Qed.

(** ** Inbound framing *)

Lemma partition_line (l rest : bytes) :
  no_newline l ->
  partition NEWLINE (l ++ NEWLINE :: rest) = (l, true, rest).
Proof.
  unfold no_newline. induction l as [|x l IH]; intros N; cbn.
  - reflexivity.
  - destruct (Byte.eqb x NEWLINE) eqn:E.
    + apply Byte.byte_dec_bl in E. exfalso. apply N. left. exact E.
    + rewrite IH; [reflexivity|]. intros I. apply N. right. exact I.
Qed.

Lemma partition_partial (p : bytes) :
  no_newline p -> partition NEWLINE p = (p, false, []).
Proof.
  unfold no_newline. induction p as [|x p IH]; intros N; cbn.
  - reflexivity.
  - destruct (Byte.eqb x NEWLINE) eqn:E.
    + apply Byte.byte_dec_bl in E. exfalso. apply N. left. exact E.
    + rewrite IH; [reflexivity|]. intros I. apply N. right. exact I.
Qed.

Lemma partition_shorter (buf before after : bytes) :
  partition NEWLINE buf = (before, true, after) ->
  (List.length after < List.length buf)%nat.
Proof.
  revert before. induction buf as [|x buf IH]; intros before; cbn.
  - discriminate.
  - destruct (Byte.eqb x NEWLINE).
    + intros H. injection H as _ <-. lia.
    + destruct (partition NEWLINE buf) as [[b f] a]. intros H.
      injection H as _ -> ->. specialize (IH b eq_refl). lia.
Qed.

Ltac run_handle_line :=
  unfold handle_line, get_name, emit_data, debug_got_data, stop,
    cancel_reconnect_timeout, cleanup, cancel_timeout, try_except, bind,
    perform, assign, get_self, ret, raise;
  cbn.

(** A pass of the loop that returns has advanced the buffer past the line. *)
Lemma handle_line_advances (before after : bytes) (w w' : World) (u : unit) :
  handle_line env before after w = (Val u, w') -> _buf (self w') = after.
Proof.
  run_handle_line.
  destruct (json_loads env (decode_ignore env before)) as [[| | | | |kvs]|];
    cbn; try discriminate; try (intros H; injection H as _ <-; reflexivity).
  destruct (data_subscriber_raises env (dict_get "name" kvs) (JObj kvs));
    destruct (dict_get "name" kvs) as [| | |n| |]; cbn;
    try destruct (String.eqb n "room_info"); cbn;
    try destruct (_reconnect_timeout (self w)); cbn;
    intros H; injection H as _ <-; reflexivity.
Qed.

(** [_handle] returns: the loop never needs more passes than the buffer has
    bytes. *)
Lemma _handle_loop_returns (fuel : nat) (w : World) :
  (List.length (_buf (self w)) < fuel)%nat ->
  exists r, _handle_loop env fuel w = Some r.
Proof.
  revert w. induction fuel as [|fuel IH]; intros w L; [lia|]. cbn.
  destruct (partition NEWLINE (_buf (self w))) as [[before found] after] eqn:P.
  destruct found; [|eauto].
  destruct (handle_line env before after w) as [[u|e] w'] eqn:H; [|eauto].
  apply IH. rewrite (handle_line_advances _ _ _ H).
  apply partition_shorter in P. lia.
Qed.

Lemma _handle_returns (data : bytes) (w : World) :
  exists r, _handle env data w = Some r.
Proof. unfold _handle. apply _handle_loop_returns. lia. Qed.

Lemma read_returns (accept_ok : bool) (recvs : list recv_result) (w : World) :
  exists r, read env accept_ok recvs w = Some r.
Proof.
  unfold read. destruct (_listen (self w)) as [l|]; [|eauto].
  destruct ((if l then accept accept_ok else ret tt) w) as [[u|e] w1]; [|eauto].
  destruct (_sock (self w1)); [|eauto].
  destruct (recv_all recvs []); [eauto|]. apply _handle_returns.
Qed.

Lemma data_events_snoc (w w' : World) (es : list effect) :
  effects w' = effects w ++ es ->
  data_events w' = data_events w ++ filter is_emit_data es.
Proof. intros E. unfold data_events. rewrite E, filter_app. reflexivity. Qed.

(** One pass of the loop over a line that is not a non-record: the line's
    event is dispatched, if it has one, and the buffer moves past the line. *)
Lemma handle_line_dispatch (before after : bytes) (w : World) :
  parses_to_non_object env before = false ->
  exists w',
    handle_line env before after w = (Val tt, w') /\
    data_events w' = data_events w ++ line_event env before /\
    _buf (self w') = after.
Proof.
  unfold parses_to_non_object, line_event. run_handle_line.
  destruct (json_loads env (decode_ignore env before)) as [[| | | | |kvs]|];
    cbn; try discriminate; intros _.
  - destruct (data_subscriber_raises env (dict_get "name" kvs) (JObj kvs));
      destruct (dict_get "name" kvs) as [| | |n| |]; cbn;
      try destruct (String.eqb n "room_info"); cbn;
      try destruct (_reconnect_timeout (self w)); cbn;
      eexists; (split; [reflexivity|]); (split; [|reflexivity]);
      unfold data_events; cbn; rewrite ?filter_app; cbn;
      rewrite ?app_nil_r; reflexivity.
  - eexists. split; [reflexivity|]. split; [|reflexivity].
    unfold data_events. cbn. rewrite app_nil_r. reflexivity.
Qed.

Lemma join_lines_cons (l : bytes) (ls : list bytes) (partial : bytes) :
  join_lines (l :: ls) partial = l ++ NEWLINE :: join_lines ls partial.
Proof. unfold join_lines. cbn. rewrite <- !app_assoc. reflexivity. Qed.

Lemma join_lines_length (ls : list bytes) (partial : bytes) :
  (List.length ls <= List.length (join_lines ls partial))%nat.
Proof.
  induction ls as [|l ls IH].
  - cbn. lia.
  - rewrite join_lines_cons, length_app. cbn. lia.
Qed.

Lemma _handle_loop_lines (ls : list bytes) (partial : bytes) (fuel : nat)
    (w : World) :
  Forall no_newline ls ->
  no_newline partial ->
  Forall (fun l => parses_to_non_object env l = false) ls ->
  _buf (self w) = join_lines ls partial ->
  (List.length ls < fuel)%nat ->
  exists w',
    _handle_loop env fuel w = Some (Val tt, w') /\
    data_events w' = data_events w ++ flat_map (line_event env) ls /\
    _buf (self w') = partial.
Proof.
  intros N Np. revert fuel w.
  induction N as [|l ls Nl _ IH]; intros fuel w O B L.
  - destruct fuel as [|fuel]; [cbn in L; lia|]. cbn [_handle_loop].
    rewrite B. unfold join_lines. cbn [map List.concat app].
    rewrite (partition_partial Np). exists w.
    split; [reflexivity|]. split; [cbn; rewrite app_nil_r; reflexivity|].
    exact B.
  - destruct fuel as [|fuel]; [cbn in L; lia|]. cbn [_handle_loop].
    rewrite B, join_lines_cons, (partition_line _ Nl).
    inversion O as [|? ? Ol Ols]; subst.
    destruct (handle_line_dispatch l (join_lines ls partial) w Ol)
      as (w1 & H & D & B1).
    rewrite H.
    destruct (IH fuel w1 Ols B1) as (w' & H' & D' & B'); [cbn in L; lia|].
    exists w'. split; [exact H'|]. split; [|exact B'].
    rewrite D', D. cbn [flat_map]. rewrite app_assoc. reflexivity.
Qed.

(** What [_handle] does with well-formed input, lines that parse to something
    other than a record left aside: every complete line that parses is
    dispatched once, in order; a line that does not parse is dropped and the
    lines after it are still dispatched; the partial line stays buffered. *)
Lemma _handle_dispatches_records (ls : list bytes) (partial data : bytes)
    (w : World) :
  Forall no_newline ls ->
  no_newline partial ->
  Forall (fun l => parses_to_non_object env l = false) ls ->
  _buf (self w) ++ data = join_lines ls partial ->
  exists w',
    _handle env data w = Some (Val tt, w') /\
    data_events w' = data_events w ++ flat_map (line_event env) ls /\
    _buf (self w') = partial.
Proof.
  intros N Np O B. unfold _handle. cbn [self with_self _buf set__buf].
  destruct (@_handle_loop_lines ls partial
              (S (List.length (_buf (self w) ++ data)))
              (with_self (set__buf (_buf (self w) ++ data) (self w)) w)
              N Np O B) as (w' & H & D & B').
  - rewrite B. pose proof (join_lines_length ls partial). lia.
  - exists w'. auto.
Qed.


(** Every buffer is, in one way, complete lines followed by a partial line. *)
Lemma split_lines_spec (buf : bytes) :
  join_lines (fst (split_lines buf)) (snd (split_lines buf)) = buf /\
  Forall no_newline (fst (split_lines buf)) /\
  no_newline (snd (split_lines buf)).
Proof.
  induction buf as [|x rest (J & F & P)]; cbn [split_lines].
  - repeat split; [constructor | intros []].
  - destruct (split_lines rest) as [ls partial]. cbn [fst snd] in J, F, P.
    destruct (Byte.eqb x NEWLINE) eqn:E.
    + apply Byte.byte_dec_bl in E. subst x. cbn [fst snd].
      split; [rewrite join_lines_cons, J; reflexivity|].
      split; [constructor; [intros [] | exact F] | exact P].
    + assert (N : x <> NEWLINE).
      { intros ->. rewrite (Byte.byte_dec_lb eq_refl) in E. discriminate. }
      destruct ls as [|l ls]; cbn [fst snd].
      * split; [unfold join_lines in *; cbn in *; rewrite J; reflexivity|].
        split; [constructor|].
        intros [H | H]; [congruence | exact (P H)].
      * rewrite join_lines_cons in J. rewrite join_lines_cons. cbn [app].
        rewrite J. split; [reflexivity|].
        inversion F as [|? ? Fl Fls]; subst.
        split; [|exact P]. constructor; [|exact Fls].
        intros [H | H]; [congruence | exact (Fl H)].
Qed.

(** The same for whatever bytes arrive on top of whatever is buffered. *)
Lemma _handle_dispatches_lines (data : bytes) (w : World) :
  let buf := _buf (self w) ++ data in
  Forall (fun l => parses_to_non_object env l = false) (fst (split_lines buf)) ->
  exists w',
    _handle env data w = Some (Val tt, w') /\
    data_events w' =
      data_events w ++ flat_map (line_event env) (fst (split_lines buf)) /\
    _buf (self w') = snd (split_lines buf).
Proof.
  intros buf O. destruct (split_lines_spec buf) as (J & F & P).
  apply _handle_dispatches_records; auto.
Qed.

(** *** A socket while established *)

Ltac shape_leaf :=
  let w := fresh "w" in
  let L := fresh "L" in
  let S := fresh "S" in
  intros w [L S]; unfold cancel_timeout; cbn;
  try match goal with |- context [match ?h with Some _ => _ | None => _ end] =>
        destruct h end;
  split; cbn; first [exact L | exact S | discriminate | congruence ].

Lemma maintains_open_cleanup : maintains open_when_connected cleanup.
Proof. shape_leaf. Qed.

Lemma maintains_open_reconnect : maintains open_when_connected reconnect.
Proof.
  unfold reconnect. maintain shape_leaf.
Qed.

Lemma maintains_open_stop : maintains open_when_connected stop.
Proof. unfold stop, cancel_reconnect_timeout. maintain shape_leaf. Qed.

Lemma maintains_open_handle_line (before after : bytes) :
  maintains open_when_connected (handle_line env before after).
Proof.
  unfold handle_line, get_name, emit_data, debug_got_data.
  maintain shape_leaf. apply maintains_open_stop.
Qed.

Lemma maintains_open__connect (attempts : Z) (r : connect_result) :
  maintains open_when_connected (_connect env attempts r).
Proof.
  unfold _connect, _reconnect.
  destruct (attempts >? 500); [apply maintains_open_reconnect|].
  intros w [L S].
  unfold bind at 1, get_self at 1. cbn [fst snd].
  destruct (_sock (self w)) as [s|] eqn:E;
    [|unfold ret; cbn; split; [assumption | rewrite E; assumption]].
  destruct r.
  3: { unfold bind, set_timeout, ret. cbn.
       split; cbn; [assumption | rewrite E; assumption]. }
  3: { apply maintains_open_reconnect.
       split; [assumption | rewrite E; assumption]. }
  all: unfold bind, assign, perform, get_self, ret, raise; cbn;
    destruct (secure (self w)); [destruct (ssl env)|]; cbn;
    try (split; cbn; [assumption | rewrite E; assumption]);
    destruct (connect_subscriber_raises env); cbn;
    split; cbn; try assumption; intros; rewrite ?E; discriminate.
Qed.

Lemma maintains_open_connect (fd : Z) (r : connect_result) :
  maintains open_when_connected (connect env fd r).
Proof.
  unfold connect, cancel_reconnect_timeout. maintain shape_leaf.
  apply maintains_open__connect.
Qed.

Lemma maintains_open_drain (q : list string) (sends : nat -> bool) (k : nat) :
  maintains open_when_connected (drain env q sends k).
Proof.
  revert k. induction q as [|item rest IH]; intros k; cbn [drain].
  - apply maintains_ret.
  - unfold sendall. maintain shape_leaf. apply IH.
Qed.

Lemma maintains_open_write (hs : handshake_result) (sends : nat -> bool) :
  maintains open_when_connected (write env hs sends).
Proof.
  unfold write, do_handshake. maintain shape_leaf.
  all: first [apply maintains_open_reconnect | apply maintains_open_drain].
Qed.

Lemma maintains_open_put (item : json) :
  maintains open_when_connected (put env item).
Proof. unfold put. maintain shape_leaf. Qed.

Lemma maintains_open_listen : maintains open_when_connected listen.
Proof. unfold listen. maintain shape_leaf. Qed.

Lemma maintains_open_accept (ok : bool) :
  maintains open_when_connected (accept ok).
Proof. unfold accept. maintain shape_leaf. Qed.

Lemma run_op_open_when_connected (o : op) (w w' : World) :
  run_op env o w = Some w' ->
  open_when_connected w -> open_when_connected w'.
Proof.
  apply (@relates_run_op
           (fun w w' => open_when_connected w -> open_when_connected w')).
  - auto.
  - auto.
  - apply maintains_open_handle_line.
  - intros w0 v [L S]. split; assumption.
  - intros w0 v [L S]. split; assumption.
  - intros w0 f [L S]. split; assumption.
  - apply maintains_open_reconnect.
  - apply maintains_open_accept.
  - apply maintains_open_connect.
  - apply maintains_open__connect.
  - apply maintains_open_stop.
  - apply maintains_open_cleanup.
  - apply maintains_open_listen.
  - apply maintains_open_put.
  - apply maintains_open_write.
Qed.

Lemma reachable_open_when_connected (w : World) :
  reachable env w -> open_when_connected w.
Proof.
  induction 1 as [w H | w o w' _ IH H].
  - destruct H as [(h & p & sec & bl & cp & E) _].
    unfold open_when_connected. rewrite E.
    split; cbn; [reflexivity | discriminate].
  - eapply run_op_open_when_connected; eauto.
Qed.

(** X1: in every reachable world [fd_set] returns without raising.  The
    object is never a listener and holds a socket whenever it is marked
    established, so [fileno] is only ever asked of an open socket; and while
    the connection is not established [fd_set] leaves the three lists as they
    are. *)
Theorem fd_set_never_raises (w : World) (readable writeable errorable : list Z) :
  reachable env w ->
  _listener (self w) = false /\
  (connected (self w) = true -> exists s, _sock (self w) = Some s) /\
  fst (fd_set (self w) readable writeable errorable) = Val tt /\
  (connected (self w) = false ->
   fd_set (self w) readable writeable errorable =
     (Val tt, (readable, writeable, errorable))).
Proof.
  intros R. destruct (reachable_open_when_connected R) as [L S].
  split; [exact L|]. split; [|split].
  - intros C. specialize (S C). destruct (_sock (self w)) as [s|]; [eauto|].
    contradiction.
  - unfold fd_set, fileno. rewrite L.
    destruct (connected (self w)) eqn:C; cbn; [|reflexivity].
    specialize (S eq_refl). destruct (_sock (self w)) as [s|]; [|contradiction].
    destruct (_needs_handshake (self w)); reflexivity.
  - intros C. unfold fd_set. rewrite C, L. reflexivity.
Qed.


(** *** Frames in the queue and on the wire *)

Section Wire.

Variable P : string -> Prop.
Variable w0 : World.

Ltac wire_tail :=
  match goal with
  | E : sent _ = sent w0 ++ map _ ?fs, F : Forall P ?fs |- _ =>
      exists fs; split; [|exact F];
      unfold sent in *; cbn; rewrite ?flat_map_app; cbn;
      rewrite ?app_nil_r; exact E
  end.

Ltac wire_leaf :=
  let w := fresh "w" in
  let Q := fresh "Q" in
  let fs := fresh "fs" in
  let E := fresh "E" in
  let F := fresh "F" in
  intros w [Q (fs & E & F)]; unfold cancel_timeout; cbn;
  try match goal with |- context [match ?h with Some _ => _ | None => _ end] =>
        destruct h end;
  (split; [cbn; first [exact Q | constructor] | wire_tail]).

Lemma maintains_wire_reconnect : maintains (wire env P w0) reconnect.
Proof. unfold reconnect. maintain wire_leaf. Qed.

Lemma maintains_wire_stop : maintains (wire env P w0) stop.
Proof. unfold stop, cancel_reconnect_timeout. maintain wire_leaf. Qed.

Lemma maintains_wire_handle_line (before after : bytes) :
  maintains (wire env P w0) (handle_line env before after).
Proof.
  unfold handle_line, get_name, emit_data, debug_got_data.
  maintain wire_leaf. apply maintains_wire_stop.
Qed.

Lemma maintains_wire__connect (attempts : Z) (r : connect_result) :
  maintains (wire env P w0) (_connect env attempts r).
Proof.
  unfold _connect, _reconnect. maintain wire_leaf.
  all: apply maintains_wire_reconnect.
Qed.

Lemma maintains_wire_connect (fd : Z) (r : connect_result) :
  maintains (wire env P w0) (connect env fd r).
Proof.
  unfold connect, cancel_reconnect_timeout. maintain wire_leaf.
  apply maintains_wire__connect.
Qed.

(** [write] sends what it pops, and nothing else. *)
Lemma maintains_wire_drain (q : list string) (sends : nat -> bool) (k : nat) :
  Forall P q -> maintains (wire env P w0) (drain env q sends k).
Proof.
  intros Fq. revert k. induction Fq as [|item rest Hi Hr IH]; intros k;
    cbn [drain].
  - apply maintains_ret.
  - apply maintains_bind; [|intros _; apply maintains_bind; [|intros _; apply IH]].
    + intros w [Q (fs & E & F)]. split; [exact Hr|]. cbn. wire_tail.
    + unfold sendall. maintain wire_leaf.
      intros w [Q (fs & E & F)]. split; [exact Q|].
      exists (fs ++ [item]). split.
      * rewrite (@sent_snoc w _ (Sendall (sock_fileno s) (utf8_encode env item)))
          by reflexivity.
        rewrite E, map_app, app_assoc. reflexivity.
      * apply Forall_app. split; [exact F|]. constructor; [exact Hi|constructor].
Qed.

Lemma maintains_wire_write (hs : handshake_result) (sends : nat -> bool) :
  maintains (wire env P w0) (write env hs sends).
Proof.
  unfold write. intros w W. unfold bind at 1, get_self at 1. cbn [fst snd].
  destruct (_needs_handshake (self w)).
  - revert w W. change (maintains (wire env P w0)
      (finished <- try_except (do_handshake hs;; ret true)
                     (fun e => if ssl env
                               then match e with
                                    | SSLError => ret false
                                    | _ => reconnect;; ret false
                                    end
                               else raise AttributeError);;
       (if finished then assign (set__needs_handshake false) else ret tt))).
    unfold do_handshake. maintain wire_leaf.
    all: apply maintains_wire_reconnect.
  - apply maintains_wire_drain; [apply W | exact W].
Qed.

(** [put] queues the frame of a message, and nothing else. *)
Lemma maintains_wire_put (item : json) :
  (is_message item -> P (frame env item)) ->
  maintains (wire env P w0) (put env item).
Proof.
  intros Hp. unfold put.
  destruct item as [| | | | |kvs]; cbn [truthy negb];
    try solve [maintain wire_leaf].
  destruct kvs as [|kv kvs]; cbn [negb]; [apply maintains_ret|].
  maintain wire_leaf.
  intros w [Q (fs & E & F)]. split; [|wire_tail]. cbn.
  apply Forall_app. split; [exact Q|]. constructor; [|constructor].
  apply Hp. eexists. split; [reflexivity | discriminate].
Qed.

Lemma maintains_wire_listen : maintains (wire env P w0) listen.
Proof. unfold listen. maintain wire_leaf. Qed.

Lemma maintains_wire_accept (ok : bool) : maintains (wire env P w0) (accept ok).
Proof. unfold accept. maintain wire_leaf. Qed.

Lemma wire_other_fields (w w' : World) :
  _q (self w') = _q (self w) -> effects w' = effects w ->
  wire env P w0 w -> wire env P w0 w'.
Proof.
  unfold wire, sent. intros -> ->. auto.
Qed.

Lemma run_op_wire (o : op) (w w' : World) :
  (forall item, o = Call_put item -> is_message item -> P (frame env item)) ->
  run_op env o w = Some w' -> wire env P w0 w -> wire env P w0 w'.
Proof.
  intros Hp H.
  assert (T : forall a b c : World,
             (wire env P w0 a -> wire env P w0 b) ->
             (wire env P w0 b -> wire env P w0 c) ->
             wire env P w0 a -> wire env P w0 c) by auto.
  destruct o; cbn in H.
  - injection H as <-. apply maintains_wire_connect.
  - injection H as <-. apply maintains_wire_stop.
  - injection H as <-. apply maintains_wire_reconnect.
  - injection H as <-. apply wire_other_fields; reflexivity.
  - injection H as <-. apply maintains_wire_listen.
  - injection H as <-. apply maintains_wire_put. apply Hp. reflexivity.
  - injection H as <-. apply maintains_wire_write.
  - destruct (read env accept_ok recvs w) as [r|] eqn:E; [|discriminate].
    injection H as <-.
    refine (@relates_read (fun w w' => wire env P w0 w -> wire env P w0 w')
              _ _ _ _ _ _ _ accept_ok recvs w r E).
    + auto.
    + exact T.
    + apply maintains_wire_handle_line.
    + intros w1 v. cbv beta. apply wire_other_fields; reflexivity.
    + intros w1 v. cbv beta. apply wire_other_fields; reflexivity.
    + apply maintains_wire_reconnect.
    + apply maintains_wire_accept.
  - injection H as <-.
    refine (@relates_fire (fun w w' => wire env P w0 w -> wire env P w0 w')
              _ _ _ _ _ h fd r w).
    + auto.
    + exact T.
    + intros w1 f. cbv beta. apply wire_other_fields; reflexivity.
    + apply maintains_wire_connect.
    + apply maintains_wire__connect.
Qed.

Lemma run_ops_wire (os : list op) (w w' : World) :
  (forall item, In (Call_put item) os -> is_message item -> P (frame env item)) ->
  run_ops env os w = Some w' -> wire env P w0 w -> wire env P w0 w'.
Proof.
  revert w. induction os as [|o os IH]; intros w Hp H W; cbn in H.
  - injection H as <-. exact W.
  - destruct (run_op env o w) as [w1|] eqn:E; [|discriminate].
    apply (IH w1); [intros item I; apply Hp; right; exact I | exact H |].
    eapply run_op_wire; [|exact E | exact W].
    intros item -> M. apply Hp; [left; reflexivity | exact M].
Qed.

End Wire.

(** X2: whatever entries run, in whatever order, every string in the queue
    at the end, and every string handed to [sendall] on the way, was in the
    queue at the start or is the frame [put] made of a message handed to it in
    the run, the serialization of that one message followed by the separator.
    Each [sendall] is handed the encoding of exactly one of them: [put] is the
    only method that adds to the queue, and [write] the only one that sends,
    and it sends queue entries whole. *)
Theorem sendall_gets_queued_frames (os : list op) (w w' : World) :
  run_ops env os w = Some w' ->
  Forall (queued_in env os w) (_q (self w')) /\
  exists fs,
    sent w' = sent w ++ map (utf8_encode env) fs /\
    Forall (queued_in env os w) fs.
Proof.
  intros H. apply (@run_ops_wire (queued_in env os w) w os w w').
  - intros item I M. right. exists item. auto.
  - exact H.
  - split.
    + apply Forall_forall. intros f I. left. exact I.
    + exists []. rewrite app_nil_r. auto.
Qed.

(** *** The handshake flag *)


Ltac flag_leaf :=
  let w := fresh "w" in
  let H := fresh "H" in
  intros w H; unfold handshake_done, cancel_timeout in *; cbn;
  try match goal with |- context [match ?h with Some _ => _ | None => _ end] =>
        destruct h end;
  cbn; first [exact H | reflexivity].

Lemma maintains_flag_reconnect : maintains handshake_done reconnect.
Proof. unfold reconnect. maintain flag_leaf. Qed.

Lemma maintains_flag_stop : maintains handshake_done stop.
Proof. unfold stop, cancel_reconnect_timeout. maintain flag_leaf. Qed.

Lemma maintains_flag_handle_line (before after : bytes) :
  maintains handshake_done (handle_line env before after).
Proof.
  unfold handle_line, get_name, emit_data, debug_got_data.
  maintain flag_leaf. apply maintains_flag_stop.
Qed.

Lemma maintains_flag__connect (attempts : Z) (r : connect_result) :
  maintains handshake_done (_connect env attempts r).
Proof.
  unfold _connect, _reconnect. maintain flag_leaf.
  all: apply maintains_flag_reconnect.
Qed.

Lemma maintains_flag_connect (fd : Z) (r : connect_result) :
  maintains handshake_done (connect env fd r).
Proof.
  unfold connect, cancel_reconnect_timeout. maintain flag_leaf.
  apply maintains_flag__connect.
Qed.

Lemma maintains_flag_drain (q : list string) (sends : nat -> bool) (k : nat) :
  maintains handshake_done (drain env q sends k).
Proof.
  revert k. induction q as [|item rest IH]; intros k; cbn [drain].
  - apply maintains_ret.
  - unfold sendall. maintain flag_leaf. apply IH.
Qed.

Lemma maintains_flag_write (hs : handshake_result) (sends : nat -> bool) :
  maintains handshake_done (write env hs sends).
Proof.
  unfold write, do_handshake. maintain flag_leaf.
  all: first [apply maintains_flag_reconnect | apply maintains_flag_drain].
Qed.

Lemma maintains_flag_put (item : json) : maintains handshake_done (put env item).
Proof. unfold put. maintain flag_leaf. Qed.

Lemma maintains_flag_listen : maintains handshake_done listen.
Proof. unfold listen. maintain flag_leaf. Qed.

Lemma maintains_flag_accept (ok : bool) : maintains handshake_done (accept ok).
Proof. unfold accept. maintain flag_leaf. Qed.

Lemma run_ops_handshake_done (os : list op) (w w' : World) :
  run_ops env os w = Some w' -> handshake_done w -> handshake_done w'.
Proof.
  apply (@relates_run_ops (fun w w' => handshake_done w -> handshake_done w')).
  - auto.
  - auto.
  - apply maintains_flag_handle_line.
  - intros w1 v H. exact H.
  - intros w1 v H. exact H.
  - intros w1 f H. exact H.
  - apply maintains_flag_reconnect.
  - apply maintains_flag_accept.
  - apply maintains_flag_connect.
  - apply maintains_flag__connect.
  - apply maintains_flag_stop.
  - flag_leaf.
  - apply maintains_flag_listen.
  - apply maintains_flag_put.
  - apply maintains_flag_write.
Qed.

(** ** The handshake step of [write] *)

Lemma reconnect_returns (w : World) : fst (reconnect w) = Val tt.
Proof.
  destruct (handle_truthy (_reconnect_timeout (self w))) eqn:T.
  - rewrite reconnect_pending by exact T. reflexivity.
  - apply reconnect_not_pending in T. apply T.
Qed.

Lemma reconnect_keeps_queue (w : World) :
  sent (snd (reconnect w)) = sent w /\
  _q (self (snd (reconnect w))) = _q (self w).
Proof.
  destruct (handle_truthy (_reconnect_timeout (self w))) eqn:T.
  - rewrite reconnect_pending by exact T. auto.
  - apply reconnect_not_pending in T. destruct T as [_ R].
    split; [|apply (rc_q R)]. unfold sent. rewrite (rc_effects R), flat_map_app.
    destruct (_retries (self w) =? 0); cbn; apply app_nil_r.
Qed.

Lemma reconnect_as_pair (w : World) : reconnect w = (Val tt, snd (reconnect w)).
Proof.
  pose proof (reconnect_returns w) as H.
  destruct (reconnect w) as [r w1]. cbn in *. rewrite H. reflexivity.
Qed.

(** X3: while the TLS handshake is pending, a write callback sends nothing
    and leaves the queue as it is, whatever the handshake step does.  On a
    wrapped socket a completed step clears the flag and changes nothing
    else, an [SSLError] leaves the world untouched for the next callback, and
    any other failure, like a missing socket, goes to [reconnect]. *)
Theorem write_handshake_step (hs : handshake_result) (sends : nat -> bool)
    (w : World) :
  _needs_handshake (self w) = true ->
  ssl env = true ->
  sent (snd (write env hs sends w)) = sent w /\
  _q (self (snd (write env hs sends w))) = _q (self w) /\
  (forall s,
     _sock (self w) = Some s -> sock_tls s = true ->
     write env hs sends w =
       match hs with
       | Handshake_done =>
           (Val tt, with_self (set__needs_handshake false (self w)) w)
       | Handshake_SSLError => (Val tt, w)
       | Handshake_error => reconnect w
       end) /\
  (_sock (self w) = None -> write env hs sends w = reconnect w).
Proof.
  intros N S.
  assert (W : write env hs sends w =
              match _sock (self w) with
              | Some s =>
                  if sock_tls s then
                    match hs with
                    | Handshake_done =>
                        (Val tt, with_self (set__needs_handshake false (self w)) w)
                    | Handshake_SSLError => (Val tt, w)
                    | Handshake_error => reconnect w
                    end
                  else reconnect w
              | None => reconnect w
              end).
  { unfold write, do_handshake, try_except, bind at 1 2 3 4, get_self, ret,
      raise, assign. cbn -[reconnect]. rewrite N, S.
    destruct (_sock (self w)) as [s|]; cbn -[reconnect].
    - destruct (sock_tls s); [destruct hs|]; cbn -[reconnect];
        try reflexivity;
        unfold bind; rewrite (reconnect_as_pair w); reflexivity.
    - unfold bind. rewrite (reconnect_as_pair w). reflexivity. }
  destruct (reconnect_keeps_queue w) as [K1 K2].
  split; [|split; [|split]].
  - rewrite W. destruct (_sock (self w)) as [s|]; [|exact K1].
    destruct (sock_tls s); [destruct hs|]; auto.
  - rewrite W. destruct (_sock (self w)) as [s|]; [|exact K2].
    destruct (sock_tls s); [destruct hs|]; auto.
  - intros s E T. rewrite W, E, T. reflexivity.
  - intros E. rewrite W, E. reflexivity.
Qed.

(** X4: the handshake flag only ever goes down.  No method sets it, so once a
    handshake has completed (or the object was built without TLS) no sequence
    of entries, reconnects included, brings the handshake step back: every
    later write callback goes straight to the queue. *)
Theorem handshake_is_never_rearmed (os : list op) (w w' : World)
    (hs : handshake_result) (sends : nat -> bool) :
  run_ops env os w = Some w' ->
  _needs_handshake (self w) = false ->
  _needs_handshake (self w') = false /\
  write env hs sends w' = drain env (_q (self w')) sends 0 w'.
Proof.
  intros H N. pose proof (run_ops_handshake_done os H N) as N'.
  unfold handshake_done in N'. split; [exact N'|].
  unfold write, bind at 1, get_self. cbn. rewrite N'. reflexivity.
Qed.


(** ** [connect] step by step *)

Lemma connect_prepares (fd : Z) (r : connect_result) (w : World) :
  exists w1,
    connect env fd r w = _connect env 0 r w1 /\
    _sock (self w1) = Some {| sock_fileno := fd; sock_tls := false |} /\
    connected (self w1) = false /\
    _reconnect_timeout (self w1) = None /\
    _q (self w1) = _q (self w) /\
    _needs_handshake (self w1) = _needs_handshake (self w) /\
    secure (self w1) = secure (self w) && ssl env /\
    port (self w1) =
      (if secure (self w) && negb (ssl env) &&
          (port (self w) =? DEFAULT_PORT env)
       then 3148 else port (self w)) /\
    effects w1 =
      effects w ++
      (if secure (self w) && ssl env then [Cert_written] else []) ++
      [Status_message (Connecting (host (self w)) (port (self w1)))].
Proof.
  unfold connect, cancel_reconnect_timeout, cleanup, cancel_timeout.
  unfold bind, get_self, assign, perform, ret. cbn -[_connect].
  destruct (_reconnect_timeout (self w)); cbn -[_connect];
    destruct (secure (self w)) eqn:Es; cbn -[_connect];
    try (destruct (ssl env) eqn:El; cbn -[_connect]);
    try (destruct (port (self w) =? DEFAULT_PORT env) eqn:Ep; cbn -[_connect]);
    eexists; (split; [reflexivity|]); cbn; rewrite ?Es, ?Ep; cbn;
    repeat split; rewrite <- ?app_assoc; reflexivity.
Qed.

Lemma _connect_succeeds (r : connect_result) (w : World) (s : socket) :
  succeeds r ->
  _sock (self w) = Some s ->
  sock_tls s = false ->
  (secure (self w) = true -> ssl env = true) ->
  let w' := snd (_connect env 0 r w) in
  fst (_connect env 0 r w) =
    (if connect_subscriber_raises env then Exc SubscriberError else Val tt) /\
  _q (self w') = [] /\
  _sock (self w') =
    Some {| sock_fileno := sock_fileno s; sock_tls := secure (self w) |} /\
  connected (self w') =
    (if connect_subscriber_raises env then connected (self w) else true) /\
  effects w' =
    effects w ++ Emit_connect ::
      (if connect_subscriber_raises env then [] else [Reactor_select]) /\
  _reconnect_timeout (self w') = _reconnect_timeout (self w) /\
  timers w' = timers w /\
  _needs_handshake (self w') = _needs_handshake (self w) /\
  secure (self w') = secure (self w) /\
  port (self w') = port (self w).
Proof.
  intros S E T L. unfold _connect.
  change (0 >? 500) with false. cbv iota.
  unfold bind, get_self, assign, perform, ret, raise. cbn. rewrite E.
  destruct s as [n t]. cbn in T. subst t.
  destruct S as [-> | ->];
    (destruct (secure (self w)) eqn:Es; cbn;
     [rewrite (L eq_refl); cbn|]);
    destruct (connect_subscriber_raises env); cbn; rewrite ?Es, ?E;
    repeat split; rewrite <- ?app_assoc; reflexivity.
Qed.

(** ** [put] at its edges *)

(** X5: [put] of a false item ([None], [{}], [0], ['']) is a no-op that
    returns nothing; [put] of a true item that is not a dict raises
    [AttributeError] and queues nothing; [put] of a non-empty dict appends one
    frame and returns the new length of the queue, which is what [len] then
    reports. *)
Theorem put_edge_cases (item : json) (w : World) :
  (truthy item = false -> put env item w = (Val None, w)) /\
  (truthy item = true -> (forall kvs, item <> JObj kvs) ->
   put env item w = (Exc AttributeError, w)) /\
  (forall kvs,
     item = JObj kvs -> kvs <> [] ->
     fst (put env item w) = Val (Some (__len__ (self w) + 1)) /\
     __len__ (self (snd (put env item w))) = __len__ (self w) + 1 /\
     _q (self (snd (put env item w))) = _q (self w) ++ [frame env item]).
Proof.
  split; [|split].
  - intros T. unfold put. rewrite T. reflexivity.
  - intros T N. unfold put. rewrite T. cbn.
    destruct item; try reflexivity. exfalso. eapply N. reflexivity.
  - intros kvs E N. assert (M : is_message item) by (exists kvs; auto).
    rewrite (put_message w M). unfold __len__. cbn.
    rewrite length_app. cbn. rewrite Nat2Z.inj_add. auto.
Qed.

(** ** What happens to queued frames *)

Lemma connect_clears_queue (fd : Z) (r : connect_result) (w : World) :
  succeeds r -> _q (self (snd (connect env fd r w))) = [].
Proof.
  intros S. destruct (connect_prepares fd r w) as (w1 & E & K & _ & _ & _ & _ & Hs & _).
  rewrite E.
  assert (L : secure (self w1) = true -> ssl env = true).
  { rewrite Hs. intros H. apply andb_true_iff in H. apply H. }
  apply (@_connect_succeeds r w1 _ S K eq_refl L).
Qed.

Lemma connect_in_progress_keeps_queue (fd : Z) (w : World) :
  _q (self (snd (connect env fd Connect_in_progress w))) = _q (self w).
Proof.
  destruct (connect_prepares fd Connect_in_progress w)
    as (w1 & E & K & _ & _ & Q & _).
  rewrite E, <- Q. unfold _connect. change (0 >? 500) with false. cbv iota.
  unfold bind, get_self, set_timeout, ret. cbn. rewrite K. reflexivity.
Qed.

(** X6: tearing the connection down keeps the outbound queue -- [cleanup],
    [stop] and [reconnect] never touch it -- and so does a [connect] whose
    OS-level connect is still in progress; a [connect] whose OS-level connect
    succeeds empties it.  Frames queued while the connection was down are
    therefore never sent. *)
Theorem queue_across_lifecycle (w : World) :
  _q (self (snd (cleanup w))) = _q (self w) /\
  _q (self (snd (stop w))) = _q (self w) /\
  _q (self (snd (reconnect w))) = _q (self w) /\
  (forall fd,
     _q (self (snd (connect env fd Connect_in_progress w))) = _q (self w)) /\
  (forall fd r items,
     succeeds r ->
     _q (self (snd (connect env fd r (puts env items w)))) = [] /\
     sent (snd (write env Handshake_done always_sent
                  (snd (connect env fd r (puts env items w))))) =
       sent (snd (connect env fd r (puts env items w)))).
Proof.
  split; [reflexivity|]. split; [|split; [|split]].
  - run. destruct (_reconnect_timeout (self w)); reflexivity.
  - apply reconnect_keeps_queue.
  - intros fd. apply connect_in_progress_keeps_queue.
  - intros fd r items S.
    pose proof (connect_clears_queue fd (puts env items w) S) as Q.
    split; [exact Q|].
    set (w1 := snd (connect env fd r (puts env items w))) in *.
    destruct (_needs_handshake (self w1)) eqn:N.
    + destruct (ssl env) eqn:L.
      * apply (write_handshake_step Handshake_done always_sent w1 N L).
      * unfold write, bind at 1, get_self. cbn. rewrite N.
        unfold try_except, bind, do_handshake, get_self, ret, raise. cbn.
        rewrite L.
        destruct (_sock (self w1)) as [s|]; [destruct (sock_tls s)|];
          reflexivity.
    + unfold write, bind at 1, get_self. cbn. rewrite N, Q. reflexivity.
Qed.


(** ** An established connection *)

(** X7: a [connect] whose OS-level connect succeeds leaves a socket on the
    descriptor it was given, wrapped for TLS exactly when security is still
    requested, an empty queue and no reconnect handle.  The [connect] event is
    emitted before the connection is marked established: if no subscriber
    raises, [connect] returns and the connection is established; if one does,
    its exception comes out of [connect] and the connection stays marked not
    established although the socket is open. *)
Theorem connect_establishes (fd : Z) (r : connect_result) (w : World) :
  succeeds r ->
  let w' := snd (connect env fd r w) in
  _sock (self w') =
    Some {| sock_fileno := fd; sock_tls := secure (self w) && ssl env |} /\
  _q (self w') = [] /\
  _reconnect_timeout (self w') = None /\
  In Emit_connect (effects w') /\
  (connect_subscriber_raises env = false ->
   fst (connect env fd r w) = Val tt /\ connected (self w') = true) /\
  (connect_subscriber_raises env = true ->
   fst (connect env fd r w) = Exc SubscriberError /\
   connected (self w') = false).
Proof.
  intros S. cbv zeta.
  destruct (connect_prepares fd r w)
    as (w1 & E & K & C & T & _ & _ & Hs & _).
  assert (L : secure (self w1) = true -> ssl env = true).
  { rewrite Hs. intros H. apply andb_true_iff in H. apply H. }
  destruct (@_connect_succeeds r w1 _ S K eq_refl L)
    as (F & Q & K' & C' & E' & T' & _).
  rewrite E. cbn [sock_fileno] in K'. rewrite Hs in K'.
  split; [exact K'|]. split; [exact Q|]. split; [congruence|].
  split; [rewrite E'; apply in_or_app; right; left; reflexivity|].
  split; intros B; rewrite B in *; split; congruence.
Qed.

(** X8: when TLS was requested and the [ssl] module is missing, [connect]
    turns security off; it moves the port to 3148 exactly when the port was
    the default secure port, and leaves any other port alone; no certificate
    file is written and the socket is not wrapped.  With [ssl] present
    neither the flag nor the port changes. *)
Theorem connect_downgrades_without_ssl (fd : Z) (r : connect_result) (w : World) :
  succeeds r ->
  let w' := snd (connect env fd r w) in
  secure (self w') = secure (self w) && ssl env /\
  port (self w') =
    (if secure (self w) && negb (ssl env) && (port (self w) =? DEFAULT_PORT env)
     then 3148 else port (self w)) /\
  (In Cert_written (effects w') ->
   In Cert_written (effects w) \/ (secure (self w) = true /\ ssl env = true)) /\
  (ssl env = false -> exists s, _sock (self w') = Some s /\ sock_tls s = false).
Proof.
  intros S. cbv zeta.
  destruct (connect_prepares fd r w)
    as (w1 & E & K & C & T & _ & _ & Hs & Hp & He).
  assert (L : secure (self w1) = true -> ssl env = true).
  { rewrite Hs. intros H. apply andb_true_iff in H. apply H. }
  destruct (@_connect_succeeds r w1 _ S K eq_refl L)
    as (F & Q & K' & C' & E' & T' & _ & _ & Hs' & Hp').
  rewrite E. split; [congruence|]. split; [congruence|]. split.
  - rewrite E', He. intros I.
    apply in_app_or in I. destruct I as [I | I].
    + apply in_app_or in I. destruct I as [I | I]; [left; exact I|].
      apply in_app_or in I. destruct I as [I | I].
      * destruct (secure (self w)), (ssl env); cbn in I;
          try contradiction; auto.
      * destruct I as [I | []]. discriminate.
    + destruct I as [I | I]; [discriminate|].
      destruct (connect_subscriber_raises env); [contradiction|].
      destruct I as [I | []]. discriminate.
  - intros B. eexists. split; [exact K'|]. cbn [sock_tls]. rewrite Hs, B.
    apply andb_false_r.
Qed.

(** ** After [stop] *)

(** X9: with a timer service whose handles test true (the first handle is
    above 0), after any run of entries from a fresh world [stop] leaves no
    reconnect timer pending, arms no timer, and leaves the connection down: no
    socket, not established, an empty inbound buffer and no reconnect
    handle. *)
Theorem stop_leaves_nothing_pending (os : list op) (w0 w : World) :
  initial w0 ->
  0 < next_timeout_id w0 ->
  run_ops env os w0 = Some w ->
  let w' := snd (stop w) in
  fst (stop w) = Val tt /\
  pending_reconnects w' = [] /\
  incl (timers w') (timers w) /\
  _reconnect_timeout (self w') = None /\
  _sock (self w') = None /\
  connected (self w') = false /\
  _buf (self w') = [].
Proof.
  intros I0 N0 H.
  destruct (run_ops_inv os (initial_inv I0 N0) H) as [_ _ Hp]. cbv zeta.
  clear H. unfold pending_reconnects in *. run.
  destruct (_reconnect_timeout (self w)) as [h|] eqn:E; cbn.
  - repeat split.
    + rewrite filter_swap.
      destruct (filter is_reconnect_timer (timers w)) as [|t [|t' l]];
        [reflexivity | | contradiction].
      destruct Hp as [Ht _]. injection Ht as ->. cbn.
      rewrite Z.eqb_refl. reflexivity.
    + intros t I. apply filter_In in I. apply I.
  - repeat split.
    + destruct (filter is_reconnect_timer (timers w)) as [|t [|t' l]];
        [reflexivity | | contradiction].
      destruct Hp as [Ht _]. discriminate.
    + apply incl_refl.
Qed.


(** ** The cap of the backoff *)

Lemma backoff_monotone (d1 d2 : Z) :
  0 <= d1 <= d2 -> backoff d1 <= backoff d2.
Proof.
  intros H. unfold backoff. rewrite !int_1_5_floor by lia.
  assert (3 * d1 / 2 <= 3 * d2 / 2) by (apply Z.div_le_mono; lia). lia.
Qed.

Lemma iter_backoff_bounds (k : nat) (d : Z) :
  0 <= d <= 10000 -> d <= Nat.iter k backoff d <= 10000.
Proof.
  intros H. induction k as [|k IH]; [cbn; lia|]. rewrite Nat.iter_succ.
  pose proof (backoff_bounds (d := Nat.iter k backoff d)). lia.
Qed.

Lemma iter_backoff_monotone (k : nat) (d1 d2 : Z) :
  0 <= d1 <= d2 -> d2 <= 10000 ->
  Nat.iter k backoff d1 <= Nat.iter k backoff d2.
Proof.
  intros H B. induction k as [|k IH]; [cbn; lia|]. rewrite !Nat.iter_succ.
  apply backoff_monotone. split; [|exact IH].
  pose proof (iter_backoff_bounds k (d := d1)). lia.
Qed.

Lemma iter_backoff_cap (k : nat) (d : Z) :
  500 <= d <= 10000 -> (8 <= k)%nat -> Nat.iter k backoff d = 10000.
Proof.
  intros H K. replace k with ((k - 8) + 8)%nat by lia.
  rewrite Nat.iter_add.
  assert (E : Nat.iter 8 backoff 500 = 10000) by (vm_compute; reflexivity).
  pose proof (@iter_backoff_monotone 8 500 d) as M.
  pose proof (iter_backoff_bounds 8 (d := d)) as B8.
  pose proof (iter_backoff_bounds (k - 8) (d := Nat.iter 8 backoff d)) as B.
  lia.
Qed.

(** X10: from any delay the object can hold, eight retries take the delay to
    its cap of 10000 ms, and it stays there: from the eighth retry on every
    reconnect timer is armed for 10 seconds. *)
Theorem backoff_reaches_cap (fd : Z) (k : nat) (w : World) :
  quiet w ->
  500 <= _reconnect_delay (self w) <= 10000 ->
  (8 <= k)%nat ->
  _reconnect_delay (self (Nat.iter k (retry_round env fd) w)) = 10000.
Proof.
  intros Q B K. destruct (retry_rounds_spec fd k Q) as (_ & _ & E & _).
  rewrite E. apply iter_backoff_cap; assumption.
Qed.


(** ** Reads that bring bytes *)

Lemma recv_all_chunks (ds : list bytes) (rest : list recv_result) (buf : bytes) :
  Forall (fun d => d <> []) ds ->
  ends_read rest ->
  recv_all (map Recv ds ++ rest) buf = buf ++ List.concat ds.
Proof.
  intros F E. revert buf. induction F as [|d ds Hd _ IH]; intros buf; cbn.
  - rewrite app_nil_r. destruct rest as [|[[|x d]|] rest]; cbn in *;
      try reflexivity. contradiction.
  - destruct d as [|x d]; [contradiction|]. rewrite IH, app_assoc. reflexivity.
Qed.

Lemma handle_line_keeps_empty_reads (before after : bytes) :
  keeps (fun w => _empty_reads (self w)) (handle_line env before after).
Proof.
  unfold handle_line, get_name, emit_data, debug_got_data, stop. keep.
Qed.

Lemma _handle_keeps_empty_reads (data : bytes) (w : World) (r : Res unit * World) :
  _handle env data w = Some r ->
  _empty_reads (self (snd r)) = _empty_reads (self w).
Proof.
  apply (@relates__handle
           (fun w w' => _empty_reads (self w') = _empty_reads (self w))).
  - reflexivity.
  - intros a b c H1 H2. congruence.
  - intros b a w1. apply handle_line_keeps_empty_reads.
  - reflexivity.
Qed.

(** X11: the [recv] loop of [read] gathers the chunks it is given, in order,
    up to the first empty read, error, or lack of more.  When that is at least
    one byte, [read] sets the counter of empty reads to 0 and hands the bytes
    to [_handle]; the counter is 0 when [read] is over, also when [_handle]
    raises. *)
Theorem read_with_data (accept_ok : bool) (recvs : list recv_result)
    (w : World) (s : socket) :
  _listen (self w) = Some false ->
  _sock (self w) = Some s ->
  recv_all recvs [] <> [] ->
  read env accept_ok recvs w =
    _handle env (recv_all recvs [])
      (with_self (set__empty_reads 0 (self w)) w) /\
  (exists r,
     read env accept_ok recvs w = Some r /\ _empty_reads (self (snd r)) = 0) /\
  (forall ds rest,
     recvs = map Recv ds ++ rest ->
     Forall (fun d => d <> []) ds -> ends_read rest ->
     recv_all recvs [] = List.concat ds).
Proof.
  intros L S N.
  assert (E : read env accept_ok recvs w =
              _handle env (recv_all recvs [])
                (with_self (set__empty_reads 0 (self w)) w)).
  { unfold read. rewrite L. unfold ret. rewrite S.
    destruct (recv_all recvs []); [contradiction | reflexivity]. }
  split; [exact E|]. split.
  - destruct (_handle_returns (recv_all recvs [])
                (with_self (set__empty_reads 0 (self w)) w)) as [r H].
    exists r. split; [congruence|].
    rewrite (_handle_keeps_empty_reads _ _ H). reflexivity.
  - intros ds rest -> F R. apply (@recv_all_chunks ds rest [] F R).
Qed.


(** ** Every entry runs to its end *)

Lemma run_op_returns (o : op) (w : World) : exists w', run_op env o w = Some w'.
Proof.
  destruct o; cbn; eauto.
  destruct (read_returns accept_ok recvs w) as [r H]. rewrite H. cbn. eauto.
Qed.

(** Every run of entries ends in some world. *)
Lemma run_ops_returns (os : list op) (w : World) :
  exists w', run_ops env os w = Some w'.
Proof.
  revert w. induction os as [|o os IH]; intros w; cbn; [eauto|].
  destruct (run_op_returns o w) as [w1 H]. rewrite H. apply IH.
Qed.

(** *** Passes of the loop of [_handle] *)

(** A pass that raises ends the loop; a pass that returns leaves the lines
    behind the one it took. *)
Lemma _handle_loop_passes (ls : list bytes) (partial : bytes) (fuel : nat)
    (w : World) :
  Forall no_newline ls ->
  no_newline partial ->
  _buf (self w) = join_lines ls partial ->
  (List.length ls < fuel)%nat ->
  exists r, _handle_loop env fuel w = Some r.
Proof.
  intros N Np. revert fuel w.
  induction N as [|l ls Nl _ IH]; intros fuel w B L.
  - destruct fuel as [|fuel]; [cbn in L; lia|]. cbn [_handle_loop].
    rewrite B. unfold join_lines. cbn [map List.concat app].
    rewrite (partition_partial Np). eauto.
  - destruct fuel as [|fuel]; [cbn in L; lia|]. cbn [_handle_loop].
    rewrite B, join_lines_cons, (partition_line _ Nl).
    destruct (handle_line env l (join_lines ls partial) w) as [[u|e] w1] eqn:H;
      [|eauto].
    apply IH; [apply (handle_line_advances _ _ _ H) | cbn in L; lia].
Qed.

(** With fewer passes than lines the loop is not over, when no pass raises. *)
Lemma _handle_loop_needs (ls : list bytes) (partial : bytes) (fuel : nat)
    (w : World) :
  Forall no_newline ls ->
  Forall (fun l => parses_to_non_object env l = false) ls ->
  _buf (self w) = join_lines ls partial ->
  (fuel <= List.length ls)%nat ->
  _handle_loop env fuel w = None.
Proof.
  intros N. revert fuel w.
  induction N as [|l ls Nl _ IH]; intros fuel w O B L.
  - destruct fuel as [|fuel]; [reflexivity | cbn in L; lia].
  - destruct fuel as [|fuel]; [reflexivity|]. cbn [_handle_loop].
    rewrite B, join_lines_cons, (partition_line _ Nl).
    inversion O as [|? ? Ol Ols]; subst.
    destruct (handle_line_dispatch l (join_lines ls partial) w Ol)
      as (w1 & H & _ & B1).
    rewrite H. apply IH; [exact Ols | exact B1 | cbn in L; lia].
Qed.

(** X12: the [while True] loop of [_handle] ends.  It makes at most one pass
    for each complete line in the buffer and one more, which finds no
    separator; when no pass raises it makes exactly that many.  So [_handle]
    comes back, returning or raising, whatever bytes it is given on top of
    whatever is buffered. *)
Theorem _handle_loop_ends :
  (forall fuel w,
     (List.length (fst (split_lines (_buf (self w)))) < fuel)%nat ->
     exists r, _handle_loop env fuel w = Some r) /\
  (forall fuel w,
     Forall (fun l => parses_to_non_object env l = false)
       (fst (split_lines (_buf (self w)))) ->
     (fuel <= List.length (fst (split_lines (_buf (self w)))))%nat ->
     _handle_loop env fuel w = None) /\
  (forall data w, exists r, _handle env data w = Some r).
Proof.
  split; [|split].
  - intros fuel w L.
    destruct (split_lines_spec (_buf (self w))) as (J & F & P).
    eapply _handle_loop_passes; eauto.
  - intros fuel w O L.
    destruct (split_lines_spec (_buf (self w))) as (J & F & P).
    eapply _handle_loop_needs; eauto.
  - apply _handle_returns.
Qed.

(** ** Framing, whatever the chunks *)

(** X13: for whatever bytes arrive on top of whatever is buffered, as long as
    no complete line parses to something other than a record, [_handle]
    returns; it has dispatched one [data] event for each complete line that
    parses, in the order of the lines, carrying the record and its [name]; it
    has dropped the lines that do not parse; and the bytes after the last
    separator are what stays buffered.  A subscriber that raises changes none
    of this. *)
Theorem _handle_frames_the_stream (data : bytes) (w : World) :
  Forall (fun l => parses_to_non_object env l = false)
    (fst (split_lines (_buf (self w) ++ data))) ->
  exists w',
    _handle env data w = Some (Val tt, w') /\
    data_events w' =
      data_events w ++
        flat_map (line_event env) (fst (split_lines (_buf (self w) ++ data))) /\
    _buf (self w') = snd (split_lines (_buf (self w) ++ data)) /\
    join_lines (fst (split_lines (_buf (self w) ++ data))) (_buf (self w')) =
      _buf (self w) ++ data /\
    no_newline (_buf (self w')).
Proof.
  intros O. destruct (_handle_dispatches_lines data w O) as (w' & H & D & B).
  destruct (split_lines_spec (_buf (self w) ++ data)) as (J & _ & P).
  exists w'. rewrite B. auto.
Qed.

Lemma split_lines_app (a b : bytes) :
  split_lines (a ++ b) =
    (fst (split_lines a) ++ fst (split_lines (snd (split_lines a) ++ b)),
     snd (split_lines (snd (split_lines a) ++ b))).
Proof.
  induction a as [|x a IH]; cbn [split_lines app].
  - cbn. destruct (split_lines b); reflexivity.
  - rewrite IH. clear IH. destruct (split_lines a) as [la pa]. cbn [fst snd].
    destruct (Byte.eqb x NEWLINE) eqn:E.
    + cbn [fst snd app]. reflexivity.
    + destruct la as [|l la]; cbn [fst snd app split_lines].
      * rewrite E. destruct (split_lines (pa ++ b)) as [l2 p2].
        destruct l2; reflexivity.
      * reflexivity.
Qed.

(** X14: how the stream is cut into reads does not matter.  Handing [_handle]
    two chunks one after the other dispatches the same [data] events, in the
    same order, and leaves the same bytes buffered as handing it the two
    chunks as one (no complete line parsing to something other than a
    record). *)
Theorem _handle_chunking (d1 d2 : bytes) (w : World) :
  Forall (fun l => parses_to_non_object env l = false)
    (fst (split_lines (_buf (self w) ++ d1 ++ d2))) ->
  exists w1 w2 w12,
    _handle env d1 w = Some (Val tt, w1) /\
    _handle env d2 w1 = Some (Val tt, w2) /\
    _handle env (d1 ++ d2) w = Some (Val tt, w12) /\
    data_events w2 = data_events w12 /\
    _buf (self w2) = _buf (self w12).
Proof.
  intros O.
  destruct (_handle_dispatches_lines (d1 ++ d2) w O) as (w12 & H12 & D12 & B12).
  rewrite app_assoc, split_lines_app in O, D12, B12. cbn [fst snd] in *.
  apply Forall_app in O. destruct O as [O1 O2].
  destruct (_handle_dispatches_lines d1 w O1) as (w1 & H1 & D1 & B1).
  rewrite <- B1 in O2.
  destruct (_handle_dispatches_lines d2 w1 O2) as (w2 & H2 & D2 & B2).
  exists w1, w2, w12. repeat split; try assumption.
  - rewrite D2, D1, D12, B1, flat_map_app, app_assoc. reflexivity.
  - rewrite B2, B12, B1. reflexivity.
Qed.

(** ** The read callback and errors *)

(** X15: with the connection not listening and a nonzero tick time, the read
    callback returns without raising whatever the socket does -- a missing
    socket goes to [reconnect], a [socket.error] ends the read -- as long as
    no complete line it gets to frame parses to something other than a
    record. *)
Theorem read_returns_normally (accept_ok : bool) (recvs : list recv_result)
    (w : World) :
  _listen (self w) = Some false ->
  TICK_TIME env <> 0 ->
  Forall (fun l => parses_to_non_object env l = false)
    (fst (split_lines (_buf (self w) ++ recv_all recvs []))) ->
  exists w', read env accept_ok recvs w = Some (Val tt, w').
Proof.
  intros L T O. unfold read. rewrite L. unfold ret.
  destruct (_sock (self w)) as [s|].
  - destruct (recv_all recvs []) as [|x buf] eqn:E.
    + rewrite (empty_read_spec w T). cbv zeta.
      destruct (_empty_reads (self w) + 1 >? 2000 / TICK_TIME env).
      * rewrite reconnect_as_pair. eauto.
      * eauto.
    + destruct (_handle_dispatches_lines (x :: buf)
                  (with_self (set__empty_reads 0 (self w)) w) O)
        as (w' & H & _). eauto.
  - rewrite reconnect_as_pair. eauto.
Qed.


(** ** A subscriber that raises *)

Lemma _handle_one_line (l : bytes) (w : World) (w1 : World) :
  no_newline l ->
  _buf (self w) = [] ->
  handle_line env l []
    (with_self (set__buf (l ++ [NEWLINE]) (self w)) w) = (Val tt, w1) ->
  _buf (self w1) = [] ->
  _handle env (l ++ [NEWLINE]) w = Some (Val tt, w1).
Proof.
  intros N B H B1. unfold _handle. rewrite B. cbn [app self with_self _buf set__buf].
  rewrite length_app. cbn [List.length]. rewrite Nat.add_1_r.
  cbn [_handle_loop self with_self _buf set__buf].
  rewrite (partition_line [] N), H.
  cbn [_handle_loop]. rewrite B1. reflexivity.
Qed.

(** X16: when a subscriber raises on the event of a record, [_handle] still
    returns and moves past the line.  If the record's name is [room_info] the
    user is shown the join error and the connection is stopped: no socket,
    not established, no reconnect handle; for any other name nothing but the
    event itself has happened to the connection. *)
Theorem subscriber_failure_is_contained (l : bytes)
    (kvs : list (string * json)) (w : World) :
  no_newline l ->
  _buf (self w) = [] ->
  json_loads env (decode_ignore env l) = Some (JObj kvs) ->
  data_subscriber_raises env (dict_get "name" kvs) (JObj kvs) = true ->
  exists w',
    _handle env (l ++ [NEWLINE]) w = Some (Val tt, w') /\
    _buf (self w') = [] /\
    if is_room_info (dict_get "name" kvs) then
      effects w' =
        effects w ++
          [Emit_data (dict_get "name" kvs) (JObj kvs); Error_message Join_error] /\
      _sock (self w') = None /\
      connected (self w') = false /\
      _reconnect_timeout (self w') = None /\
      retries (self w') = Some (-1)
    else
      effects w' = effects w ++ [Emit_data (dict_get "name" kvs) (JObj kvs)] /\
      _sock (self w') = _sock (self w) /\
      connected (self w') = connected (self w) /\
      _reconnect_timeout (self w') = _reconnect_timeout (self w) /\
      timers w' = timers w.
Proof.
  intros N B J R.
  assert (H : exists w1,
             handle_line env l []
               (with_self (set__buf (l ++ [NEWLINE]) (self w)) w) = (Val tt, w1) /\
             _buf (self w1) = [] /\
             if is_room_info (dict_get "name" kvs) then
               effects w1 =
                 effects w ++
                   [Emit_data (dict_get "name" kvs) (JObj kvs);
                    Error_message Join_error] /\
               _sock (self w1) = None /\
               connected (self w1) = false /\
               _reconnect_timeout (self w1) = None /\
               retries (self w1) = Some (-1)
             else
               effects w1 =
                 effects w ++ [Emit_data (dict_get "name" kvs) (JObj kvs)] /\
               _sock (self w1) = _sock (self w) /\
               connected (self w1) = connected (self w) /\
               _reconnect_timeout (self w1) = _reconnect_timeout (self w) /\
               timers w1 = timers w).
  { run_handle_line. rewrite J. cbn. rewrite R. cbn.
    destruct (dict_get "name" kvs) as [| | |n| |]; cbn;
      try (eexists; repeat split; reflexivity).
    destruct (String.eqb n "room_info"); cbn;
      [destruct (_reconnect_timeout (self w)); cbn|];
      eexists; repeat split; cbn; rewrite <- ?app_assoc; reflexivity. }
  destruct H as (w1 & H & B1 & F).
  exists w1. split; [apply (_handle_one_line w N B H B1)|]. auto.
Qed.


(** ** Teardown twice *)

(** X17: teardown is idempotent.  A second [cleanup] right after a [cleanup],
    a second [stop] right after a [stop], and a [cleanup] right after a
    [stop] each leave the world exactly as they found it, and none of them
    raises, socket or no socket. *)
Theorem teardown_is_idempotent (w : World) :
  cleanup (snd (cleanup w)) = cleanup w /\
  stop (snd (stop w)) = stop w /\
  cleanup (snd (stop w)) = stop w /\
  fst (cleanup w) = Val tt /\
  fst (stop w) = Val tt.
Proof.
  split; [reflexivity|]. run.
  destruct (_reconnect_timeout (self w)); repeat split; reflexivity.
Qed.

(** ** Write interest follows the queue *)

Lemma puts_keeps_connection (items : list json) :
  forall w,
    Forall is_message items ->
    connected (self (puts env items w)) = connected (self w) /\
    _listener (self (puts env items w)) = _listener (self w).
Proof.
  induction items as [|item items IH]; intros w F; cbn [puts]; [auto|].
  inversion F as [|? ? Hi Hr]; subst. rewrite (put_message w Hi). cbn [snd].
  destruct (IH (with_self (set__q (_q (self w) ++ [frame env item]) (self w)) w) Hr)
    as [C L].
  rewrite C, L. auto.
Qed.

Lemma drain_keeps_connection (q : list string) (sends : nat -> bool) (k : nat) :
  keeps (fun w => (connected (self w), _listener (self w), _sock (self w),
                   _needs_handshake (self w)))
    (drain env q sends k).
Proof.
  revert k. induction q as [|item rest IH]; intros k; cbn [drain].
  - apply keeps_ret.
  - unfold sendall. keep. apply IH.
Qed.

(** X18: on an established connection past its handshake and with an empty
    queue, the descriptor is in the write set of [fd_set] exactly after
    messages have been [put], and once the write callback has sent them it is
    no longer there; it is in the read and error sets throughout. *)
Theorem write_interest_follows_queue (items : list json) (w : World)
    (s : socket) :
  Forall is_message items ->
  connected (self w) = true ->
  _listener (self w) = false ->
  _needs_handshake (self w) = false ->
  _sock (self w) = Some s ->
  _q (self w) = [] ->
  fd_set (self (puts env items w)) [] [] [] =
    (Val tt,
     ([sock_fileno s],
      match items with [] => [] | _ => [sock_fileno s] end,
      [sock_fileno s])) /\
  fd_set (self (snd (write env Handshake_done always_sent (puts env items w))))
    [] [] [] =
    (Val tt, ([sock_fileno s], [], [sock_fileno s])).
Proof.
  intros F C L N S Q.
  destruct (puts_spec w F) as (Q1 & S1 & N1 & _).
  destruct (puts_keeps_connection w F) as [C1 L1].
  rewrite Q in Q1. cbn in Q1. rewrite S in S1. rewrite N in N1.
  rewrite C in C1. rewrite L in L1.
  split.
  - unfold fd_set, fileno, __len__. rewrite C1, L1, S1, N1, Q1. cbn.
    destruct items; reflexivity.
  - assert (W : write env Handshake_done always_sent (puts env items w) =
                drain env (_q (self (puts env items w))) always_sent 0
                  (puts env items w)).
    { unfold write, bind at 1, get_self. cbn. rewrite N1. reflexivity. }
    rewrite W.
    destruct (drain_all 0 _ S1 eq_refl) as (_ & _ & Q2).
    pose proof (drain_keeps_connection (_q (self (puts env items w)))
                  always_sent 0 (puts env items w)) as K.
    cbn in K. injection K as K1 K2 K3 K4.
    unfold fd_set, fileno, __len__.
    rewrite K1, K2, K3, K4, C1, L1, S1, N1, Q2. reflexivity.
Qed.

End Properties.

(** * The statements at concrete worlds *)

Lemma demo_world_initial (sec : bool) : initial (demo_world sec).
Proof.
  unfold initial, demo_world, demo_object. cbn.
  split; [repeat eexists | reflexivity].
Defined.

Lemma waiting_world_reachable : reachable demo_env world_waiting_to_reconnect.
Proof.
  apply reach_step with (w := demo_world false) (o := Call_reconnect).
  - apply reach_initial, demo_world_initial.
  - unfold world_waiting_to_reconnect, run_op. reflexivity.
Defined.

(** ** Backoff *)

Lemma reconnect_delay_backoff_witness :
  (handle_truthy (_reconnect_timeout (self (demo_world false))) = false /\
   0 <= _reconnect_delay (self (demo_world false)) <= 10000 /\
   initial (demo_world false) /\
   reachable demo_env world_waiting_to_reconnect) /\
  _reconnect_delay (self (snd (reconnect (demo_world false)))) = 750 /\
  map (fun k => _reconnect_delay
                  (self (Nat.iter k (retry_round demo_env 7) (demo_world false))))
      (seq 0 10) =
    [500; 750; 1125; 1687; 2530; 3795; 5692; 8538; 10000; 10000] /\
  500 <= _reconnect_delay (self world_waiting_to_reconnect) <= 10000.
Proof.
  assert (T : handle_truthy (_reconnect_timeout (self (demo_world false))) = false)
    by reflexivity.
  assert (B : 0 <= _reconnect_delay (self (demo_world false)) <= 10000)
    by (cbn; unfold INITIAL_RECONNECT_DELAY; lia).
  destruct (reconnect_delay_backoff demo_env) as (H1 & H2 & H3).
  split; [auto using demo_world_initial, waiting_world_reachable|].
  split; [|split].
  - destruct (H1 (demo_world false) T B) as [E _]. rewrite E. reflexivity.
  - apply H2, demo_world_initial.
  - apply H3, waiting_world_reachable.
Defined.

(** The third retry of a fresh connection: the code arms 1687 ms where
    [min(10000, round(1.5 * 1125))] is 1688. *)
Lemma reconnect_delay_is_not_rounded :
  _reconnect_delay (self world_after_two_retries) = 1125 /\
  handle_truthy (_reconnect_timeout (self world_after_two_retries)) = false /\
  _reconnect_delay (self (snd (reconnect world_after_two_retries))) <>
    Z.min 10000 (spec_round_1_5 (_reconnect_delay (self world_after_two_retries))).
Proof.
  split; [vm_compute; reflexivity|]. split; [vm_compute; reflexivity|].
  vm_compute. discriminate.
Qed.

(** ** Retry budget *)

Lemma reconnect_retry_budget_witness :
  (handle_truthy (_reconnect_timeout (self (demo_world false))) = false /\
   initial (demo_world false)) /\
  _retries (self (snd (reconnect (demo_world false)))) = 19 /\
  timers (snd (reconnect (demo_world false))) =
    [{| t_id := 1; t_callback := Cb_connect; t_delay := 750 |}] /\
  _retries (self (Nat.iter 21 (retry_round demo_env 7) (demo_world false))) = -1 /\
  giving_up_count (Nat.iter 20 (retry_round demo_env 7) (demo_world false)) = 0%nat /\
  giving_up_count (Nat.iter 21 (retry_round demo_env 7) (demo_world false)) = 1%nat /\
  pending_reconnects
    (snd (reconnect (Nat.iter 19 (retry_round demo_env 7) (demo_world false)))) =
    [{| t_id := 20; t_callback := Cb_connect; t_delay := 10000 |}] /\
  pending_reconnects
    (snd (reconnect (Nat.iter 20 (retry_round demo_env 7) (demo_world false)))) =
    [].
Proof.
  assert (T : handle_truthy (_reconnect_timeout (self (demo_world false))) = false)
    by reflexivity.
  destruct (reconnect_retry_budget demo_env) as (H1 & H2).
  split; [auto using demo_world_initial|].
  split; [|split; [|split; [|split; [|split; [|split]]]]].
  - destruct (H1 (demo_world false) T) as (E & _ & _). rewrite E. reflexivity.
  - destruct (H1 (demo_world false) T) as (_ & _ & E). rewrite E.
    vm_compute. reflexivity.
  - destruct (H2 7 (demo_world false) 21%nat (demo_world_initial false))
      as (E & _). rewrite E. reflexivity.
  - destruct (H2 7 (demo_world false) 20%nat (demo_world_initial false))
      as (_ & E & _). rewrite E. reflexivity.
  - destruct (H2 7 (demo_world false) 21%nat (demo_world_initial false))
      as (_ & E & _). rewrite E. reflexivity.
  - destruct (H2 7 (demo_world false) 19%nat (demo_world_initial false))
      as (_ & _ & _ & _ & E). rewrite E. vm_compute. reflexivity.
  - destruct (H2 7 (demo_world false) 20%nat (demo_world_initial false))
      as (_ & _ & _ & _ & E). rewrite E. reflexivity.
Defined.

(** Twenty retries of a fresh connection: the budget is at 0 and the terminal
    notice has not been shown. *)
Lemma twenty_retries_show_no_notice :
  _retries (self world_after_twenty_retries) = 0 /\
  giving_up_count world_after_twenty_retries <> 1%nat.
Proof. split; [vm_compute; reflexivity | vm_compute; discriminate]. Qed.

(** ** The reconnect timer *)

Lemma waiting_world_runs :
  run_ops demo_env [Call_reconnect] (demo_world false) =
    Some world_waiting_to_reconnect.
Proof. unfold world_waiting_to_reconnect, run_ops, run_op. reflexivity. Defined.

Lemma demo_world_first_handle : 0 < next_timeout_id (demo_world false).
Proof. reflexivity. Defined.

(** With a first handle of 1 the guard of [reconnect] sees the pending
    timer. *)
Example one_reconnect_timer_while_waiting :
  reconnect world_waiting_to_reconnect = (Val tt, world_waiting_to_reconnect) /\
  (List.length (pending_reconnects world_waiting_to_reconnect) <= 1)%nat.
Proof.
  assert (P : pending_reconnects world_waiting_to_reconnect <> [])
    by (vm_compute; discriminate).
  destruct (@one_reconnect_timer_with_true_handles demo_env [Call_reconnect]
              (demo_world false) world_waiting_to_reconnect
              (demo_world_initial false) demo_world_first_handle
              waiting_world_runs) as [H1 H2].
  split; [apply H1, P | exact H2].
Qed.

(** C7: the claim fails on the code.  [reconnect] tests the truth value of
    the handle it holds, and a handle of 0 tests false.  On a timer service
    whose first handle is 0, the first [reconnect] of a fresh connection arms
    a timer and keeps its handle, 0.  A second [reconnect], called while that
    timer is pending, is no no-op: it tears down and backs off again and arms
    a second reconnect timer, so two are outstanding; and a [stop] after it
    cancels only the timer whose handle the object holds, and leaves the
    other pending. *)
Theorem reconnect_misses_pending_handle_0 :
  initial (new_world (demo_object false) 0) /\
  run_ops demo_env [Call_reconnect] (new_world (demo_object false) 0) =
    Some world_holding_handle_0 /\
  pending_reconnects world_holding_handle_0 =
    [{| t_id := 0; t_callback := Cb_connect; t_delay := 750 |}] /\
  _reconnect_timeout (self world_holding_handle_0) = Some 0 /\
  reconnect world_holding_handle_0 <> (Val tt, world_holding_handle_0) /\
  pending_reconnects (snd (reconnect world_holding_handle_0)) =
    [{| t_id := 0; t_callback := Cb_connect; t_delay := 750 |};
     {| t_id := 1; t_callback := Cb_connect; t_delay := 1125 |}] /\
  pending_reconnects (snd (stop (snd (reconnect world_holding_handle_0)))) =
    [{| t_id := 0; t_callback := Cb_connect; t_delay := 750 |}].
Proof.
  split; [split; [repeat eexists | reflexivity]|].
  split; [unfold world_holding_handle_0, run_ops, run_op; reflexivity|].
  split; [vm_compute; reflexivity|]. split; [vm_compute; reflexivity|].
  split; [|split; vm_compute; reflexivity].
  intros H.
  apply (f_equal (fun p => List.length (timers (snd p)))) in H.
  vm_compute in H. discriminate.
Qed.

(** ** A reconnect cycle, and [stop] *)

(** C1: the claim fails on the code.  A plaintext connection is established,
    one read finds nothing, [reconnect] runs, and the timer it armed runs
    [connect] with an OS-level connect that succeeds.  The outbound queue is
    empty, but the empty-read counter is still 1, the delay still 750 and the
    budget still 19: [connect] assigns [_empty_selects] and [_connect] assigns
    [reconnect_delay] and [retries], none of which is the attribute that
    [read] and [reconnect] use. *)
Theorem connect_leaves_backoff_state_stale :
  option_map
    (fun w => (connected (self w), _q (self w), _empty_reads (self w),
               _reconnect_delay (self w), _retries (self w)))
    world_after_reconnect_cycle =
    Some (true, [], 1, 750, 19) /\
  option_map
    (fun w => (_empty_selects (self w), reconnect_delay (self w),
               retries (self w)))
    world_after_reconnect_cycle =
    Some (Some 0, Some 500, Some 20).
Proof. split; vm_compute; reflexivity. Qed.

(** C2: the claim fails on the code.  [stop] assigns [retries], so the budget
    [reconnect] tests, [_retries], is still 20.  On a stopped secure
    connection the write callback finds no socket for the handshake, calls
    [reconnect], and [reconnect] arms a timer; the read callback does the same
    on its missing socket; and on a stopped plaintext connection with a frame
    queued the write callback raises [AttributeError]. *)
Theorem stop_does_not_disable_reconnect :
  retries (self stopped_world) = Some (-1) /\
  _retries (self stopped_world) = 20 /\
  timers stopped_world = [] /\
  pending_reconnects
    (snd (write demo_env Handshake_done always_sent stopped_world)) =
    [{| t_id := 1; t_callback := Cb_connect; t_delay := 750 |}] /\
  option_map (fun r => pending_reconnects (snd r))
    (read demo_env true [] stopped_world) =
    Some [{| t_id := 1; t_callback := Cb_connect; t_delay := 750 |}] /\
  fst (write demo_env Handshake_done always_sent stopped_world_with_frame) =
    Exc AttributeError.
Proof.
  split; [vm_compute; reflexivity|]. split; [vm_compute; reflexivity|].
  split; [vm_compute; reflexivity|]. split; [vm_compute; reflexivity|].
  split; vm_compute; reflexivity.
Qed.

(** ** Interest sets *)

Lemma fd_set_interest_witness :
  (_sock (self (established demo_env false)) =
     Some {| sock_fileno := 7; sock_tls := false |} /\
   connected (self (established demo_env false)) = true) /\
  fd_set (self (established demo_env false)) [] [] [] = (Val tt, ([7], [], [7])) /\
  (connected (demo_object false) = false /\ _listener (demo_object false) = false) /\
  fd_set (demo_object false) [] [] [] = (Val tt, ([], [], [])).
Proof.
  assert (S : _sock (self (established demo_env false)) =
                Some {| sock_fileno := 7; sock_tls := false |}) by reflexivity.
  assert (C : connected (self (established demo_env false)) = true) by reflexivity.
  split; [auto|]. split; [|split; [auto|]].
  - rewrite (proj2 (fd_set_interest (self (established demo_env false)) [] [] [])
               _ S (or_introl C)).
    reflexivity.
  - apply (proj1 (fd_set_interest (demo_object false) [] [] []));
      reflexivity.
Defined.

(** An established secure connection whose handshake is still pending: the
    descriptor goes to the write and error sets and not to the read set. *)
Lemma fd_set_handshake_skips_read_set :
  connected (self (established demo_env true)) = true /\
  _needs_handshake (self (established demo_env true)) = true /\
  fd_set (self (established demo_env true)) [] [] [] = (Val tt, ([], [7], [7])) /\
  ~ In 7 (fst (fst (snd (fd_set (self (established demo_env true)) [] [] [])))).
Proof.
  split; [reflexivity|]. split; [reflexivity|]. split; [reflexivity|].
  vm_compute. intros [].
Qed.

(** ** Empty reads *)

Lemma read_counts_empty_reads_witness :
  (TICK_TIME demo_env = 1 /\
   _listen (self (established demo_env false)) = Some false /\
   _sock (self (established demo_env false)) =
     Some {| sock_fileno := 7; sock_tls := false |} /\
   _empty_reads (self (established demo_env false)) = 0 /\
   recv_all [Recv []] [] = []) /\
  option_map (fun r => _empty_reads (self (snd r)))
    (read demo_env true [Recv []] (established demo_env false)) = Some 1 /\
  option_map (fun w => (_empty_reads (self w), _sock (self w), timers w))
    (empty_reads_run demo_env 2000 (established demo_env false)) =
    Some (2000, Some {| sock_fileno := 7; sock_tls := false |}, []) /\
  option_map (fun w => (_empty_reads (self w), _sock (self w), timers w))
    (empty_reads_run demo_env 2001 (established demo_env false)) =
    Some (2001, None,
          [{| t_id := 1; t_callback := Cb_connect; t_delay := 750 |}]).
Proof.
  assert (HT : TICK_TIME demo_env = 1) by reflexivity.
  assert (HL : _listen (self (established demo_env false)) = Some false)
    by reflexivity.
  assert (HS : _sock (self (established demo_env false)) =
                 Some {| sock_fileno := 7; sock_tls := false |}) by reflexivity.
  assert (HE : _empty_reads (self (established demo_env false)) = 0)
    by reflexivity.
  assert (HR : recv_all [Recv []] [] = []) by reflexivity.
  assert (HN : TICK_TIME demo_env <> 0) by (rewrite HT; discriminate).
  destruct (read_counts_empty_reads demo_env) as (H1 & H2 & H3).
  split; [auto 6|]. split; [|split].
  - destruct (H1 true [Recv []] _ _ HL HS HR HN) as [_ E]. rewrite E.
    rewrite HE. reflexivity.
  - rewrite (H2 _ _ 1999%nat HT HL HS HE) by lia. reflexivity.
  - rewrite (H3 _ _ HT HL HS HE). reflexivity.
Defined.

(** ** Outbound queue *)

Lemma patch_ping_messages : Forall is_message [patch; ping].
Proof.
  repeat constructor; eexists; (split; [reflexivity | discriminate]).
Defined.

Lemma put_write_fifo_witness :
  (Forall is_message [patch; ping] /\
   _needs_handshake (self (established demo_env false)) = false /\
   _sock (self (established demo_env false)) =
     Some {| sock_fileno := 7; sock_tls := false |}) /\
  _q (self (puts demo_env [patch; ping] (established demo_env false))) =
    [frame demo_env patch; frame demo_env ping] /\
  sent (snd (write demo_env Handshake_done always_sent
               (puts demo_env [patch; ping] (established demo_env false)))) =
    [demo_encode (frame demo_env patch); demo_encode (frame demo_env ping)] /\
  _q (self (snd (write demo_env Handshake_done always_sent
                   (puts demo_env [patch; ping] (established demo_env false))))) =
    [].
Proof.
  assert (N : _needs_handshake (self (established demo_env false)) = false)
    by reflexivity.
  assert (S : _sock (self (established demo_env false)) =
                Some {| sock_fileno := 7; sock_tls := false |}) by reflexivity.
  destruct (@put_write_fifo demo_env [patch; ping] (established demo_env false)
              _ patch_ping_messages N S) as (Q & _ & A).
  destruct (A Handshake_done always_sent (fun _ _ => eq_refl)) as (_ & E & L).
  split; [auto using patch_ping_messages|]. split; [|split].
  - rewrite Q. reflexivity.
  - rewrite E. reflexivity.
  - exact L.
Defined.

(** Three frames are queued and the second [sendall] raises: the first write
    callback raises, and after the next one, which sends all it finds, the
    queue is empty and the second frame was never sent: it was dropped. *)
Lemma write_drops_frame_of_failed_sendall :
  _q (self three_queued) =
    [frame demo_env patch; frame demo_env ping; frame demo_env room_info] /\
  fst (write demo_env Handshake_done second_send_fails three_queued) =
    Exc SocketError /\
  _q (self world_after_failed_write) = [frame demo_env room_info] /\
  fst (write demo_env Handshake_done always_sent world_after_failed_write) =
    Val tt /\
  _q (self world_after_next_write) = [] /\
  sent world_after_next_write =
    [demo_encode (frame demo_env patch); demo_encode (frame demo_env room_info)] /\
  ~ In (demo_encode (frame demo_env ping)) (sent world_after_next_write).
Proof.
  split; [vm_compute; reflexivity|]. split; [vm_compute; reflexivity|].
  split; [vm_compute; reflexivity|]. split; [vm_compute; reflexivity|].
  split; [vm_compute; reflexivity|]. split; [vm_compute; reflexivity|].
  vm_compute. intros [H | [H | []]]; discriminate.
Qed.

(** ** Inbound framing *)


(** C5: the claim fails on the code.  The buffer holds the line [5] and the
    line [{"name":"ping"}].  The first line decodes and parses, to the number
    5; [data.get] then raises [AttributeError] out of [_handle]: no event is
    dispatched for either line and the buffer keeps both, so the next call
    meets the same line and raises again. *)
Theorem _handle_stalls_on_non_record :
  json_loads demo_env (decode_ignore demo_env (demo_encode "5")) =
    Some (JNum 5) /\
  option_map (fun r => (fst r, data_events (snd r), _buf (self (snd r))))
    (_handle demo_env number_then_ping (demo_world false)) =
    Some (Exc AttributeError, [], number_then_ping) /\
  option_map (fun r => (fst r, data_events (snd r), _buf (self (snd r))))
    (match _handle demo_env number_then_ping (demo_world false) with
     | Some (_, w) => _handle demo_env [] w
     | None => None
     end) =
    Some (Exc AttributeError, [], number_then_ping).
Proof.
  split; [vm_compute; reflexivity|].
  split; vm_compute; reflexivity.
Qed.

(** The scenario of the spec: [{"name":"ping"}], a newline, and the start of a
    second frame. *)
Example _handle_ping_then_partial :
  option_map (fun r => (fst r, data_events (snd r), _buf (self (snd r))))
    (_handle demo_env
       (demo_encode (ping_text ++ LF ++ "{" ++ quoted "name"))
       (demo_world false)) =
    Some (Val tt, [Emit_data (JStr "ping") ping],
          demo_encode ("{" ++ quoted "name")).
Proof. vm_compute. reflexivity. Qed.

(** A line that does not parse is dropped and the next one is dispatched. *)
Example _handle_drops_malformed_line :
  option_map (fun r => (fst r, data_events (snd r), _buf (self (snd r))))
    (_handle demo_env (demo_encode ("oops" ++ LF ++ ping_text ++ LF))
       (demo_world false)) =
    Some (Val tt, [Emit_data (JStr "ping") ping], []).
Proof. vm_compute. reflexivity. Qed.

(** * The further statements at concrete worlds *)

Lemma established_reachable (sec : bool) :
  reachable demo_env (established demo_env sec).
Proof.
  apply reach_step with (w := demo_world sec) (o := Call_connect 7 Connect_ok).
  - apply reach_initial, demo_world_initial.
  - unfold established, run_op. reflexivity.
Defined.

Lemma fd_set_never_raises_witness :
  reachable demo_env (established demo_env true) /\
  connected (self (established demo_env true)) = true /\
  fst (fd_set (self (established demo_env true)) [] [] []) = Val tt /\
  (exists s, _sock (self (established demo_env true)) = Some s).
Proof.
  assert (C : connected (self (established demo_env true)) = true)
    by reflexivity.
  destruct (@fd_set_never_raises demo_env (established demo_env true) [] [] []
              (established_reachable true)) as (_ & S & F & _).
  split; [apply established_reachable|]. split; [exact C|].
  split; [exact F | exact (S C)].
Defined.

Lemma send_two_runs :
  run_ops demo_env send_two (demo_world false) =
    Some (world_after demo_env send_two (demo_world false)).
Proof. vm_compute. reflexivity. Defined.

Lemma sendall_gets_queued_frames_witness :
  run_ops demo_env send_two (demo_world false) =
    Some (world_after demo_env send_two (demo_world false)) /\
  Forall (queued_in demo_env send_two (demo_world false))
    (_q (self (world_after demo_env send_two (demo_world false)))) /\
  exists fs,
    sent (world_after demo_env send_two (demo_world false)) =
      sent (demo_world false) ++ map (utf8_encode demo_env) fs /\
    Forall (queued_in demo_env send_two (demo_world false)) fs.
Proof.
  split; [exact send_two_runs|].
  exact (@sendall_gets_queued_frames demo_env send_two _ _ send_two_runs).
Defined.

Lemma write_handshake_step_witness :
  (_needs_handshake (self (established demo_env true)) = true /\
   ssl demo_env = true /\
   _sock (self (established demo_env true)) =
     Some {| sock_fileno := 7; sock_tls := true |}) /\
  sent (snd (write demo_env Handshake_SSLError always_sent
               (puts demo_env [ping] (established demo_env true)))) =
    sent (puts demo_env [ping] (established demo_env true)) /\
  write demo_env Handshake_done always_sent (established demo_env true) =
    (Val tt,
     with_self (set__needs_handshake false (self (established demo_env true)))
       (established demo_env true)).
Proof.
  assert (N : _needs_handshake (self (established demo_env true)) = true)
    by reflexivity.
  assert (N1 : _needs_handshake
                 (self (puts demo_env [ping] (established demo_env true))) = true)
    by reflexivity.
  assert (L : ssl demo_env = true) by reflexivity.
  assert (S : _sock (self (established demo_env true)) =
                Some {| sock_fileno := 7; sock_tls := true |}) by reflexivity.
  split; [auto|]. split.
  - apply (@write_handshake_step demo_env Handshake_SSLError always_sent _ N1 L).
  - destruct (@write_handshake_step demo_env Handshake_done always_sent _ N L)
      as (_ & _ & H & _).
    apply (H _ S eq_refl).
Defined.

Lemma lose_and_regain_runs :
  run_ops demo_env lose_and_regain (established demo_env false) =
    Some (world_after demo_env lose_and_regain (established demo_env false)).
Proof. vm_compute. reflexivity. Defined.

Lemma handshake_is_never_rearmed_witness :
  (run_ops demo_env lose_and_regain (established demo_env false) =
     Some (world_after demo_env lose_and_regain (established demo_env false)) /\
   _needs_handshake (self (established demo_env false)) = false) /\
  connected
    (self (world_after demo_env lose_and_regain (established demo_env false))) =
    true /\
  _needs_handshake
    (self (world_after demo_env lose_and_regain (established demo_env false))) =
    false.
Proof.
  assert (N : _needs_handshake (self (established demo_env false)) = false)
    by reflexivity.
  split; [split; [exact lose_and_regain_runs | exact N]|].
  split; [vm_compute; reflexivity|].
  apply (@handshake_is_never_rearmed demo_env lose_and_regain _ _
           Handshake_done always_sent lose_and_regain_runs N).
Defined.

Lemma put_edge_cases_witness :
  (truthy (JObj []) = false /\
   truthy (JNum 5) = true /\ (forall kvs, JNum 5 <> JObj kvs) /\
   ping = JObj [("name"%string, JStr "ping")]) /\
  put demo_env (JObj []) (demo_world false) = (Val None, demo_world false) /\
  put demo_env (JNum 5) (demo_world false) =
    (Exc AttributeError, demo_world false) /\
  fst (put demo_env ping (demo_world false)) = Val (Some 1).
Proof.
  assert (T0 : truthy (JObj []) = false) by reflexivity.
  assert (T5 : truthy (JNum 5) = true) by reflexivity.
  assert (N5 : forall kvs, JNum 5 <> JObj kvs) by (intros kvs; discriminate).
  assert (P : ping = JObj [("name"%string, JStr "ping")]) by reflexivity.
  assert (NE : [("name"%string, JStr "ping")] <> []) by discriminate.
  split; [auto|]. split; [|split].
  - apply (proj1 (put_edge_cases demo_env (JObj []) (demo_world false)) T0).
  - apply (proj1 (proj2 (put_edge_cases demo_env (JNum 5) (demo_world false)))
             T5 N5).
  - apply (proj2 (proj2 (put_edge_cases demo_env ping (demo_world false)))
             _ P NE).
Defined.

Lemma connect_ok_succeeds : succeeds Connect_ok.
Proof. left. reflexivity. Defined.

Lemma queue_across_lifecycle_witness :
  succeeds Connect_ok /\
  _q (self (snd (reconnect (puts demo_env [ping] (demo_world false))))) =
    [frame demo_env ping] /\
  _q (self (snd (connect demo_env 7 Connect_ok
                   (puts demo_env [ping] (demo_world false))))) = [].
Proof.
  split; [exact connect_ok_succeeds|].
  destruct (queue_across_lifecycle demo_env
              (puts demo_env [ping] (demo_world false))) as (_ & _ & R & _).
  destruct (queue_across_lifecycle demo_env (demo_world false))
    as (_ & _ & _ & _ & C).
  split.
  - rewrite R. reflexivity.
  - apply (C 7 Connect_ok [ping] connect_ok_succeeds).
Defined.

Lemma connect_establishes_witness :
  (succeeds Connect_ok /\ connect_subscriber_raises demo_env = false) /\
  _sock (self (snd (connect demo_env 7 Connect_ok (demo_world true)))) =
    Some {| sock_fileno := 7; sock_tls := true |} /\
  fst (connect demo_env 7 Connect_ok (demo_world true)) = Val tt /\
  connected (self (snd (connect demo_env 7 Connect_ok (demo_world true)))) =
    true.
Proof.
  assert (B : connect_subscriber_raises demo_env = false) by reflexivity.
  destruct (@connect_establishes demo_env 7 Connect_ok (demo_world true)
              connect_ok_succeeds) as (S & _ & _ & _ & H & _).
  split; [split; [exact connect_ok_succeeds | exact B]|].
  split; [exact S | exact (H B)].
Defined.

Lemma connect_downgrades_without_ssl_witness :
  (succeeds Connect_ok /\ ssl no_ssl_env = false /\
   secure (self (demo_world true)) = true /\
   port (self (demo_world true)) = DEFAULT_PORT no_ssl_env) /\
  secure (self (snd (connect no_ssl_env 7 Connect_ok (demo_world true)))) =
    false /\
  port (self (snd (connect no_ssl_env 7 Connect_ok (demo_world true)))) =
    3148 /\
  exists s,
    _sock (self (snd (connect no_ssl_env 7 Connect_ok (demo_world true)))) =
      Some s /\ sock_tls s = false.
Proof.
  assert (L : ssl no_ssl_env = false) by reflexivity.
  destruct (@connect_downgrades_without_ssl no_ssl_env 7 Connect_ok
              (demo_world true) connect_ok_succeeds) as (S & P & _ & K).
  split; [repeat split; auto using connect_ok_succeeds|].
  split; [rewrite S; reflexivity|]. split; [rewrite P; reflexivity|].
  exact (K L).
Defined.

Lemma stop_leaves_nothing_pending_witness :
  (initial (demo_world false) /\
   0 < next_timeout_id (demo_world false) /\
   run_ops demo_env [Call_reconnect] (demo_world false) =
     Some world_waiting_to_reconnect /\
   pending_reconnects world_waiting_to_reconnect =
     [{| t_id := 1; t_callback := Cb_connect; t_delay := 750 |}]) /\
  pending_reconnects (snd (stop world_waiting_to_reconnect)) = [] /\
  _reconnect_timeout (self (snd (stop world_waiting_to_reconnect))) = None.
Proof.
  destruct (@stop_leaves_nothing_pending demo_env [Call_reconnect]
              (demo_world false) world_waiting_to_reconnect
              (demo_world_initial false) demo_world_first_handle
              waiting_world_runs) as (_ & P & _ & T & _).
  split; [|split; [exact P | exact T]].
  split; [exact (demo_world_initial false)|].
  split; [exact demo_world_first_handle|].
  split; [exact waiting_world_runs | reflexivity].
Defined.

Lemma demo_world_quiet : quiet (demo_world false).
Proof. split; [reflexivity | constructor]. Defined.

Lemma backoff_reaches_cap_witness :
  (quiet (demo_world false) /\
   500 <= _reconnect_delay (self (demo_world false)) <= 10000 /\
   (8 <= 8)%nat) /\
  _reconnect_delay
    (self (Nat.iter 8 (retry_round demo_env 7) (demo_world false))) = 10000.
Proof.
  assert (B : 500 <= _reconnect_delay (self (demo_world false)) <= 10000)
    by (cbn; unfold INITIAL_RECONNECT_DELAY; lia).
  assert (K : (8 <= 8)%nat) by lia.
  split; [auto using demo_world_quiet|].
  apply (@backoff_reaches_cap demo_env 7 8 (demo_world false)
           demo_world_quiet B K).
Defined.

Lemma read_with_data_witness :
  (_listen (self (established demo_env false)) = Some false /\
   _sock (self (established demo_env false)) =
     Some {| sock_fileno := 7; sock_tls := false |} /\
   recv_all [Recv first_chunk; Recv second_chunk; Recv []] [] <> []) /\
  recv_all [Recv first_chunk; Recv second_chunk; Recv []] [] =
    first_chunk ++ second_chunk /\
  exists r,
    read demo_env true [Recv first_chunk; Recv second_chunk; Recv []]
      (established demo_env false) = Some r /\
    _empty_reads (self (snd r)) = 0.
Proof.
  assert (L : _listen (self (established demo_env false)) = Some false)
    by reflexivity.
  assert (S : _sock (self (established demo_env false)) =
                Some {| sock_fileno := 7; sock_tls := false |}) by reflexivity.
  assert (N : recv_all [Recv first_chunk; Recv second_chunk; Recv []] [] <> [])
    by (vm_compute; discriminate).
  destruct (@read_with_data demo_env true
              [Recv first_chunk; Recv second_chunk; Recv []]
              (established demo_env false) _ L S N) as (_ & R & C).
  split; [auto|]. split; [|exact R].
  rewrite (C [first_chunk; second_chunk] [Recv []]).
  - cbn [List.concat]. rewrite ?app_nil_r. reflexivity.
  - reflexivity.
  - repeat constructor; vm_compute; discriminate.
  - exact I.
Defined.

Lemma _handle_loop_ends_witness :
  ((List.length (fst (split_lines (_buf (self world_with_buffered_lines)))) < 3)%nat /\
   Forall (fun l => parses_to_non_object demo_env l = false)
     (fst (split_lines (_buf (self world_with_buffered_lines)))) /\
   (2 <= List.length (fst (split_lines (_buf (self world_with_buffered_lines)))))%nat) /\
  (exists r, _handle_loop demo_env 3 world_with_buffered_lines = Some r) /\
  _handle_loop demo_env 2 world_with_buffered_lines = None.
Proof.
  assert (L : (List.length
                 (fst (split_lines (_buf (self world_with_buffered_lines)))) < 3)%nat)
    by (vm_compute; lia).
  assert (O : Forall (fun l => parses_to_non_object demo_env l = false)
                (fst (split_lines (_buf (self world_with_buffered_lines)))))
    by (vm_compute; repeat constructor).
  assert (G : (2 <= List.length
                      (fst (split_lines (_buf (self world_with_buffered_lines)))))%nat)
    by (vm_compute; lia).
  destruct (_handle_loop_ends demo_env) as (E & F & _).
  split; [auto|]. split.
  - exact (E 3%nat world_with_buffered_lines L).
  - exact (F 2%nat world_with_buffered_lines O G).
Defined.

Lemma chunks_parse_to_records :
  Forall (fun l => parses_to_non_object demo_env l = false)
    (fst (split_lines
            (_buf (self (demo_world false)) ++ first_chunk ++ second_chunk))).
Proof. vm_compute. repeat constructor. Defined.

Lemma _handle_frames_the_stream_witness :
  Forall (fun l => parses_to_non_object demo_env l = false)
    (fst (split_lines
            (_buf (self (demo_world false)) ++ first_chunk ++ second_chunk))) /\
  exists w',
    _handle demo_env (first_chunk ++ second_chunk) (demo_world false) =
      Some (Val tt, w') /\
    data_events w' = [Emit_data (JStr "ping") ping] /\
    _buf (self w') = demo_encode ("{" ++ quoted "name").
Proof.
  split; [exact chunks_parse_to_records|].
  destruct (@_handle_frames_the_stream demo_env (first_chunk ++ second_chunk)
              (demo_world false) chunks_parse_to_records)
    as (w' & H & D & B & _).
  exists w'. split; [exact H|]. split.
  - rewrite D. vm_compute. reflexivity.
  - rewrite B. vm_compute. reflexivity.
Defined.

Lemma _handle_chunking_witness :
  Forall (fun l => parses_to_non_object demo_env l = false)
    (fst (split_lines
            (_buf (self (demo_world false)) ++ first_chunk ++ second_chunk))) /\
  exists w1 w2 w12,
    _handle demo_env first_chunk (demo_world false) = Some (Val tt, w1) /\
    _handle demo_env second_chunk w1 = Some (Val tt, w2) /\
    _handle demo_env (first_chunk ++ second_chunk) (demo_world false) =
      Some (Val tt, w12) /\
    data_events w2 = data_events w12 /\
    _buf (self w2) = _buf (self w12).
Proof.
  split; [exact chunks_parse_to_records|].
  exact (@_handle_chunking demo_env first_chunk second_chunk (demo_world false)
           chunks_parse_to_records).
Defined.

Lemma read_returns_normally_witness :
  (_listen (self (established demo_env false)) = Some false /\
   TICK_TIME demo_env <> 0 /\
   Forall (fun l => parses_to_non_object demo_env l = false)
     (fst (split_lines
             (_buf (self (established demo_env false)) ++
              recv_all [Recv first_chunk; Recv_error] [])))) /\
  exists w',
    read demo_env true [Recv first_chunk; Recv_error]
      (established demo_env false) = Some (Val tt, w').
Proof.
  assert (L : _listen (self (established demo_env false)) = Some false)
    by reflexivity.
  assert (T : TICK_TIME demo_env <> 0) by (vm_compute; discriminate).
  assert (O : Forall (fun l => parses_to_non_object demo_env l = false)
                (fst (split_lines
                        (_buf (self (established demo_env false)) ++
                         recv_all [Recv first_chunk; Recv_error] []))))
    by (vm_compute; repeat constructor).
  split; [auto|].
  exact (@read_returns_normally demo_env true [Recv first_chunk; Recv_error]
           (established demo_env false) L T O).
Defined.

Lemma room_info_line_has_no_newline :
  no_newline (demo_encode room_info_text).
Proof.
  unfold no_newline. vm_compute. intuition discriminate.
Defined.

Lemma subscriber_failure_is_contained_witness :
  (no_newline (demo_encode room_info_text) /\
   _buf (self (established raising_env false)) = [] /\
   json_loads raising_env
     (decode_ignore raising_env (demo_encode room_info_text)) =
     Some room_info /\
   data_subscriber_raises raising_env (JStr "room_info") room_info = true) /\
  exists w',
    _handle raising_env (demo_encode room_info_text ++ [NEWLINE])
      (established raising_env false) = Some (Val tt, w') /\
    connected (self w') = false /\
    _sock (self w') = None.
Proof.
  assert (B : _buf (self (established raising_env false)) = []) by reflexivity.
  assert (J : json_loads raising_env
                (decode_ignore raising_env (demo_encode room_info_text)) =
                Some (JObj [("name"%string, JStr "room_info")]))
    by (vm_compute; reflexivity).
  assert (R : data_subscriber_raises raising_env
                (dict_get "name" [("name"%string, JStr "room_info")])
                (JObj [("name"%string, JStr "room_info")]) = true)
    by reflexivity.
  split; [repeat split; auto using room_info_line_has_no_newline|].
  destruct (@subscriber_failure_is_contained raising_env
              (demo_encode room_info_text) _ (established raising_env false)
              room_info_line_has_no_newline B J R) as (w' & H & _ & F).
  exists w'. split; [exact H|].
  change (is_room_info (dict_get "name" [("name"%string, JStr "room_info")]))
    with true in F.
  destruct F as (_ & S & C & _). auto.
Defined.

Lemma write_interest_follows_queue_witness :
  (Forall is_message [patch; ping] /\
   connected (self (established demo_env false)) = true /\
   _listener (self (established demo_env false)) = false /\
   _needs_handshake (self (established demo_env false)) = false /\
   _sock (self (established demo_env false)) =
     Some {| sock_fileno := 7; sock_tls := false |} /\
   _q (self (established demo_env false)) = []) /\
  fd_set (self (puts demo_env [patch; ping] (established demo_env false)))
    [] [] [] = (Val tt, ([7], [7], [7])) /\
  fd_set (self (snd (write demo_env Handshake_done always_sent
                       (puts demo_env [patch; ping]
                          (established demo_env false))))) [] [] [] =
    (Val tt, ([7], [], [7])).
Proof.
  assert (C : connected (self (established demo_env false)) = true)
    by reflexivity.
  assert (L : _listener (self (established demo_env false)) = false)
    by reflexivity.
  assert (N : _needs_handshake (self (established demo_env false)) = false)
    by reflexivity.
  assert (S : _sock (self (established demo_env false)) =
                Some {| sock_fileno := 7; sock_tls := false |}) by reflexivity.
  assert (Q : _q (self (established demo_env false)) = []) by reflexivity.
  split; [auto 7 using patch_ping_messages|].
  exact (@write_interest_follows_queue demo_env [patch; ping]
           (established demo_env false) _ patch_ping_messages C L N S Q).
Defined.
